(** * ClearShelf billing dialog: scan resolution, cart and FEFO checkout

    A shallow embedding of [src/components/shopkeeper/BillingDialog.tsx].

    The component keeps its React state in a [Session]; everything outside
    the component (the Supabase tables, the outcome of each remote call,
    the browser's answer to [window.open], and what the user gets to see)
    lives in a [World].  Every handler of the component is a function
    [Session -> World -> Session * World].

    Numbers: quantities are the integer columns of [inventory_batches] and
    the integers [parseInt] hands to [changeQty]; they are modelled in [Z].
    Prices are JavaScript numbers: binary64 floating point, here the
    primitive [float] with its IEEE 754 operations, so a price is the
    double the code computes, rounding included.  Strings are the UTF-8
    text of the JavaScript strings.  Expiry dates are the calendar date
    strings (YYYY-MM-DD) the tables hold; their lexicographic order is
    their chronological order. *)

From Stdlib Require Import Floats.
From Stdlib Require Import List ZArith String Ascii Bool Lia.
From Stdlib Require Import Permutation Sorted DecimalString.
Import ListNotations.

Local Open Scope Z_scope.
Local Open Scope string_scope.

(** ** Rows of the two tables, cart lines, OCR payload *)

(** [products]: the columns the component reads or filters on. *)
Record Product := mkProduct {
  prod_id : string;
  prod_name : string;
  prod_gtin : option string
}.

(** [inventory_batches]. *)
Record Batch := mkBatch {
  batch_id : string;
  product_id : string;
  shop_id : string;
  quantity : Z;
  mrp : float;
  discount_percent : option float;
  expiry_date : string;
  status : string
}.

(** [interface CartItem]. *)
Record CartItem := mkCartItem {
  productId : string;
  gtin : option string;
  name : string;
  qty : Z;
  unitPrice : float;
  availableQty : Z
}.

(** The payload of the [ocr-scan] function: [{ gtin, productName,
    expiryDate }], each field possibly missing.  A null payload is the
    payload with no field. *)
Record OcrData := mkOcr {
  ocr_gtin : option string;
  productName : option string;
  expiryDate : option string
}.

(** [BillingDialogProps] ([onInventoryUpdated] is an event of the world). *)
Record Props := mkProps {
  shopId : string;
  shopName : option string
}.

Record Directory := mkDirectory {
  products : list Product;
  inventory_batches : list Batch
}.

(** ** Remote calls *)

(** A select on [inventory_batches] as the query builder assembles it:
    [.eq("product_id", _).eq("shop_id", _).eq("status", "active")
     .gt("quantity", 0)], then optionally [.eq("expiry_date", _)],
    [.order("expiry_date", { ascending: true })] and [.limit(_)]. *)
Record BatchQuery := mkBatchQuery {
  q_product : string;
  q_shop : string;
  q_expiry : option string;
  q_ordered : bool;
  q_limit : option nat
}.

Inductive Query :=
| ProductByGtin (g : string)
| ProductsByName (pattern : string) (limit : nat)
| SelectBatches (q : BatchQuery)
| UpdateBatch (id : string) (new_quantity : Z) (new_status : string).

(** What a call resolves to: [{ data, error: null }] or
    [{ data: null, error }]. *)
Inductive Response (A : Type) :=
| Ok (data : A)
| Failed (message : string).

Arguments Ok {A} data.
Arguments Failed {A} message.

(** ** Numbers and their text *)

(** The double nearest to an integer, ties to even (exact below 2^53): a
    quantity where JavaScript multiplies it with a price. *)
Definition number (z : Z) : float :=
  SF2Prim (binary_normalize prec emax z 0 false).

(** [x || fallback] on a nullable numeric column: null, NaN and zero are
    falsy. *)
Definition number_or (x : option float) (fallback : float) : float :=
  match x with
  | Some v => if (is_nan v || is_zero v)%bool then fallback else v
  | None => fallback
  end.

(** Template-literal rendering of an integer. *)
Definition show (n : Z) : string := NilZero.string_of_int (Z.to_int n).

(** What the document shows for an amount: decimal text, or, for an amount
    of 10^21 or more where [toFixed] hands over to [Number::toString], that
    number in the exponent notation of [toString], which is not spelled
    out here. *)
Inductive Shown :=
| Text (digits : string)
| NumberToString (x : float).

(** Two decimals of the non-negative number [m * 2^e]: the integer [n]
    nearest to a hundred times the number, the larger one of two equally
    near, with a point before its last two digits. *)
Definition fixed2 (m e : Z) : string :=
  let n :=
    if (0 <=? e)%Z then m * 2 ^ e * 100
    else (m * 200 + 2 ^ (- e)) / 2 ^ (1 - e) in
  let s := show n in
  let s :=
    match String.length s with
    | 1%nat => "00" ++ s
    | 2%nat => "0" ++ s
    | _ => s
    end in
  substring 0 (String.length s - 2) s ++ "."
  ++ substring (String.length s - 2) 2 s.

(** [x.toFixed(2)]. *)
Definition toFixed2 (x : float) : Shown :=
  match Prim2SF x with
  | S754_nan => Text "NaN"
  | S754_infinity false => Text "Infinity"
  | S754_infinity true => Text "-Infinity"
  | S754_zero _ => Text "0.00"
  | S754_finite negative m e =>
      if (10 ^ 21 * 2 ^ Z.max 0 (- e) <=? Zpos m * 2 ^ Z.max 0 e)%Z
      then NumberToString x
      else Text ((if negative then "-" else "") ++ fixed2 (Zpos m) e)
  end.

(** The receipt document as what it shows: heading, date line, one row per
    cart line (name, quantity, price, total), subtotal. *)
Record Receipt := mkReceipt {
  receipt_shop : string;
  receipt_date : string;
  receipt_lines : list (string * Z * Shown * Shown);
  receipt_subtotal : Shown
}.

Record Toast := mkToast {
  variant : option string;
  title : string;
  description : string
}.

(** What the component does to the outside, in the order it does it. *)
Inductive Event :=
| EvToast (t : Toast)
| EvConsoleError (label : string)
| EvWindowOpen
| EvReceiptWritten (r : Receipt)
| EvRemote (q : Query) (error : option string)
| EvInventoryUpdated.

(** [faults] schedules the outcome of the coming remote calls: the head is
    the next call, [Some m] makes it fail with message [m]; calls beyond the
    schedule succeed.  A failed update leaves the table as it was.
    [popup_blocked] says whether [window.open] returns null; [clock] is the
    text [new Date().toLocaleString()] gives while the run lasts. *)
Record World := mkWorld {
  dir : Directory;
  faults : list (option string);
  popup_blocked : bool;
  clock : string;
  log : list Event
}.

Record Session := mkSession {
  isOpen : bool;
  cart : list CartItem;
  isScanning : bool;
  isCheckingOut : bool;
  isCameraOpen : bool
}.

Definition emit (e : Event) (w : World) : World :=
  {| dir := dir w; faults := faults w; popup_blocked := popup_blocked w;
     clock := clock w; log := (log w ++ [e])%list |}.

Definition toast (v : option string) (t d : string) (w : World) : World :=
  emit (EvToast {| variant := v; title := t; description := d |}) w.

Definition error_of {A} (r : Response A) : option string :=
  match r with Ok _ => None | Failed m => Some m end.

Definition data_of {A} (r : Response A) : option A :=
  match r with Ok d => Some d | Failed _ => None end.

(** One awaited call: the schedule decides whether it is answered. *)
Definition remote {A} (q : Query) (answer : Directory -> Response A)
  (change : Directory -> Directory) (w : World) : Response A * World :=
  let '(fault, rest) :=
    match faults w with
    | [] => (None, [])
    | f :: fs => (f, fs)
    end in
  match fault with
  | Some m =>
      (Failed m,
       {| dir := dir w; faults := rest; popup_blocked := popup_blocked w;
          clock := clock w;
          log := (log w ++ [EvRemote q (Some m)])%list |})
  | None =>
      let r := answer (dir w) in
      (r,
       {| dir := match r with Ok _ => change (dir w) | Failed _ => dir w end;
          faults := rest; popup_blocked := popup_blocked w;
          clock := clock w;
          log := (log w ++ [EvRemote q (error_of r)])%list |})
  end.

(** ** The directory's side of the queries *)

Definition matches_query (q : BatchQuery) (b : Batch) : bool :=
  String.eqb (product_id b) (q_product q)
  && String.eqb (shop_id b) (q_shop q)
  && String.eqb (status b) "active"
  && (0 <? quantity b)%Z
  && match q_expiry q with
     | Some e => String.eqb (expiry_date b) e
     | None => true
     end.

Fixpoint insert_by_expiry (b : Batch) (l : list Batch) : list Batch :=
  match l with
  | [] => [b]
  | c :: l' =>
      if String.leb (expiry_date b) (expiry_date c) then b :: c :: l'
      else c :: insert_by_expiry b l'
  end.

(** [ORDER BY expiry_date ASC]; rows with the same date keep table order. *)
Definition order_by_expiry (l : list Batch) : list Batch :=
  fold_right insert_by_expiry [] l.

Definition run_batch_query (q : BatchQuery) (d : Directory) : list Batch :=
  let rows := filter (matches_query q) (inventory_batches d) in
  let rows := if q_ordered q then order_by_expiry rows else rows in
  match q_limit q with
  | Some n => firstn n rows
  | None => rows
  end.

Definition has_gtin (g : string) (p : Product) : bool :=
  match prod_gtin p with
  | Some g' => String.eqb g' g
  | None => false
  end.

(** [.eq("gtin", g).maybeSingle()]: the row when there is exactly one, null
    when there is none, an error when there are several. *)
Definition answer_maybe_single (g : string) (d : Directory)
  : Response (option Product) :=
  match filter (has_gtin g) (products d) with
  | [] => Ok None
  | [p] => Ok (Some p)
  | _ => Failed "JSON object requested, multiple (or no) rows returned"
  end.

Definition set_batch (id : string) (new_quantity : Z) (new_status : string)
  (b : Batch) : Batch :=
  if String.eqb (batch_id b) id then
    {| batch_id := batch_id b; product_id := product_id b;
       shop_id := shop_id b; quantity := new_quantity; mrp := mrp b;
       discount_percent := discount_percent b;
       expiry_date := expiry_date b; status := new_status |}
  else b.

(** [.update({ quantity, status }).eq("id", id)]. *)
Definition apply_update (id : string) (new_quantity : Z) (new_status : string)
  (d : Directory) : Directory :=
  {| products := products d;
     inventory_batches :=
       map (set_batch id new_quantity new_status) (inventory_batches d) |}.

Definition select_batches (q : BatchQuery) (w : World)
  : Response (list Batch) * World :=
  remote (SelectBatches q) (fun d => Ok (run_batch_query q d)) (fun d => d) w.

Definition update_batch (id : string) (new_quantity : Z) (new_status : string)
  (w : World) : Response unit * World :=
  remote (UpdateBatch id new_quantity new_status) (fun _ => Ok tt)
    (apply_update id new_quantity new_status) w.

(** ** JavaScript odds and ends *)

(** Truthiness of an optional string field: present and not empty. *)
Definition truthy (o : option string) : bool :=
  match o with
  | Some s => negb (String.eqb s "")
  | None => false
  end.

Definition field (o : option string) : string :=
  match o with Some s => s | None => "" end.

(** [message || fallback]. *)
Definition or_else (message fallback : string) : string :=
  if String.eqb message "" then fallback else message.

Definition bytes (l : list Z) : string :=
  string_of_list_ascii (map (fun n => ascii_of_nat (Z.to_nat n)) l).

(** The white space and line terminators of ECMAScript, in UTF-8: TAB, LF,
    VT, FF, CR, SP, U+00A0, U+1680, U+2000 to U+200A, U+2028, U+2029,
    U+202F, U+205F, U+3000, U+FEFF. *)
Definition white_space : list string :=
  [ bytes [9]; bytes [10]; bytes [11]; bytes [12]; bytes [13]; bytes [32];
    bytes [194; 160]; bytes [225; 154; 128];
    bytes [226; 128; 128]; bytes [226; 128; 129]; bytes [226; 128; 130];
    bytes [226; 128; 131]; bytes [226; 128; 132]; bytes [226; 128; 133];
    bytes [226; 128; 134]; bytes [226; 128; 135]; bytes [226; 128; 136];
    bytes [226; 128; 137]; bytes [226; 128; 138];
    bytes [226; 128; 168]; bytes [226; 128; 169]; bytes [226; 128; 175];
    bytes [226; 129; 159]; bytes [227; 128; 128]; bytes [239; 187; 191] ].

(** What follows the prefix [p] in [s], when [s] starts with [p]. *)
Fixpoint after_prefix (p s : string) : option string :=
  match p, s with
  | EmptyString, _ => Some s
  | String a p', String b s' =>
      if Ascii.eqb a b then after_prefix p' s' else None
  | String _ _, EmptyString => None
  end.

(** [s] without the white space character in [spaces] it starts with. *)
Definition skip_space (spaces : list string) (s : string) : option string :=
  fold_right
    (fun space found =>
       match after_prefix space s with
       | Some rest => Some rest
       | None => found
       end)
    None spaces.

Fixpoint skip_spaces (spaces : list string) (fuel : nat) (s : string)
  : string :=
  match fuel with
  | O => s
  | S fuel' =>
      match skip_space spaces s with
      | Some rest => skip_spaces spaces fuel' rest
      | None => s
      end
  end.

Definition reverse (s : string) : string :=
  string_of_list_ascii (rev (list_ascii_of_string s)).

Definition trim_start (s : string) : string :=
  skip_spaces white_space (String.length s) s.

Definition trim_end (s : string) : string :=
  reverse
    (skip_spaces (map reverse white_space) (String.length s) (reverse s)).

(** [String.prototype.trim]. *)
Definition trim (s : string) : string := trim_end (trim_start s).

(** ** [resolveScannedProductToCart] *)

Section Resolver.

(** [ilike pattern value]: the directory's case-insensitive [LIKE]; the
    component only ever hands it a pattern. *)
Variable ilike : string -> string -> bool.
Variable props : Props.

Definition product_by_gtin (g : string) (w : World)
  : Response (option Product) * World :=
  remote (ProductByGtin g) (answer_maybe_single g) (fun d => d) w.

Definition products_by_name (pattern : string) (limit : nat) (w : World)
  : Response (list Product) * World :=
  remote (ProductsByName pattern limit)
    (fun d =>
       Ok (firstn limit
             (filter (fun p => ilike pattern (prod_name p)) (products d))))
    (fun d => d) w.

(** [!batches || batches.length === 0], and the same test on products. *)
Definition nothing {A} (rows : option (list A)) : bool :=
  match rows with
  | Some (_ :: _) => false
  | _ => true
  end.

Definition probe_query (p : Product) (expiry : string) : BatchQuery :=
  {| q_product := prod_id p; q_shop := shopId props;
     q_expiry := Some expiry; q_ordered := false; q_limit := Some 1%nat |}.

(** [for (const p of products)]: the first candidate whose probe comes
    back with a row ends the loop. *)
Fixpoint probeCandidates (expiry : string) (candidates : list Product)
  (w : World) : option Product * World :=
  match candidates with
  | [] => (None, w)
  | p :: rest =>
      let '(r, w1) := select_batches (probe_query p expiry) w in
      if nothing (data_of r) then probeCandidates expiry rest w1
      else (Some p, w1)
  end.

(** Steps 1 and 2: [productData] once both lookups are over. *)
Definition matchProduct (ocrData : OcrData) (w : World)
  : option Product * World :=
  let '(productData, w1) :=
    if truthy (ocr_gtin ocrData) then
      let '(r, w1) := product_by_gtin (field (ocr_gtin ocrData)) w in
      (match data_of r with Some (Some p) => Some p | _ => None end, w1)
    else (None, w) in
  match productData with
  | Some p => (Some p, w1)
  | None =>
      if truthy (productName ocrData) then
        let nameQuery := trim (field (productName ocrData)) in
        let '(r, w2) := products_by_name ("%" ++ nameQuery ++ "%") 5 w1 in
        match data_of r with
        | Some (first :: more) =>
            let '(byExpiry, w3) :=
              if truthy (expiryDate ocrData) then
                probeCandidates (field (expiryDate ocrData)) (first :: more) w2
              else (None, w2) in
            (match byExpiry with Some p => Some p | None => Some first end,
             w3)
        | _ => (None, w2)
        end
      else (None, w1)
  end.

Definition inventory_query (p : Product) (expiry : option string)
  : BatchQuery :=
  {| q_product := prod_id p; q_shop := shopId props;
     q_expiry := expiry; q_ordered := false; q_limit := None |}.

(** Step 3: [batches] once the query and its fallback are over. *)
Definition findBatches (ocrData : OcrData) (productData : Product)
  (w : World) : option (list Batch) * World :=
  let inventoryQuery :=
    if truthy (expiryDate ocrData)
    then inventory_query productData (Some (field (expiryDate ocrData)))
    else inventory_query productData None in
  let '(r, w1) := select_batches inventoryQuery w in
  if nothing (data_of r) && truthy (expiryDate ocrData) then
    let '(fallback, w2) :=
      select_batches (inventory_query productData None) w1 in
    let w3 :=
      match error_of fallback with
      | Some _ => emit (EvConsoleError "Inventory fallback fetch error:") w2
      | None => w2
      end in
    (data_of fallback, w3)
  else (data_of r, w1).

Definition sumQuantity (batches : list Batch) : Z :=
  fold_left (fun sum batch => sum + quantity batch)%Z batches 0%Z.

(** [firstBatch.mrp * (1 - (firstBatch.discount_percent || 0) / 100)]. *)
Definition discountedPrice (firstBatch : Batch) : float :=
  (mrp firstBatch
   * (1 - number_or (discount_percent firstBatch) 0 / 100))%float.

Definition bump (item : CartItem) : CartItem :=
  {| productId := productId item; gtin := gtin item; name := name item;
     qty := (qty item + 1)%Z; unitPrice := unitPrice item;
     availableQty := availableQty item |}.

(** Step 4: the updater handed to [setCart]. *)
Definition addToCart (ocrData : OcrData) (productData : Product)
  (availableQty' : Z) (unitPrice' : float) (currentCart : list CartItem)
  : list CartItem * option Toast :=
  match find (fun item => String.eqb (productId item) (prod_id productData))
             currentCart with
  | Some existingItem =>
      if (qty existingItem <? availableQty')%Z then
        (map (fun item =>
                if String.eqb (productId item) (prod_id productData)
                then bump item else item) currentCart,
         None)
      else
        (currentCart,
         Some {| variant := None; title := "Max quantity reached";
                 description := "No more stock available for this item." |})
  | None =>
      ((currentCart ++
        [{| productId := prod_id productData;
            gtin := if truthy (ocr_gtin ocrData) then ocr_gtin ocrData
                    else None;
            name := prod_name productData;
            qty := 1;
            unitPrice := unitPrice';
            availableQty := availableQty' |}])%list,
       None)
  end.

Definition setCart (c : list CartItem) (s : Session) : Session :=
  {| isOpen := isOpen s; cart := c; isScanning := isScanning s;
     isCheckingOut := isCheckingOut s; isCameraOpen := isCameraOpen s |}.

Definition resolveScannedProductToCart (ocrData : OcrData) (s : Session)
  (w : World) : Session * World :=
  let '(productData, w1) := matchProduct ocrData w in
  match productData with
  | None =>
      (s, toast (Some "destructive") "Product not found"
            "Could not match product by GTIN or name." w1)
  | Some p =>
      let '(batches, w2) := findBatches ocrData p w1 in
      match batches with
      | Some (firstBatch :: more) =>
          let '(c, t) :=
            addToCart ocrData p (sumQuantity (firstBatch :: more))
              (discountedPrice firstBatch) (cart s) in
          (setCart c s,
           match t with Some t => emit (EvToast t) w2 | None => w2 end)
      | _ =>
          (s, toast (Some "destructive") "Out of Stock"
                "This product is not available in your inventory." w2)
      end
  end.

End Resolver.

(** ** [changeQty], [removeItem], [resetState] *)

Definition setQty (n : Z) (item : CartItem) : CartItem :=
  {| productId := productId item; gtin := gtin item; name := name item;
     qty := n; unitPrice := unitPrice item;
     availableQty := availableQty item |}.

(** The callback [changeQty] maps over the cart, with the toast it raises.
    [newQty] is what [parseInt] made of the input field; when that is NaN
    both comparisons fail and the line is returned as it is, like for a
    request that is neither positive nor above the cap. *)
Definition changeQtyItem (pid : string) (newQty : Z) (item : CartItem)
  : CartItem * option Toast :=
  if String.eqb (productId item) pid then
    if ((0 <? newQty) && (newQty <=? availableQty item))%Z then
      (setQty newQty item, None)
    else if (availableQty item <? newQty)%Z then
      (setQty (availableQty item) item,
       Some {| variant := None; title := "Not enough stock";
               description :=
                 "Only " ++ show (availableQty item) ++ " items available." |})
    else (item, None)
  else (item, None).

Definition raise (w : World) (t : option Toast) : World :=
  match t with
  | Some t => emit (EvToast t) w
  | None => w
  end.

Definition changeQty (pid : string) (newQty : Z) (s : Session) (w : World)
  : Session * World :=
  let results := map (changeQtyItem pid newQty) (cart s) in
  (setCart (map fst results) s, fold_left raise (map snd results) w).

Definition removeItem (pid : string) (s : Session) (w : World)
  : Session * World :=
  (setCart (filter (fun item => negb (String.eqb (productId item) pid))
              (cart s)) s,
   w).

Definition resetState (s : Session) : Session :=
  {| isOpen := isOpen s; cart := []; isScanning := false;
     isCheckingOut := false; isCameraOpen := false |}.

Definition setIsOpen (open : bool) (s : Session) : Session :=
  {| isOpen := open; cart := cart s; isScanning := isScanning s;
     isCheckingOut := isCheckingOut s; isCameraOpen := isCameraOpen s |}.

Definition setIsCheckingOut (b : bool) (s : Session) : Session :=
  {| isOpen := isOpen s; cart := cart s; isScanning := isScanning s;
     isCheckingOut := b; isCameraOpen := isCameraOpen s |}.

(** The [onOpenChange] callback handed to the dialog, which the dialog
    calls when the user opens or dismisses it:
    [(open) => { setIsOpen(open); if (!open) resetState(); }]. *)
Definition onOpenChange (open : bool) (s : Session) (w : World)
  : Session * World :=
  (if open then setIsOpen open s else resetState (setIsOpen open s), w).

(** ** [generateReceiptHtml] and [finalizeCheckout] *)

(** [item.qty * item.unitPrice]. *)
Definition lineTotal (item : CartItem) : float :=
  (number (qty item) * unitPrice item)%float.

(** [cart.reduce((sum, item) => sum + item.qty * item.unitPrice, 0)]. *)
Definition subtotal (c : list CartItem) : float :=
  fold_left (fun sum item => (sum + lineTotal item)%float) c 0%float.

(** The document written to the receipt window: [shopName || 'Your Shop'],
    the date, one row per cart line with [toFixed(2)] of the unit price
    and of the line total, [toFixed(2)] of the subtotal. *)
Definition receiptOf (props : Props) (date : string) (c : list CartItem)
  : Receipt :=
  {| receipt_shop := or_else (field (shopName props)) "Your Shop";
     receipt_date := date;
     receipt_lines :=
       map (fun item =>
              (name item, qty item, toFixed2 (unitPrice item),
               toFixed2 (lineTotal item))) c;
     receipt_subtotal := toFixed2 (subtotal c) |}.

Definition generateReceiptHtml (props : Props) (s : Session) (w : World)
  : World :=
  let w1 := emit EvWindowOpen w in
  if popup_blocked w then w1
  else emit (EvReceiptWritten (receiptOf props (clock w) (cart s))) w1.

Definition fefo_query (props : Props) (item : CartItem) : BatchQuery :=
  {| q_product := productId item; q_shop := shopId props;
     q_expiry := None; q_ordered := true; q_limit := None |}.

(** [for (const batch of batches)]; the result is the message of the error
    thrown, if one was. *)
Fixpoint deductBatches (item : CartItem) (batches : list Batch)
  (quantityToDeduct : Z) (w : World) : option string * World :=
  match batches with
  | [] => (None, w)
  | batch :: rest =>
      if (quantityToDeduct =? 0)%Z then (None, w)
      else
        let deduction := Z.min quantityToDeduct (quantity batch) in
        let newQuantity := (quantity batch - deduction)%Z in
        let '(r, w1) :=
          update_batch (batch_id batch) newQuantity
            (if (newQuantity =? 0)%Z then "sold_out" else "active") w in
        match error_of r with
        | Some _ =>
            (Some ("Failed to update inventory for " ++ name item
                   ++ ". Please check manually."),
             emit (EvConsoleError
                     ("Failed to update batch " ++ batch_id batch ++ ":")) w1)
        | None => deductBatches item rest (quantityToDeduct - deduction)%Z w1
        end
  end.

(** One turn of [for (const item of cart)]. *)
Definition deductItem (props : Props) (item : CartItem) (w : World)
  : option string * World :=
  let '(r, w1) := select_batches (fefo_query props item) w in
  match r with
  | Failed message =>
      (Some ("Failed to fetch batches for " ++ name item ++ ": " ++ message),
       w1)
  | Ok batches => deductBatches item batches (qty item) w1
  end.

Fixpoint deductCart (props : Props) (c : list CartItem) (w : World)
  : option string * World :=
  match c with
  | [] => (None, w)
  | item :: rest =>
      match deductItem props item w with
      | (Some message, w1) => (Some message, w1)
      | (None, w1) => deductCart props rest w1
      end
  end.

(** [setIsOpen(false)] on success changes the [open] prop the dialog is
    controlled by.  The dialog reports through [onOpenChange] what the
    user asks of it (trigger, close button, overlay, escape), not a change
    of the prop made by its parent, so [resetState] is not part of this
    handler. *)
Definition finalizeCheckout (props : Props) (s : Session) (w : World)
  : Session * World :=
  match cart s with
  | [] =>
      (s, toast None "Cart is empty"
            "Add items to the cart before checking out." w)
  | _ :: _ =>
      let w1 := generateReceiptHtml props s w in
      match deductCart props (cart s) w1 with
      | (None, w2) =>
          let w3 :=
            toast None "Checkout Successful" "Inventory has been updated."
              w2 in
          (setIsCheckingOut false (setIsOpen false s),
           emit EvInventoryUpdated w3)
      | (Some message, w2) =>
          let w3 := emit (EvConsoleError "Checkout failed:") w2 in
          (setIsCheckingOut false s,
           toast (Some "destructive") "Inventory Update Failed"
             (or_else message
                "The receipt was printed, but inventory could not be updated.")
             w3)
      end
  end.

(** ** Vocabulary of the statements *)

(** The outcome scheduled for the next remote call. *)
Definition next_fault (w : World) : option string :=
  match faults w with
  | [] => None
  | f :: _ => f
  end.

(** No remote call of the run fails. *)
Definition no_faults (w : World) : Prop :=
  Forall (fun f => f = None) (faults w).

(** [batch_id] is the primary key of [inventory_batches]. *)
Definition well_keyed (d : Directory) : Prop :=
  NoDup (map batch_id (inventory_batches d)).

Definition lookup_batch (id : string) (d : Directory) : option Batch :=
  find (fun b => String.eqb (batch_id b) id) (inventory_batches d).

(** A batch once its quantity has been written back as [n]. *)
Definition settle (b : Batch) (n : Z) : Batch :=
  {| batch_id := batch_id b; product_id := product_id b;
     shop_id := shop_id b; quantity := n; mrp := mrp b;
     discount_percent := discount_percent b;
     expiry_date := expiry_date b;
     status := if (n =? 0)%Z then "sold_out" else "active" |}.

Fixpoint sum_quantities (l : list Batch) : Z :=
  match l with
  | [] => 0
  | b :: l' => quantity b + sum_quantities l'
  end.

(** Each batch of a list with the stock standing before it in the list. *)
Fixpoint with_before (before : Z) (l : list Batch) : list (Batch * Z) :=
  match l with
  | [] => []
  | b :: l' => (b, before) :: with_before (before + quantity b) l'
  end.

(** What a request for [q] units takes from a batch that has [before]
    units ahead of it. *)
Definition share (q before : Z) (b : Batch) : Z :=
  Z.min (Z.max (q - before) 0) (quantity b).

Definition update_event (q : Z) (x : Batch * Z) : Event :=
  let n := quantity (fst x) - share q (snd x) (fst x) in
  EvRemote
    (UpdateBatch (batch_id (fst x)) n
       (if (n =? 0)%Z then "sold_out" else "active"))
    None.

Definition expiry_le (a b : Batch) : Prop :=
  String.leb (expiry_date a) (expiry_date b) = true.

(** The events a run added to the log. *)
Definition trace_of (w w' : World) : list Event :=
  skipn (List.length (log w)) (log w').

(** The effect on the tables of the calls a trace records as answered. *)
Definition replay_event (d : Directory) (e : Event) : Directory :=
  match e with
  | EvRemote (UpdateBatch id n st) None => apply_update id n st d
  | _ => d
  end.

Definition replay (evs : list Event) (d : Directory) : Directory :=
  fold_left replay_event evs d.

Definition is_remote (e : Event) : bool :=
  match e with
  | EvRemote _ _ => true
  | _ => false
  end.

(** A remote call that came back with an error. *)
Definition failed_call (e : Event) : bool :=
  match e with
  | EvRemote _ (Some _) => true
  | _ => false
  end.

Definition thrown (r : option string * World) : bool :=
  match fst r with
  | Some _ => true
  | None => false
  end.

Definition is_toast (e : Event) : bool :=
  match e with
  | EvToast _ => true
  | _ => false
  end.

Definition within_cap (item : CartItem) : Prop :=
  qty item <= availableQty item.

(** Carts a billing session can hold: empty when the component mounts,
    then whatever its handlers make of it. *)
Inductive Reachable : list CartItem -> Prop :=
| reach_empty : Reachable []
| reach_scan ilike props ocrData s w :
    Reachable (cart s) ->
    Reachable (cart (fst (resolveScannedProductToCart ilike props ocrData s w)))
| reach_change pid n s w :
    Reachable (cart s) -> Reachable (cart (fst (changeQty pid n s w)))
| reach_remove pid s w :
    Reachable (cart s) -> Reachable (cart (fst (removeItem pid s w)))
| reach_finalize props s w :
    Reachable (cart s) -> Reachable (cart (fst (finalizeCheckout props s w)))
| reach_dialog open s w :
    Reachable (cart s) -> Reachable (cart (fst (onOpenChange open s w))).

(** Stock of product [pid] at [shop]: active, quantity above zero. *)
Definition in_stock (shop pid : string) (b : Batch) : bool :=
  String.eqb (product_id b) pid
  && String.eqb (shop_id b) shop
  && String.eqb (status b) "active"
  && (0 <? quantity b)%Z.

Definition on_hand (props : Props) (p : Product) (d : Directory)
  : list Batch :=
  filter (in_stock (shopId props) (prod_id p)) (inventory_batches d).

Definition on_hand_expiring (props : Props) (p : Product) (e : string)
  (d : Directory) : list Batch :=
  filter (fun b => in_stock (shopId props) (prod_id p) b
                   && String.eqb (expiry_date b) e)
    (inventory_batches d).



(** The candidates of the name search, in result order. *)
Definition name_matches (ilike : string -> string -> bool)
  (ocrData : OcrData) (d : Directory) : list Product :=
  firstn 5
    (filter (fun p => ilike ("%" ++ trim (field (productName ocrData)) ++ "%")
                        (prod_name p))
       (products d)).

(** The batches a resolution builds its cart line from: those expiring on
    the scanned date when a date was scanned and there are some, all the
    stock on hand otherwise. *)
Definition qualifying (props : Props) (ocrData : OcrData) (p : Product)
  (d : Directory) : list Batch :=
  if truthy (expiryDate ocrData) then
    match on_hand_expiring props p (field (expiryDate ocrData)) d with
    | [] => on_hand props p d
    | l => l
    end
  else on_hand props p d.

(** The batch queries a resolution issues once the product is known. *)
Definition stock_queries (props : Props) (ocrData : OcrData) (p : Product)
  (d : Directory) : list Event :=
  if truthy (expiryDate ocrData) then
    EvRemote
      (SelectBatches
         (inventory_query props p (Some (field (expiryDate ocrData)))))
      None
    :: match on_hand_expiring props p (field (expiryDate ocrData)) d with
       | [] => [EvRemote (SelectBatches (inventory_query props p None)) None]
       | _ :: _ => []
       end
  else [EvRemote (SelectBatches (inventory_query props p None)) None].

Definition out_of_stock_toast : Toast :=
  {| variant := Some "destructive"; title := "Out of Stock";
     description := "This product is not available in your inventory." |}.

Fixpoint sum_shares (q : Z) (l : list (Batch * Z)) : Z :=
  match l with
  | [] => 0
  | x :: l' => share q (snd x) (fst x) + sum_shares q l'
  end.

(** A run [w'] of the component started in [w] only added to the log, and
    the tables are the old tables with the answered updates of the added
    events applied in order. *)
Definition follows (w w' : World) : Prop :=
  log w' = (log w ++ trace_of w w')%list
  /\ dir w' = replay (trace_of w w') (dir w)
  /\ popup_blocked w' = popup_blocked w.

(** The receipt is written, and no remote call comes before it. *)
Definition receipt_written_first (props : Props) (s : Session) (w : World)
  : Prop :=
  exists r before after,
    trace_of w (snd (finalizeCheckout props s w))
    = (before ++ EvReceiptWritten r :: after)%list
    /\ filter is_remote before = [].

(** ** A directory to run the handlers on *)

Definition lower (c : ascii) : ascii :=
  let n := nat_of_ascii c in
  if (Nat.leb 65 n && Nat.leb n 90)%bool then ascii_of_nat (n + 32) else c.

(** [LIKE] with its two wild cards, letters compared without case. *)
Fixpoint like (pattern value : string) : bool :=
  match pattern with
  | EmptyString =>
      match value with EmptyString => true | String _ _ => false end
  | String c pattern' =>
      if Ascii.eqb c "%" then
        (fix skip (v : string) : bool :=
           like pattern' v
           || match v with
              | EmptyString => false
              | String _ v' => skip v'
              end) value
      else
        match value with
        | EmptyString => false
        | String d value' =>
            (Ascii.eqb c "_" || Ascii.eqb (lower c) (lower d))
            && like pattern' value'
        end
  end.

Definition demo_props : Props :=
  {| shopId := "shop-1"; shopName := Some "Corner Store" |}.

Definition milkA : Product :=
  {| prod_id := "p-a"; prod_name := "Amul Milk 500ml";
     prod_gtin := Some "8901262010016" |}.
Definition milkB : Product :=
  {| prod_id := "p-b"; prod_name := "Nandini MILK 1l";
     prod_gtin := Some "8904004400267" |}.
Definition milkC : Product :=
  {| prod_id := "p-c"; prod_name := "Soy milk"; prod_gtin := None |}.
Definition bread : Product :=
  {| prod_id := "p-d"; prod_name := "Brown Bread";
     prod_gtin := Some "8901063010031" |}.

Definition stock (id pid : string) (n : Z) (price : float)
  (d : option float)
  (expiry : string) : Batch :=
  {| batch_id := id; product_id := pid; shop_id := "shop-1"; quantity := n;
     mrp := price; discount_percent := d; expiry_date := expiry;
     status := "active" |}.

(** Two batches of ten of product A (the later one first in the table),
    one batch of B, one of C, two of bread at different prices. *)
Definition demo_dir : Directory :=
  {| products := [milkA; milkB; milkC; bread];
     inventory_batches :=
       [ stock "b-a2" "p-a" 10 30 None "2024-02-01";
         stock "b-a1" "p-a" 10 30 (Some 10%float) "2024-01-01";
         stock "b-b1" "p-b" 4 56 None "2024-03-15";
         stock "b-c1" "p-c" 3 120 (Some 25%float) "2024-06-30";
         stock "b-d1" "p-d" 2 99 (Some 15%float) "2024-01-10";
         stock "b-d2" "p-d" 6 50 None "2024-01-20" ] |}.

Definition world_of (d : Directory) (schedule : list (option string))
  (blocked : bool) : World :=
  {| dir := d; faults := schedule; popup_blocked := blocked;
     clock := "1/15/2024, 10:30:00 AM"; log := [] |}.

Definition session_of (c : list CartItem) : Session :=
  {| isOpen := true; cart := c; isScanning := false;
     isCheckingOut := false; isCameraOpen := false |}.

Definition line (pid nm : string) (n : Z) (price : float) (cap : Z)
  : CartItem :=
  {| productId := pid; gtin := None; name := nm; qty := n;
     unitPrice := price; availableQty := cap |}.

(** ** Sample sessions *)

Definition scan_nandini : OcrData :=
  {| ocr_gtin := None; productName := Some " milk ";
     expiryDate := Some "2024-03-15" |}.

(** The cart after one scan of product B in the sample shop. *)
Definition scanned_session : Session :=
  fst (resolveScannedProductToCart like demo_props scan_nandini
         (session_of []) (world_of demo_dir [] false)).


(** A scan of the bread's code with a misread expiry date. *)
Definition scan_bread_stale : OcrData :=
  {| ocr_gtin := Some "8901063010031"; productName := None;
     expiryDate := Some "2030-01-01" |}.

(** The same terminal in a shop that holds no stock. *)
Definition other_shop : Props :=
  {| shopId := "shop-2"; shopName := None |}.

(** Fifteen of product A, of which two batches of ten are on hand. *)
Definition fifteen_of_A : CartItem :=
  line "p-a" "Amul Milk 500ml" 15 27 20.

Definition three_lines : list CartItem :=
  [ line "p-a" "Amul Milk 500ml" 2 27 20;
    line "p-d" "Brown Bread" 3 36 8;
    line "p-b" "Nandini MILK 1l" 1 56 4 ].

(** The fourth call of the run (the first update of the second line)
    fails. *)
Definition fourth_call_fails : list (option string) :=
  [None; None; None; Some "timeout"].

(** Nine of product B in the cart, capped at nine by an old snapshot; four
    are on hand. *)
Definition nine_of_B : CartItem :=
  line "p-b" "Nandini MILK 1l" 9 56 9.

Definition two_lines : list CartItem :=
  [ line "p-a" "Amul Milk 500ml" 2 27 20;
    line "p-b" "Nandini MILK 1l" 1 56 4 ].

(** ** Image intake: [processImage], [handleImageUpload], [handleCapture],
    and [capture] of the camera component *)

(** The text of [s] before its first comma (all of [s] without one). *)
Fixpoint before_comma (s : string) : string :=
  match s with
  | EmptyString => EmptyString
  | String c s' =>
      if Ascii.eqb c "," then EmptyString else String c (before_comma s')
  end.

(** The text of [s] after its first comma, if it has one. *)
Fixpoint after_comma (s : string) : option string :=
  match s with
  | EmptyString => None
  | String c s' => if Ascii.eqb c "," then Some s' else after_comma s'
  end.

(** [s.split(',')[1]]: the second piece, undefined when there is no
    comma. *)
Definition second_piece (s : string) : option string :=
  option_map before_comma (after_comma s).

Fixpoint has_comma (s : string) : bool :=
  match s with
  | EmptyString => false
  | String c s' => Ascii.eqb c "," || has_comma s'
  end.

Definition setIsScanning (b : bool) (s : Session) : Session :=
  {| isOpen := isOpen s; cart := cart s; isScanning := b;
     isCheckingOut := isCheckingOut s; isCameraOpen := isCameraOpen s |}.

Section Intake.

Variable ilike : string -> string -> bool.
Variable props : Props.

(** [ocr payload]: what [supabase.functions.invoke("ocr-scan", ...)]
    resolves to for the body [{ imageBase64: payload }]. *)
Variable ocr : option string -> Response OcrData.

Definition processImage (imageBase64 : string) (s : Session) (w : World)
  : Session * World :=
  if String.eqb imageBase64 "" then (s, w)
  else
    let pureBase64 := second_piece imageBase64 in
    match ocr pureBase64 with
    | Failed message =>
        let w1 :=
          emit (EvConsoleError "Supabase function invocation failed:") w in
        let thrown := or_else message "Edge function returned a non-2xx code." in
        let w2 := emit (EvConsoleError "OCR Scan failed:") w1 in
        (setIsScanning false s,
         toast (Some "destructive") "Scan Failed"
           (or_else thrown "Could not process image. Please try again.") w2)
    | Ok data =>
        let '(s1, w1) :=
          resolveScannedProductToCart ilike props data
            (setIsScanning true s) w in
        (setIsScanning false s1, w1)
    end.

(** The component's state with the previews: [productImages] holds the
    data URLs shown above the cart. *)
Record View := mkView {
  session : Session;
  productImages : list string
}.

Definition handleCapture (imageBase64 : string) (v : View) (w : World)
  : View * World :=
  let '(s, w1) := processImage imageBase64 (session v) w in
  ({| session := s;
      productImages := (productImages v ++ [imageBase64])%list |}, w1).

(** [files] are the picked files as [toBase64] finds them: the data URL
    the reader delivers, or the reader's error. *)
Fixpoint handleImageUpload (files : list (Response string)) (v : View)
  (w : World) : View * World :=
  match files with
  | [] => (v, w)
  | Failed _ :: rest =>
      handleImageUpload rest v
        (emit (EvConsoleError "Failed to process uploaded file") w)
  | Ok imageDataUrl :: rest =>
      let '(v1, w1) := handleCapture imageDataUrl v w in
      handleImageUpload rest v1 w1
  end.

(** [capture] of [CameraScan]: [getScreenshot] is what the webcam hands
    over (null with no frame), [onCapture] the parent's handler. *)
Definition capture (getScreenshot : option string) (v : View) (w : World)
  : View * World :=
  if truthy getScreenshot then handleCapture (field getScreenshot) v w
  else (v, w).

End Intake.

(** ** More vocabulary *)

(** The data URLs among the picked files, in order. *)
Fixpoint readable (files : list (Response string)) : list string :=
  match files with
  | [] => []
  | Ok url :: rest => url :: readable rest
  | Failed _ :: rest => readable rest
  end.

(** Row [r'] is row [r] after a checkout: the same row, possibly with less
    stock; a row that lost stock was on hand for a line of the cart [c], did
    not go below zero, and is marked sold out exactly when it is at zero. *)
Definition shrinks (props : Props) (c : list CartItem) (r r' : Batch)
  : Prop :=
  r' = r
  \/ (existsb (fun item => in_stock (shopId props) (productId item) r) c = true
      /\ batch_id r' = batch_id r
      /\ product_id r' = product_id r
      /\ shop_id r' = shop_id r
      /\ mrp r' = mrp r
      /\ discount_percent r' = discount_percent r
      /\ expiry_date r' = expiry_date r
      /\ 0 <= quantity r' < quantity r
      /\ status r' = if (quantity r' =? 0)%Z then "sold_out" else "active").

(** The calls checkout makes for one cart line on the tables [d]: the
    fetch, then one write for each fetched batch with less than the
    requested quantity ahead of it, in the order fetched. *)
Definition line_calls (props : Props) (item : CartItem) (d : Directory)
  : list Event :=
  EvRemote (SelectBatches (fefo_query props item)) None
  :: map (update_event (qty item))
       (filter (fun x => (snd x <? qty item)%Z)
          (with_before 0 (run_batch_query (fefo_query props item) d))).

(** The tables once the lines of [c] have been served one after the
    other, each on the tables the line before it left. *)
Fixpoint served (props : Props) (c : list CartItem) (d : Directory)
  : Directory :=
  match c with
  | [] => d
  | item :: rest => served props rest (replay (line_calls props item d) d)
  end.

(** The calls of the lines of [c], line after line. *)
Fixpoint cart_calls (props : Props) (c : list CartItem) (d : Directory)
  : list Event :=
  match c with
  | [] => []
  | item :: rest =>
      (line_calls props item d
       ++ cart_calls props rest (replay (line_calls props item d) d))%list
  end.

Definition scan_failed_toast (d : string) : Toast :=
  {| variant := Some "destructive"; title := "Scan Failed";
     description := d |}.

(** What [processImage] comes to once the OCR function has answered: the
    resolution of its data with the scanning flag lowered again, or the
    session as it was behind two console errors and the "Scan Failed"
    toast with the error's message. *)
Definition scanned_as (ilike : string -> string -> bool) (props : Props)
  (answer : Response OcrData) (s : Session) (w : World)
  (result : Session * World) : Prop :=
  match answer with
  | Ok data =>
      let resolved :=
        resolveScannedProductToCart ilike props data (setIsScanning true s)
          w in
      result = (setIsScanning false (fst resolved), snd resolved)
  | Failed m =>
      fst result = setIsScanning false s
      /\ trace_of w (snd result)
         = [ EvConsoleError "Supabase function invocation failed:";
             EvConsoleError "OCR Scan failed:";
             EvToast
               (scan_failed_toast
                  (or_else m "Edge function returned a non-2xx code.")) ]
  end.

(** A world in which the directory cannot be reached at all. *)
Definition all_calls_fail (n : nat) : list (option string) :=
  repeat (Some "offline") n.

Definition jpeg_url : string := "data:image/jpeg;base64,/9j/4AAQSkZJRg==".

(** An OCR service that reads the bread's code off any picture with a
    payload, and fails without one. *)
Definition demo_ocr (payload : option string) : Response OcrData :=
  match payload with
  | Some _ =>
      Ok {| ocr_gtin := Some "8901063010031"; productName := None;
            expiryDate := None |}
  | None => Failed "no image"
  end.

(** A scan of the bread's code with the expiry date read as [expiry]. *)
Definition scan_bread (expiry : option string) : OcrData :=
  {| ocr_gtin := Some "8901063010031"; productName := None;
     expiryDate := expiry |}.

Definition scans (l : list OcrData) (s : Session) : Session :=
  fold_left
    (fun s ocrData =>
       fst (resolveScannedProductToCart like demo_props ocrData s
              (world_of demo_dir [] false)))
    l s.


(** The bread scanned twice with the date of its first batch, two on
    hand, and once more with no date. *)
Definition overfull_session : Session :=
  scans [ scan_bread (Some "2024-01-10"); scan_bread (Some "2024-01-10");
          scan_bread None ] (session_of []).

Definition view_of (c : list CartItem) : View :=
  {| session := session_of c; productImages := [] |}.

Definition not_found_toast : Toast :=
  {| variant := Some "destructive"; title := "Product not found";
     description := "Could not match product by GTIN or name." |}.

Definition max_quantity_toast : Toast :=
  {| variant := None; title := "Max quantity reached";
     description := "No more stock available for this item." |}.

(** The remote calls among some events. *)
Definition calls (evs : list Event) : nat :=
  List.length (filter is_remote evs).

(** The events that come after the first failed call. *)
Fixpoint after_failure (evs : list Event) : list Event :=
  match evs with
  | [] => []
  | e :: rest => if failed_call e then rest else after_failure rest
  end.

Definition success_toast : Toast :=
  {| variant := None; title := "Checkout Successful";
     description := "Inventory has been updated." |}.

Definition failure_toast (d : string) : Toast :=
  {| variant := Some "destructive"; title := "Inventory Update Failed";
     description := d |}.



(** * Properties *)

(** ** Remote calls and the log *)

Lemma remote_answered {A} q (answer : Directory -> Response A) change w :
  next_fault w = None ->
  remote q answer change w =
  (answer (dir w),
   {| dir := match answer (dir w) with
             | Ok _ => change (dir w)
             | Failed _ => dir w
             end;
      faults := tl (faults w); popup_blocked := popup_blocked w;
      clock := clock w;
      log := (log w ++ [EvRemote q (error_of (answer (dir w)))])%list |}).
Proof.
  unfold next_fault, remote. destruct (faults w) as [|f fs]; simpl.
  - reflexivity.
  - intros ->. reflexivity.
Qed.

Lemma no_faults_next w : no_faults w -> next_fault w = None.
Proof.
  unfold no_faults, next_fault. destruct (faults w); [reflexivity|].
  intros H. inversion H; assumption.
Qed.

Lemma Forall_tl {A} (P : A -> Prop) l : Forall P l -> Forall P (tl l).
Proof. destruct 1; simpl; [constructor|assumption]. Qed.

Lemma no_faults_tl w d b c l :
  no_faults w ->
  no_faults {| dir := d; faults := tl (faults w); popup_blocked := b;
               clock := c; log := l |}.
Proof.
  unfold no_faults; simpl. destruct (faults w); simpl; [constructor|].
  intros H. inversion H; assumption.
Qed.

Lemma select_batches_answered q w :
  next_fault w = None ->
  select_batches q w =
  (Ok (run_batch_query q (dir w)),
   {| dir := dir w; faults := tl (faults w);
      popup_blocked := popup_blocked w;
      clock := clock w;
      log := (log w ++ [EvRemote (SelectBatches q) None])%list |}).
Proof.
  intros H. unfold select_batches. rewrite remote_answered by assumption.
  reflexivity.
Qed.

Lemma update_batch_answered id n st w :
  next_fault w = None ->
  update_batch id n st w =
  (Ok tt,
   {| dir := apply_update id n st (dir w); faults := tl (faults w);
      popup_blocked := popup_blocked w;
      clock := clock w;
      log := (log w ++ [EvRemote (UpdateBatch id n st) None])%list |}).
Proof.
  intros H. unfold update_batch. rewrite remote_answered by assumption.
  reflexivity.
Qed.

Lemma trace_of_app w w' evs :
  log w' = (log w ++ evs)%list -> trace_of w w' = evs.
Proof.
  intros H. unfold trace_of. rewrite H.
  rewrite skipn_app, skipn_all, Nat.sub_diag. reflexivity.
Qed.

(** ** Runs: what was added to the log, what became of the tables *)

Lemma follows_refl w : follows w w.
Proof.
  unfold follows, trace_of. rewrite skipn_all.
  rewrite app_nil_r. repeat split.
Qed.

Lemma follows_trans w w1 w2 : follows w w1 -> follows w1 w2 -> follows w w2.
Proof.
  intros [Hl1 [Hd1 Hp1]] [Hl2 [Hd2 Hp2]].
  assert (Ht : trace_of w w2 = (trace_of w w1 ++ trace_of w1 w2)%list).
  { apply trace_of_app. rewrite Hl2, Hl1 at 1. now rewrite <- app_assoc. }
  unfold follows. rewrite Ht. repeat split.
  - rewrite Hl2, Hl1 at 1. now rewrite <- app_assoc.
  - unfold replay in *. rewrite fold_left_app, <- Hd1. exact Hd2.
  - congruence.
Qed.

Lemma trace_of_trans w w1 w2 :
  follows w w1 -> follows w1 w2 ->
  trace_of w w2 = (trace_of w w1 ++ trace_of w1 w2)%list.
Proof.
  intros [Hl1 _] [Hl2 _].
  apply trace_of_app. rewrite Hl2, Hl1 at 1. now rewrite <- app_assoc.
Qed.

Lemma follows_one w w' e :
  log w' = (log w ++ [e])%list ->
  dir w' = replay_event (dir w) e ->
  popup_blocked w' = popup_blocked w ->
  follows w w'.
Proof.
  intros Hl Hd Hp. unfold follows.
  rewrite (trace_of_app w w' [e] Hl). repeat split; assumption.
Qed.

Lemma emit_follows e w : is_remote e = false -> follows w (emit e w).
Proof.
  intros He. apply follows_one with (e := e); try reflexivity.
  destruct e; try reflexivity. discriminate.
Qed.

Lemma emit_trace e w : trace_of w (emit e w) = [e].
Proof. now apply trace_of_app. Qed.

Lemma select_batches_follows q w : follows w (snd (select_batches q w)).
Proof.
  unfold select_batches, remote.
  destruct (faults w) as [|[m|] fs]; simpl;
    eapply follows_one; reflexivity.
Qed.

Lemma update_batch_follows id n st w :
  follows w (snd (update_batch id n st w)).
Proof.
  unfold update_batch, remote.
  destruct (faults w) as [|[m|] fs]; simpl;
    eapply follows_one; reflexivity.
Qed.

Lemma remote_failed_call {A} q (answer : Directory -> Response A) change w :
  (forall d, error_of (answer d) = None) ->
  trace_of w (snd (remote q answer change w))
  = [EvRemote q (error_of (fst (remote q answer change w)))].
Proof.
  intros Hok. apply trace_of_app. unfold remote.
  destruct (faults w) as [|[m|] fs]; reflexivity.
Qed.

Lemma select_batches_trace q w :
  trace_of w (snd (select_batches q w))
  = [EvRemote (SelectBatches q) (error_of (fst (select_batches q w)))].
Proof. unfold select_batches. now apply remote_failed_call. Qed.

Lemma remote_trace {A} q (answer : Directory -> Response A) change w :
  trace_of w (snd (remote q answer change w))
  = [EvRemote q (error_of (fst (remote q answer change w)))].
Proof.
  apply trace_of_app. unfold remote.
  destruct (faults w) as [|[m|] fs]; reflexivity.
Qed.


(** ** Cart manager: [changeQty] and [removeItem] *)

Lemma raise_all_log ts w :
  log (fold_left raise ts w) =
  (log w ++
   flat_map (fun t => match t with Some t => [EvToast t] | None => [] end) ts)
  %list.
Proof.
  revert w. induction ts as [|t ts IH]; intros w; simpl.
  - now rewrite app_nil_r.
  - rewrite IH. destruct t; simpl; [|reflexivity].
    now rewrite <- app_assoc.
Qed.

Lemma raise_nothing ts w :
  Forall (fun t => t = None) ts -> fold_left raise ts w = w.
Proof.
  revert w. induction ts as [|t ts IH]; intros w H; simpl; [reflexivity|].
  inversion H; subst. simpl. now apply IH.
Qed.

Lemma changeQty_cart pid n s w :
  cart (fst (changeQty pid n s w)) =
  map (fun item => fst (changeQtyItem pid n item)) (cart s).
Proof. unfold changeQty; simpl. now rewrite map_map. Qed.

Lemma changeQtyItem_other pid n item :
  productId item <> pid -> changeQtyItem pid n item = (item, None).
Proof.
  intros H. unfold changeQtyItem.
  destruct (String.eqb_spec (productId item) pid); [contradiction|reflexivity].
Qed.

Lemma changeQtyItem_accept pid n item :
  productId item = pid -> 0 < n <= availableQty item ->
  changeQtyItem pid n item = (setQty n item, None).
Proof.
  intros H Hn. unfold changeQtyItem. rewrite H, String.eqb_refl.
  destruct (Z.ltb_spec 0 n); [|lia].
  destruct (Z.leb_spec n (availableQty item)); [reflexivity|lia].
Qed.

Lemma changeQtyItem_clamp pid n item :
  productId item = pid -> availableQty item < n ->
  changeQtyItem pid n item =
  (setQty (availableQty item) item,
   Some {| variant := None; title := "Not enough stock";
           description :=
             "Only " ++ show (availableQty item) ++ " items available." |}).
Proof.
  intros H Hn. unfold changeQtyItem. rewrite H, String.eqb_refl.
  destruct (Z.leb_spec n (availableQty item)); [lia|].
  rewrite andb_false_r.
  destruct (Z.ltb_spec (availableQty item) n); [reflexivity|lia].
Qed.

Lemma changeQtyItem_ignore pid n item :
  n <= 0 -> n <= availableQty item ->
  changeQtyItem pid n item = (item, None).
Proof.
  intros H0 Hn. unfold changeQtyItem.
  destruct (String.eqb (productId item) pid); [|reflexivity].
  destruct (Z.ltb_spec 0 n); [lia|]. simpl.
  destruct (Z.ltb_spec (availableQty item) n); [lia|reflexivity].
Qed.

Lemma changeQtyItem_within_cap pid n item :
  within_cap item -> within_cap (fst (changeQtyItem pid n item)).
Proof.
  unfold within_cap, changeQtyItem. intros H.
  destruct (String.eqb (productId item) pid); [|assumption].
  destruct (Z.ltb_spec 0 n), (Z.leb_spec n (availableQty item)); simpl;
    try lia;
    destruct (Z.ltb_spec (availableQty item) n); simpl; lia.
Qed.

Lemma changeQtyItem_cap pid n item :
  availableQty (fst (changeQtyItem pid n item)) = availableQty item.
Proof.
  unfold changeQtyItem.
  destruct (String.eqb (productId item) pid); [|reflexivity].
  destruct ((0 <? n) && (n <=? availableQty item))%Z%bool; [reflexivity|].
  destruct (availableQty item <? n)%Z; reflexivity.
Qed.

Lemma setCart_same s : setCart (cart s) s = s.
Proof. destruct s; reflexivity. Qed.

(** ** Carts the component can hold *)

Lemma order_by_expiry_Forall (P : Batch -> Prop) l :
  Forall P l -> Forall P (order_by_expiry l).
Proof.
  assert (Hins : forall b l, P b -> Forall P l ->
                             Forall P (insert_by_expiry b l)).
  { intros b l0 Hb. induction l0 as [|c l0 IH]; intros Hl; simpl.
    - constructor; [assumption|constructor].
    - inversion Hl; subst.
      destruct (String.leb (expiry_date b) (expiry_date c)).
      + constructor; assumption.
      + constructor; [assumption|]. now apply IH. }
  induction 1; simpl; [constructor|]. now apply Hins.
Qed.

Lemma run_batch_query_matches q d :
  Forall (fun b => matches_query q b = true) (run_batch_query q d).
Proof.
  unfold run_batch_query.
  assert (H : Forall (fun b => matches_query q b = true)
                (filter (matches_query q) (inventory_batches d))).
  { apply Forall_forall. intros b Hb. now apply filter_In in Hb. }
  assert (H' : Forall (fun b => matches_query q b = true)
                 (if q_ordered q
                  then order_by_expiry
                         (filter (matches_query q) (inventory_batches d))
                  else filter (matches_query q) (inventory_batches d))).
  { destruct (q_ordered q); [now apply order_by_expiry_Forall|assumption]. }
  destruct (q_limit q) as [k|]; [|assumption].
  rewrite <- (firstn_skipn k) in H'. apply Forall_app in H'. tauto.
Qed.

Lemma matches_query_positive q b : matches_query q b = true -> 0 < quantity b.
Proof.
  unfold matches_query. intros H.
  repeat (apply andb_prop in H; destruct H as [H ?]).
  now apply Z.ltb_lt.
Qed.

Lemma select_batches_data q w bs :
  data_of (fst (select_batches q w)) = Some bs ->
  Forall (fun b => matches_query q b = true) bs.
Proof.
  unfold select_batches, remote.
  destruct (faults w) as [|[m|] fs]; simpl; try discriminate;
    intros H; injection H as <-; apply run_batch_query_matches.
Qed.

Lemma findBatches_positive props ocrData p w bs :
  fst (findBatches props ocrData p w) = Some bs ->
  Forall (fun b => 0 < quantity b) bs.
Proof.
  unfold findBatches.
  set (q1 := if truthy (expiryDate ocrData) then _ else _).
  destruct (select_batches q1 w) as [r w1] eqn:E1.
  destruct (nothing (data_of r) && truthy (expiryDate ocrData)).
  - destruct (select_batches (inventory_query props p None) w1)
      as [r2 w2] eqn:E2.
    simpl. intros H.
    assert (H2 := select_batches_data (inventory_query props p None) w1 bs).
    rewrite E2 in H2. specialize (H2 H).
    eapply Forall_impl; [|exact H2]. intros b; apply matches_query_positive.
  - simpl. intros H.
    assert (H1 := select_batches_data q1 w bs). rewrite E1 in H1.
    specialize (H1 H).
    eapply Forall_impl; [|exact H1]. intros b; apply matches_query_positive.
Qed.

Lemma sumQuantity_shift l a :
  fold_left (fun sum batch => sum + quantity batch) l a
  = a + sum_quantities l.
Proof.
  revert a. induction l as [|b l IH]; intros a; simpl; [lia|].
  rewrite IH. lia.
Qed.

Lemma sumQuantity_sum l : sumQuantity l = sum_quantities l.
Proof. unfold sumQuantity. now rewrite sumQuantity_shift. Qed.

Lemma sum_quantities_nonneg l :
  Forall (fun b => 0 < quantity b) l -> 0 <= sum_quantities l.
Proof. induction 1; simpl; lia. Qed.

Lemma addToCart_caps ocrData p a u c :
  0 < a ->
  Forall (fun item => 0 < availableQty item) c ->
  Forall (fun item => 0 < availableQty item)
    (fst (addToCart ocrData p a u c)).
Proof.
  intros Ha Hc. unfold addToCart.
  destruct (find _ c) as [existing|].
  - destruct (qty existing <? a)%Z; simpl; [|assumption].
    apply Forall_forall. intros x Hx. apply in_map_iff in Hx.
    destruct Hx as [y [<- Hy]].
    assert (0 < availableQty y)
      by (apply (proj1 (Forall_forall _ _) Hc); assumption).
    destruct (String.eqb (productId y) (prod_id p)); assumption.
  - simpl. apply Forall_app. split; [assumption|].
    constructor; [assumption|constructor].
Qed.

Lemma finalizeCheckout_cart props s w :
  cart (fst (finalizeCheckout props s w)) = cart s.
Proof.
  unfold finalizeCheckout. destruct (cart s) as [|item rest] eqn:E.
  - simpl. assumption.
  - destruct (deductCart props (item :: rest) _) as [[m|] w2]; simpl;
      assumption.
Qed.

(** Every line of a reachable cart carries a positive cap: the cap is a
    sum over a non-empty answer of a query that asks for positive
    quantities. *)
Lemma reachable_caps c :
  Reachable c -> Forall (fun item => 0 < availableQty item) c.
Proof.
  induction 1 as [|ilike props ocrData s w _ IH|pid n s w _ IH
                  |pid s w _ IH|props s w _ IH|open s w _ IH].
  - constructor.
  - unfold resolveScannedProductToCart.
    destruct (matchProduct ilike props ocrData w) as [[p|] w1];
      [|assumption].
    destruct (findBatches props ocrData p w1) as [bs w2] eqn:E.
    destruct bs as [[|b more]|]; try assumption.
    assert (Hpos := findBatches_positive props ocrData p w1 (b :: more)).
    rewrite E in Hpos. specialize (Hpos eq_refl).
    assert (0 < sumQuantity (b :: more)).
    { rewrite sumQuantity_sum. simpl. inversion Hpos; subst.
      assert (0 <= sum_quantities more) by now apply sum_quantities_nonneg.
      lia. }
    destruct (addToCart ocrData p (sumQuantity (b :: more))
                (discountedPrice b) (cart s)) as [c t] eqn:Ec.
    simpl. change c with (fst (c, t)). rewrite <- Ec.
    now apply addToCart_caps.
  - rewrite changeQty_cart. apply Forall_forall. intros x Hx.
    apply in_map_iff in Hx. destruct Hx as [y [<- Hy]].
    rewrite changeQtyItem_cap.
    apply (proj1 (Forall_forall _ _) IH). assumption.
  - simpl. apply Forall_forall. intros x Hx. apply filter_In in Hx.
    apply (proj1 (Forall_forall _ _) IH). tauto.
  - now rewrite finalizeCheckout_cart.
  - destruct open; simpl; [assumption|constructor].
Qed.

Lemma changeQty_trace pid n s w :
  trace_of w (snd (changeQty pid n s w)) =
  flat_map (fun t => match t with Some t => [EvToast t] | None => [] end)
    (map snd (map (changeQtyItem pid n) (cart s))).
Proof. apply trace_of_app. unfold changeQty; simpl. apply raise_all_log. Qed.

(** C7, as the code has it.  [changeQty] on the line of product [pid]: a
    request [n] with [0 < n <= availableQty] becomes the line's quantity;
    a request above [availableQty] is clamped to [availableQty] and raises
    the "Not enough stock" toast; any other request leaves the line as it
    was.  So a positive request leaves the line it names within its cap,
    and both [changeQty] and [removeItem] keep a cart whose lines are all
    within their caps that way; a line that is above its cap is not
    brought back under it by a request that is not positive. *)
Theorem changeQty_respects_cap pid n s w :
  (forall i item,
      nth_error (cart s) i = Some item -> productId item = pid ->
      exists item',
        nth_error (cart (fst (changeQty pid n s w))) i = Some item' /\
        availableQty item' = availableQty item /\
        (0 < n <= availableQty item -> item' = setQty n item) /\
        (availableQty item < n ->
         item' = setQty (availableQty item) item /\
         In (EvToast
               {| variant := None; title := "Not enough stock";
                  description :=
                    "Only " ++ show (availableQty item)
                    ++ " items available." |})
            (trace_of w (snd (changeQty pid n s w)))) /\
        (n <= 0 -> n <= availableQty item -> item' = item) /\
        (0 < n -> within_cap item')) /\
  (Forall within_cap (cart s) ->
   Forall within_cap (cart (fst (changeQty pid n s w)))) /\
  (Forall within_cap (cart s) ->
   Forall within_cap (cart (fst (removeItem pid s w)))).
Proof.
  split; [|split].
  - intros i item Hi Hp.
    exists (fst (changeQtyItem pid n item)).
    split; [|split; [|split; [|split; [|split]]]].
    + rewrite changeQty_cart, nth_error_map, Hi. reflexivity.
    + apply changeQtyItem_cap.
    + intros Hn. now rewrite changeQtyItem_accept.
    + intros Hn. rewrite changeQtyItem_clamp by assumption.
      split; [reflexivity|].
      rewrite changeQty_trace. apply in_flat_map.
      eexists. split.
      * apply in_map, in_map. eapply nth_error_In; eassumption.
      * rewrite changeQtyItem_clamp by assumption. simpl. now left.
    + intros H0 Hn. now rewrite changeQtyItem_ignore.
    + intros Hn. unfold within_cap.
      destruct (Z.le_gt_cases n (availableQty item)).
      * rewrite changeQtyItem_accept by (auto; lia). simpl; lia.
      * rewrite changeQtyItem_clamp by (auto; lia). simpl; lia.
  - intros H. rewrite changeQty_cart. apply Forall_forall. intros x Hx.
    apply in_map_iff in Hx. destruct Hx as [y [<- Hy]].
    apply changeQtyItem_within_cap.
    apply (proj1 (Forall_forall _ _) H). assumption.
  - intros H. simpl. apply Forall_forall. intros x Hx.
    apply filter_In in Hx.
    apply (proj1 (Forall_forall _ _) H). tauto.
Qed.

(** Asking for 9 of a line capped at 4 leaves 4 and warns; the cart stays
    within its caps. *)
Lemma changeQty_respects_cap_witness :
  (exists item',
      nth_error
        (cart (fst (changeQty "p-b" 9 (session_of two_lines)
                      (world_of demo_dir [] false)))) 1 = Some item' /\
      qty item' = 4 /\
      In (EvToast
            {| variant := None; title := "Not enough stock";
               description := "Only 4 items available." |})
         (trace_of (world_of demo_dir [] false)
            (snd (changeQty "p-b" 9 (session_of two_lines)
                    (world_of demo_dir [] false))))) /\
  Forall within_cap
    (cart (fst (changeQty "p-b" 9 (session_of two_lines)
                  (world_of demo_dir [] false)))).
Proof.
  destruct (changeQty_respects_cap "p-b" 9 (session_of two_lines)
              (world_of demo_dir [] false)) as [Hline [Hkeep _]].
  split.
  - destruct (Hline 1%nat (line "p-b" "Nandini MILK 1l" 1 56 4)
                eq_refl eq_refl)
      as [item' [Hnth [_ [_ [Hclamp _]]]]].
    exists item'. split; [exact Hnth|].
    destruct Hclamp as [-> Hin]; [simpl; lia|].
    split; [reflexivity|exact Hin].
  - apply Hkeep. unfold within_cap.
    repeat constructor; simpl; lia.
Defined.

(** The resolver's merge is not held to the snapshot: a line added from a
    scan that named an expiry date keeps that batch's quantity as its cap,
    and a later scan of the same product without a date compares the
    line against the whole stock.  Three scans of the bread leave a line
    of three capped at two, and neither a request for zero of it nor a
    request for another product brings it back under its cap. *)
Lemma changeQty_leaves_line_above_cap :
  let w := world_of demo_dir [] false in
  Reachable (cart overfull_session)
  /\ map (fun item => (productId item, qty item, availableQty item))
       (cart overfull_session) = [("p-d", 3, 2)]
  /\ changeQty "p-d" 0 overfull_session w = (overfull_session, w)
  /\ changeQty "p-a" 1 overfull_session w = (overfull_session, w)
  /\ ~ Forall within_cap (cart (fst (changeQty "p-d" 0 overfull_session w)))
  /\ ~ Forall within_cap (cart (fst (changeQty "p-a" 1 overfull_session w))).
Proof.
  intros w. split; [|split; [|split; [|split; [|split]]]].
  - unfold overfull_session, scans. cbn [fold_left].
    apply reach_scan, reach_scan, reach_scan. exact reach_empty.
  - vm_compute. reflexivity.
  - vm_compute. reflexivity.
  - vm_compute. reflexivity.
  - intros H. vm_compute in H. inversion H as [|x l Hx Hl]; subst.
    apply Hx. reflexivity.
  - intros H. vm_compute in H. inversion H as [|x l Hx Hl]; subst.
    apply Hx. reflexivity.
Qed.

(** C10.  On a cart the session can hold, a request [n <= 0] changes
    nothing at all: the session and the world (so also the log: no toast)
    are what they were.  And whatever the request, a line of another
    product stays where and what it was, and the cart keeps its length. *)
Theorem changeQty_nonpositive_is_noop pid n s w :
  (Reachable (cart s) -> n <= 0 -> changeQty pid n s w = (s, w)) /\
  (forall i item,
      nth_error (cart s) i = Some item -> productId item <> pid ->
      nth_error (cart (fst (changeQty pid n s w))) i = Some item) /\
  List.length (cart (fst (changeQty pid n s w))) = List.length (cart s).
Proof.
  split; [|split].
  - intros Hr Hn. apply reachable_caps in Hr.
    assert (Hall : map (changeQtyItem pid n) (cart s)
                   = map (fun item => (item, None)) (cart s)).
    { apply map_ext_in. intros item Hin.
      assert (0 < availableQty item)
        by (apply (proj1 (Forall_forall _ _) Hr); assumption).
      apply changeQtyItem_ignore; lia. }
    unfold changeQty. rewrite Hall, !map_map. simpl.
    rewrite map_id, setCart_same. f_equal.
    apply raise_nothing. apply Forall_forall. intros t Ht.
    apply in_map_iff in Ht. now destruct Ht as [x [<- _]].
  - intros i item Hi Hp.
    rewrite changeQty_cart, nth_error_map, Hi. simpl.
    now rewrite changeQtyItem_other.
  - rewrite changeQty_cart. apply length_map.
Qed.

(** Asking for -3 of the scanned line changes nothing. *)
Lemma changeQty_nonpositive_is_noop_witness :
  cart scanned_session = [ {| productId := "p-b"; gtin := None;
                              name := "Nandini MILK 1l"; qty := 1;
                              unitPrice := discountedPrice
                                (stock "b-b1" "p-b" 4 56 None "2024-03-15");
                              availableQty := 4 |} ] /\
  changeQty "p-b" (-3) scanned_session (world_of demo_dir [] false)
  = (scanned_session, world_of demo_dir [] false).
Proof.
  split; [reflexivity|].
  apply (changeQty_nonpositive_is_noop "p-b" (-3) scanned_session
           (world_of demo_dir [] false)).
  - exact (reach_scan like demo_props scan_nandini (session_of [])
             (world_of demo_dir [] false) reach_empty).
  - lia.
Defined.

(** ** Resolver: which product *)

Lemma remote_read_frame {A} q (answer : Directory -> Response A) w :
  dir (snd (remote q answer (fun d => d) w)) = dir w
  /\ popup_blocked (snd (remote q answer (fun d => d) w)) = popup_blocked w
  /\ (no_faults w -> no_faults (snd (remote q answer (fun d => d) w))).
Proof.
  unfold remote, no_faults.
  destruct (faults w) as [|[m|] fs]; simpl;
    repeat split; try (now destruct (answer (dir w)));
    intros H; try assumption; now inversion H.
Qed.

Lemma product_by_gtin_answered g w :
  next_fault w = None ->
  product_by_gtin g w =
  (answer_maybe_single g (dir w),
   {| dir := dir w; faults := tl (faults w);
      popup_blocked := popup_blocked w;
      clock := clock w;
      log := (log w ++
              [EvRemote (ProductByGtin g)
                 (error_of (answer_maybe_single g (dir w)))])%list |}).
Proof.
  intros H. unfold product_by_gtin. rewrite remote_answered by assumption.
  now destruct (answer_maybe_single g (dir w)).
Qed.

Lemma products_by_name_answered ilike pattern n w :
  next_fault w = None ->
  products_by_name ilike pattern n w =
  (Ok (firstn n (filter (fun p => ilike pattern (prod_name p))
                   (products (dir w)))),
   {| dir := dir w; faults := tl (faults w);
      popup_blocked := popup_blocked w;
      clock := clock w;
      log := (log w ++ [EvRemote (ProductsByName pattern n) None])%list |}).
Proof.
  intros H. unfold products_by_name. now rewrite remote_answered.
Qed.








(** ** Resolver: which batches, which line *)

Lemma select_batches_frame q w :
  dir (snd (select_batches q w)) = dir w
  /\ popup_blocked (snd (select_batches q w)) = popup_blocked w
  /\ (no_faults w -> no_faults (snd (select_batches q w))).
Proof. apply remote_read_frame. Qed.

Lemma probeCandidates_frame props e candidates w :
  dir (snd (probeCandidates props e candidates w)) = dir w
  /\ (no_faults w -> no_faults (snd (probeCandidates props e candidates w))).
Proof.
  revert w. induction candidates as [|p rest IH]; intros w; simpl;
    [split; auto|].
  destruct (select_batches_frame (probe_query props p e) w) as [Hd [_ Hf]].
  destruct (select_batches (probe_query props p e) w) as [r w1].
  simpl in Hd, Hf.
  destruct (nothing (data_of r)).
  - destruct (IH w1) as [Hd' Hf']. rewrite Hd', Hd. split; auto.
  - simpl. split; auto.
Qed.

(** Selecting the product only reads the directory. *)
Lemma matchProduct_frame ilike props ocrData w :
  dir (snd (matchProduct ilike props ocrData w)) = dir w
  /\ (no_faults w -> no_faults (snd (matchProduct ilike props ocrData w))).
Proof.
  unfold matchProduct.
  assert (H1 :
    forall x : option Product * World,
      x = (if truthy (ocr_gtin ocrData)
           then let '(r, w1) :=
                  product_by_gtin (field (ocr_gtin ocrData)) w in
                (match data_of r with Some (Some p) => Some p | _ => None end,
                 w1)
           else (None, w)) ->
      dir (snd x) = dir w /\ (no_faults w -> no_faults (snd x))).
  { intros x ->. destruct (truthy (ocr_gtin ocrData)); [|split; auto].
    unfold product_by_gtin.
    destruct (remote_read_frame
                (ProductByGtin (field (ocr_gtin ocrData)))
                (answer_maybe_single (field (ocr_gtin ocrData))) w)
      as [Hd [_ Hf]].
    destruct (remote _ _ _ w) as [r w1]. simpl in *. split; auto. }
  specialize (H1 _ eq_refl).
  destruct (if truthy (ocr_gtin ocrData) then _ else _) as [[p|] w1];
    simpl in H1; [exact H1|].
  destruct H1 as [Hd1 Hf1].
  destruct (truthy (productName ocrData)); [|simpl; split; auto].
  unfold products_by_name.
  match goal with
  | |- context [remote ?q ?a (fun d => d) w1] =>
      destruct (remote_read_frame q a w1) as [Hd2 [_ Hf2]];
      destruct (remote q a (fun d => d) w1) as [r w2]
  end.
  simpl in Hd2, Hf2.
  destruct (data_of r) as [[|first more]|]; cbn [fst snd];
    try (split; [congruence|auto]).
  destruct (truthy (expiryDate ocrData)).
  - destruct (probeCandidates_frame props (field (expiryDate ocrData))
                (first :: more) w2) as [Hd3 Hf3].
    destruct (probeCandidates props _ (first :: more) w2) as [byExpiry w3].
    cbn [fst snd] in *. split; [congruence|auto].
  - cbn [fst snd]. split; [congruence|auto].
Qed.

Lemma run_inventory_query_all props p d :
  run_batch_query (inventory_query props p None) d = on_hand props p d.
Proof.
  unfold run_batch_query, on_hand. simpl. apply filter_ext.
  intros b. unfold matches_query, in_stock. simpl. apply andb_true_r.
Qed.

Lemma run_inventory_query_exact props p e d :
  run_batch_query (inventory_query props p (Some e)) d
  = on_hand_expiring props p e d.
Proof. reflexivity. Qed.

Lemma on_hand_expiring_filter props p e d :
  on_hand_expiring props p e d
  = filter (fun b => String.eqb (expiry_date b) e) (on_hand props p d).
Proof.
  unfold on_hand_expiring, on_hand.
  induction (inventory_batches d) as [|b l IH]; simpl; [reflexivity|].
  destruct (in_stock (shopId props) (prod_id p) b); simpl; rewrite IH;
    reflexivity.
Qed.

Lemma qualifying_empty props ocrData p d :
  qualifying props ocrData p d = [] <-> on_hand props p d = [].
Proof.
  unfold qualifying. destruct (truthy (expiryDate ocrData)); [|tauto].
  destruct (on_hand_expiring props p _ d) as [|b l] eqn:E; [tauto|].
  split; [discriminate|]. intros H.
  rewrite on_hand_expiring_filter, H in E. discriminate.
Qed.

(** With its calls answered, step 3 delivers the qualifying batches and
    issues the batch queries in the order [stock_queries] lists them. *)
Lemma findBatches_no_faults props ocrData p w :
  no_faults w ->
  exists w',
    findBatches props ocrData p w = (Some (qualifying props ocrData p (dir w)), w')
    /\ dir w' = dir w
    /\ no_faults w'
    /\ popup_blocked w' = popup_blocked w
    /\ log w' = (log w ++ stock_queries props ocrData p (dir w))%list.
Proof.
  intros Hw. unfold findBatches, qualifying, stock_queries.
  destruct (truthy (expiryDate ocrData)) eqn:He.
  - rewrite select_batches_answered by now apply no_faults_next.
    cbn [data_of]. rewrite run_inventory_query_exact, andb_true_r.
    destruct (on_hand_expiring props p (field (expiryDate ocrData)) (dir w))
      as [|b l] eqn:E; cbn [nothing].
    + rewrite select_batches_answered
        by (apply no_faults_next; now apply no_faults_tl).
      cbn [error_of data_of dir]. rewrite run_inventory_query_all.
      eexists. split; [reflexivity|]. simpl.
      rewrite <- app_assoc. repeat split.
      unfold no_faults in *. simpl. now apply Forall_tl, Forall_tl.
    + eexists. split; [reflexivity|]. simpl. repeat split.
      now apply no_faults_tl.
  - rewrite select_batches_answered by now apply no_faults_next.
    cbn [data_of]. rewrite run_inventory_query_all, andb_false_r.
    eexists. split; [reflexivity|]. simpl. repeat split.
    now apply no_faults_tl.
Qed.

Lemma stock_queries_remote props ocrData p d :
  filter is_remote (stock_queries props ocrData p d)
  = stock_queries props ocrData p d.
Proof.
  unfold stock_queries. destruct (truthy (expiryDate ocrData)); simpl;
    [|reflexivity].
  destruct (on_hand_expiring props p _ d); reflexivity.
Qed.

(** The whole of a resolution once the product is known, calls answered. *)
Lemma resolve_after_match ilike props ocrData s w p :
  no_faults w ->
  fst (matchProduct ilike props ocrData w) = Some p ->
  exists w2,
    dir w2 = dir w
    /\ log w2 =
       (log (snd (matchProduct ilike props ocrData w))
        ++ stock_queries props ocrData p (dir w))%list
    /\ resolveScannedProductToCart ilike props ocrData s w =
       match qualifying props ocrData p (dir w) with
       | [] => (s, emit (EvToast out_of_stock_toast) w2)
       | firstBatch :: more =>
           (setCart
              (fst (addToCart ocrData p (sum_quantities (firstBatch :: more))
                      (discountedPrice firstBatch) (cart s))) s,
            raise w2
              (snd (addToCart ocrData p (sum_quantities (firstBatch :: more))
                      (discountedPrice firstBatch) (cart s))))
       end.
Proof.
  intros Hw Hp. unfold resolveScannedProductToCart.
  destruct (matchProduct_frame ilike props ocrData w) as [Hd Hf].
  destruct (matchProduct ilike props ocrData w) as [productData w1].
  simpl in Hp, Hd, Hf. subst productData.
  destruct (findBatches_no_faults props ocrData p w1 (Hf Hw))
    as [w2 [E [Hd2 [Hf2 [Hb2 Hl2]]]]].
  rewrite E. rewrite Hd in *. exists w2.
  split; [assumption|]. split; [assumption|].
  destruct (qualifying props ocrData p (dir w)) as [|b more];
    [reflexivity|].
  rewrite sumQuantity_sum.
  destruct (addToCart ocrData p (sum_quantities (b :: more))
              (discountedPrice b) (cart s)) as [c [t|]]; reflexivity.
Qed.

Lemma raise_follows w t : follows w (raise w t).
Proof.
  destruct t; simpl; [now apply emit_follows|apply follows_refl].
Qed.

Lemma raise_trace w t :
  trace_of w (raise w t)
  = match t with Some t => [EvToast t] | None => [] end.
Proof.
  destruct t; simpl.
  - now apply trace_of_app.
  - unfold trace_of. now rewrite skipn_all.
Qed.

(** Step 3 in any world: what it returns and what it asks, in terms of the
    answers its queries get. *)
Lemma findBatches_any props ocrData p w :
  let undated := inventory_query props p None in
  let first :=
    if truthy (expiryDate ocrData)
    then inventory_query props p (Some (field (expiryDate ocrData)))
    else undated in
  let r1 := select_batches first w in
  let r2 := select_batches undated (snd r1) in
  let retried := nothing (data_of (fst r1)) && truthy (expiryDate ocrData) in
  fst (findBatches props ocrData p w)
  = (if retried then data_of (fst r2) else data_of (fst r1))
  /\ follows w (snd (findBatches props ocrData p w))
  /\ filter is_remote (trace_of w (snd (findBatches props ocrData p w)))
     = EvRemote (SelectBatches first) (error_of (fst r1))
       :: (if retried
           then [EvRemote (SelectBatches undated) (error_of (fst r2))]
           else [])
  /\ filter is_toast (trace_of w (snd (findBatches props ocrData p w))) = [].
Proof.
  intros undated first r1 r2 retried.
  unfold findBatches. fold undated. fold first.
  pose proof (select_batches_follows first w) as F1.
  pose proof (select_batches_trace first w) as T1.
  unfold retried, r2, r1.
  destruct (select_batches first w) as [x w1]. cbn [fst snd] in *.
  destruct (nothing (data_of x) && truthy (expiryDate ocrData)).
  - pose proof (select_batches_follows undated w1) as F2.
    pose proof (select_batches_trace undated w1) as T2.
    destruct (select_batches undated w1) as [y w2]. cbn [fst snd] in *.
    split; [reflexivity|].
    destruct (error_of y) as [m|].
    + assert (F3 : follows w2
                     (emit (EvConsoleError "Inventory fallback fetch error:")
                        w2)) by now apply emit_follows.
      assert (F : follows w1
                    (emit (EvConsoleError "Inventory fallback fetch error:")
                       w2)) by (eapply follows_trans; eassumption).
      split; [eapply follows_trans; eassumption|].
      rewrite (trace_of_trans w w1 _ F1 F), (trace_of_trans w1 w2 _ F2 F3).
      rewrite T1, T2, emit_trace. split; reflexivity.
    + split; [eapply follows_trans; eassumption|].
      rewrite (trace_of_trans w w1 _ F1 F2), T1, T2. split; reflexivity.
  - cbn [fst snd]. split; [reflexivity|]. split; [assumption|].
    rewrite T1. split; reflexivity.
Qed.

Lemma resolve_after_match_any ilike props ocrData s w p :
  fst (matchProduct ilike props ocrData w) = Some p ->
  resolveScannedProductToCart ilike props ocrData s w =
  let found :=
    findBatches props ocrData p (snd (matchProduct ilike props ocrData w)) in
  match fst found with
  | Some (firstBatch :: more) =>
      (setCart
         (fst (addToCart ocrData p (sumQuantity (firstBatch :: more))
                 (discountedPrice firstBatch) (cart s))) s,
       raise (snd found)
         (snd (addToCart ocrData p (sumQuantity (firstBatch :: more))
                 (discountedPrice firstBatch) (cart s))))
  | _ => (s, emit (EvToast out_of_stock_toast) (snd found))
  end.
Proof.
  intros Hp. unfold resolveScannedProductToCart.
  destruct (matchProduct ilike props ocrData w) as [productData w1].
  simpl in Hp. subst productData. cbn [snd].
  destruct (findBatches props ocrData p w1) as [[[|b more]|] w2];
    cbn [fst snd]; try reflexivity.
  destruct (addToCart ocrData p (sumQuantity (b :: more))
              (discountedPrice b) (cart s)) as [c [t|]]; reflexivity.
Qed.

Lemma addToCart_toast ocrData p a u c t :
  snd (addToCart ocrData p a u c) = Some t ->
  title t = "Max quantity reached".
Proof.
  unfold addToCart. destruct (find _ c) as [existing|]; [|discriminate].
  destruct (qty existing <? a)%Z; [discriminate|].
  now intros [= <-].
Qed.

(** C6.  Once the product is selected, the batches are asked for with the
    scanned expiry date when the scan has one and without a date when it
    has none; when the dated query comes back with nothing (no row, or no
    answer) the same query is issued again without the date; the batches
    used are the answer of the last query issued.  The scan ends in the
    "Out of Stock" toast exactly when that answer holds nothing, and then
    the session is as it was.  With every call answered this is exactly
    when the product has no active stock at the shop. *)
Theorem out_of_stock_only_after_fallback ilike props ocrData s w p :
  fst (matchProduct ilike props ocrData w) = Some p ->
  let w1 := snd (matchProduct ilike props ocrData w) in
  let result := resolveScannedProductToCart ilike props ocrData s w in
  let undated := inventory_query props p None in
  let first :=
    if truthy (expiryDate ocrData)
    then inventory_query props p (Some (field (expiryDate ocrData)))
    else undated in
  let r1 := select_batches first w1 in
  let r2 := select_batches undated (snd r1) in
  let retried := nothing (data_of (fst r1)) && truthy (expiryDate ocrData) in
  let batches := if retried then data_of (fst r2) else data_of (fst r1) in
  filter is_remote (trace_of w1 (snd result))
  = EvRemote (SelectBatches first) (error_of (fst r1))
    :: (if retried
        then [EvRemote (SelectBatches undated) (error_of (fst r2))]
        else [])
  /\ fst (findBatches props ocrData p w1) = batches
  /\ (nothing batches = true ->
      fst result = s
      /\ filter is_toast (trace_of w1 (snd result))
         = [EvToast out_of_stock_toast])
  /\ (nothing batches = false ->
      ~ In (EvToast out_of_stock_toast) (trace_of w1 (snd result)))
  /\ (no_faults w ->
      batches = Some (qualifying props ocrData p (dir w))
      /\ filter is_remote (trace_of w1 (snd result))
         = stock_queries props ocrData p (dir w)
      /\ (nothing batches = true <-> on_hand props p (dir w) = [])).
Proof.
  intros Hp w1 result undated first r1 r2 retried batches.
  destruct (findBatches_any props ocrData p w1) as [Hfst [Hfol [Hrem Htoast]]].
  fold undated in Hfst, Hrem. fold first in Hfst, Hrem.
  fold r1 in Hfst, Hrem. fold r2 in Hfst, Hrem.
  fold retried in Hfst, Hrem. fold batches in Hfst.
  pose proof (resolve_after_match_any ilike props ocrData s w p Hp) as E.
  fold w1 in E. fold result in E. cbv zeta in E. rewrite Hfst in E.
  set (w2 := snd (findBatches props ocrData p w1)) in *.
  assert (Hremote : filter is_remote (trace_of w1 (snd result))
                    = filter is_remote (trace_of w1 w2)).
  { rewrite E. destruct batches as [[|b more]|]; cbn [snd].
    - rewrite (trace_of_trans w1 w2) by
        (try assumption; now apply emit_follows).
      rewrite filter_app.
      rewrite emit_trace. simpl. now rewrite app_nil_r.
    - rewrite (trace_of_trans w1 w2) by
        (try assumption; apply raise_follows).
      rewrite filter_app, raise_trace.
      destruct (snd (addToCart _ _ _ _ _)); simpl; now rewrite app_nil_r.
    - rewrite (trace_of_trans w1 w2) by
        (try assumption; now apply emit_follows).
      rewrite filter_app.
      rewrite emit_trace. simpl. now rewrite app_nil_r. }
  assert (Hnone : nothing batches = true ->
                  result = (s, emit (EvToast out_of_stock_toast) w2)).
  { intros Hn. rewrite E. destruct batches as [[|b more]|];
      try reflexivity. discriminate. }
  split; [now rewrite Hremote|]. split; [exact Hfst|].
  split; [|split].
  - intros Hn. rewrite (Hnone Hn). cbn [fst snd]. split; [reflexivity|].
    rewrite (trace_of_trans w1 w2) by
      (try assumption; now apply emit_follows).
    rewrite filter_app, Htoast, emit_trace. reflexivity.
  - intros Hn Hin. rewrite E in Hin.
    destruct batches as [[|b more]|]; try discriminate. cbn [snd] in Hin.
    rewrite (trace_of_trans w1 w2) in Hin by
      (try assumption; apply raise_follows).
    apply in_app_or in Hin. destruct Hin as [Hin|Hin].
    + assert (Hin' : In (EvToast out_of_stock_toast)
                       (filter is_toast (trace_of w1 w2)))
        by (apply filter_In; split; [assumption|reflexivity]).
      rewrite Htoast in Hin'. contradiction.
    + rewrite raise_trace in Hin.
      destruct (snd (addToCart _ _ _ _ _)) as [t|] eqn:Et; [|contradiction].
      apply addToCart_toast in Et.
      destruct Hin as [Hin|[]]. injection Hin as Hin. subst t.
      discriminate Et.
  - intros Hw.
    destruct (matchProduct_frame ilike props ocrData w) as [Hd Hf].
    fold w1 in Hd, Hf.
    destruct (findBatches_no_faults props ocrData p w1 (Hf Hw))
      as [w' [E' [_ [_ [_ Hlog]]]]].
    assert (Hb : batches = Some (qualifying props ocrData p (dir w))).
    { rewrite <- Hfst, E', Hd. reflexivity. }
    split; [exact Hb|]. split.
    + rewrite Hremote. unfold w2. rewrite E'. cbn [snd].
      rewrite (trace_of_app w1 w' _ Hlog), Hd.
      apply stock_queries_remote.
    + rewrite Hb. rewrite <- (qualifying_empty props ocrData p (dir w)).
      destruct (qualifying props ocrData p (dir w)); simpl;
        split; congruence.
Qed.

(** The bread's code with a misread date: the dated query comes back
    empty, the undated one is issued and finds both batches, no "Out of
    Stock".  In a shop without stock both queries come back empty: "Out of
    Stock", session untouched.  With the directory unreachable the two
    queries fail: "Out of Stock" again, session untouched. *)
Lemma out_of_stock_only_after_fallback_witness :
  (filter is_remote
     (trace_of
        (snd (matchProduct like demo_props scan_bread_stale
                (world_of demo_dir [] false)))
        (snd (resolveScannedProductToCart like demo_props scan_bread_stale
                (session_of []) (world_of demo_dir [] false))))
   = [ EvRemote (SelectBatches
                   (inventory_query demo_props bread (Some "2030-01-01")))
         None;
       EvRemote (SelectBatches (inventory_query demo_props bread None)) None ]
   /\ fst (findBatches demo_props scan_bread_stale bread
             (snd (matchProduct like demo_props scan_bread_stale
                     (world_of demo_dir [] false))))
      = Some [ stock "b-d1" "p-d" 2 99 (Some 15%float) "2024-01-10";
               stock "b-d2" "p-d" 6 50 None "2024-01-20" ])
  /\ fst (resolveScannedProductToCart like other_shop scan_bread_stale
            (session_of two_lines) (world_of demo_dir [] false))
     = session_of two_lines
  /\ fst (resolveScannedProductToCart like demo_props scan_bread_stale
            (session_of two_lines)
            (world_of demo_dir [None; Some "offline"; Some "offline"] false))
     = session_of two_lines.
Proof.
  split; [|split].
  - destruct (out_of_stock_only_after_fallback like demo_props
                scan_bread_stale (session_of [])
                (world_of demo_dir [] false) bread eq_refl)
      as [Hq [Hb _]].
    split; [exact Hq|exact Hb].
  - destruct (out_of_stock_only_after_fallback like other_shop
                scan_bread_stale (session_of two_lines)
                (world_of demo_dir [] false) bread eq_refl)
      as [_ [_ [Hnone _]]].
    apply Hnone. reflexivity.
  - destruct (out_of_stock_only_after_fallback like demo_props
                scan_bread_stale (session_of two_lines)
                (world_of demo_dir [None; Some "offline"; Some "offline"]
                   false) bread eq_refl)
      as [_ [_ [Hnone _]]].
    apply Hnone. reflexivity.
Defined.





(** ** Checkout: the order of the batches *)

Lemma insert_by_expiry_perm b l : Permutation (insert_by_expiry b l) (b :: l).
Proof.
  induction l as [|c l IH]; simpl; [reflexivity|].
  destruct (String.leb (expiry_date b) (expiry_date c)); [reflexivity|].
  rewrite IH. apply perm_swap.
Qed.

Lemma order_by_expiry_perm l : Permutation (order_by_expiry l) l.
Proof.
  induction l as [|b l IH]; simpl; [reflexivity|].
  rewrite insert_by_expiry_perm. now constructor.
Qed.

Lemma insert_by_expiry_hd a b l :
  expiry_le a b -> HdRel expiry_le a l ->
  HdRel expiry_le a (insert_by_expiry b l).
Proof.
  intros Hab Hl. destruct l as [|c l]; simpl; [now constructor|].
  destruct (String.leb (expiry_date b) (expiry_date c)).
  - now constructor.
  - inversion Hl; subst. now constructor.
Qed.

Lemma insert_by_expiry_sorted b l :
  Sorted expiry_le l -> Sorted expiry_le (insert_by_expiry b l).
Proof.
  induction 1 as [|c l Hs IH Hhd]; simpl.
  - repeat constructor.
  - destruct (String.leb (expiry_date b) (expiry_date c)) eqn:E.
    + constructor; [now constructor|]. now constructor.
    + constructor; [assumption|].
      apply insert_by_expiry_hd; [|assumption].
      unfold expiry_le.
      destruct (String.leb_total (expiry_date b) (expiry_date c));
        congruence.
Qed.

Lemma order_by_expiry_sorted l : Sorted expiry_le (order_by_expiry l).
Proof.
  induction l as [|b l IH]; simpl; [constructor|].
  now apply insert_by_expiry_sorted.
Qed.

Lemma run_fefo_query props item d :
  run_batch_query (fefo_query props item) d
  = order_by_expiry
      (filter (in_stock (shopId props) (productId item))
         (inventory_batches d)).
Proof.
  unfold run_batch_query. simpl. f_equal. apply filter_ext.
  intros b. unfold matches_query, in_stock. simpl. apply andb_true_r.
Qed.

Lemma in_stock_facts shop pid b :
  in_stock shop pid b = true -> 0 < quantity b /\ status b = "active".
Proof.
  unfold in_stock. intros H.
  repeat (apply andb_prop in H; destruct H as [H ?]).
  split; [now apply Z.ltb_lt|now apply String.eqb_eq].
Qed.

(** ** Checkout: rows and their keys *)

Lemma set_batch_id id n st b : batch_id (set_batch id n st b) = batch_id b.
Proof. unfold set_batch. now destruct (String.eqb (batch_id b) id). Qed.

Lemma apply_update_ids id n st d :
  map batch_id (inventory_batches (apply_update id n st d))
  = map batch_id (inventory_batches d).
Proof.
  simpl. rewrite map_map. apply map_ext. intros b. apply set_batch_id.
Qed.

Lemma lookup_update_other id id' n st d :
  id' <> id ->
  lookup_batch id' (apply_update id n st d) = lookup_batch id' d.
Proof.
  intros Hne. unfold lookup_batch. simpl.
  induction (inventory_batches d) as [|b l IH]; simpl; [reflexivity|].
  rewrite set_batch_id.
  destruct (String.eqb_spec (batch_id b) id') as [E|E]; [|exact IH].
  unfold set_batch.
  destruct (String.eqb_spec (batch_id b) id); [congruence|reflexivity].
Qed.

Lemma lookup_update_same id n st d b :
  lookup_batch id d = Some b ->
  lookup_batch id (apply_update id n st d) = Some (set_batch id n st b).
Proof.
  unfold lookup_batch. simpl.
  induction (inventory_batches d) as [|c l IH]; simpl; [discriminate|].
  rewrite set_batch_id.
  destruct (String.eqb (batch_id c) id); [|exact IH].
  now intros [= ->].
Qed.

Lemma set_batch_settle b n :
  set_batch (batch_id b) n (if (n =? 0)%Z then "sold_out" else "active") b
  = settle b n.
Proof. unfold set_batch, settle. now rewrite String.eqb_refl. Qed.

Lemma settle_untouched b :
  0 < quantity b -> status b = "active" -> settle b (quantity b) = b.
Proof.
  intros Hq Hs. unfold settle.
  destruct (Z.eqb_spec (quantity b) 0); [lia|].
  destruct b; simpl in *. now subst.
Qed.

Lemma lookup_in_keyed d b :
  well_keyed d -> In b (inventory_batches d) ->
  lookup_batch (batch_id b) d = Some b.
Proof.
  unfold well_keyed, lookup_batch.
  induction (inventory_batches d) as [|c l IH]; simpl; [tauto|].
  intros Hnd [->|Hin].
  - now rewrite String.eqb_refl.
  - inversion Hnd as [|? ? Hnot Hnd']; subst.
    destruct (String.eqb_spec (batch_id c) (batch_id b)) as [E|E].
    + exfalso. apply Hnot. rewrite E. now apply in_map.
    + now apply IH.
Qed.

Lemma NoDup_map_filter {A B} (f : A -> B) (g : A -> bool) l :
  NoDup (map f l) -> NoDup (map f (filter g l)).
Proof.
  induction l as [|x l IH]; simpl; [auto|].
  intros H. inversion H as [|? ? Hnot Hnd]; subst.
  destruct (g x); simpl; [|now apply IH].
  constructor; [|now apply IH].
  intros Hin. apply Hnot. apply in_map_iff in Hin.
  destruct Hin as [y [<- Hy]]. apply in_map. now apply filter_In in Hy.
Qed.

(** ** Checkout: the loop over the batches of one line *)

Lemma with_before_in l : forall B b x, In (b, x) (with_before B l) -> In b l.
Proof.
  induction l as [|c l IH]; simpl; [tauto|].
  intros B b x [[= -> ->]|H]; [now left|right]. eapply IH; eassumption.
Qed.

Lemma with_before_ge l :
  Forall (fun b => 0 < quantity b) l ->
  forall B b x, In (b, x) (with_before B l) -> B <= x.
Proof.
  induction 1 as [|c l Hc Hl IH]; simpl; [tauto|].
  intros B b x [[= _ <-]|H]; [lia|].
  apply IH in H. lia.
Qed.

Lemma sum_shares_total q l :
  Forall (fun b => 0 < quantity b) l ->
  forall B, sum_shares q (with_before B l)
            = Z.min (Z.max (q - B) 0) (sum_quantities l).
Proof.
  induction 1 as [|c l Hc Hl IH]; intros B; simpl; [lia|].
  rewrite IH. unfold share.
  assert (0 <= sum_quantities l) by now apply sum_quantities_nonneg.
  lia.
Qed.

(** With its updates answered, the loop over the batches of a line is the
    closed form: the batch that has [before] units ahead of it gives up
    [share q before], and is written to exactly when [before < q].  [B] is
    the stock already passed and [Z.max (q - B) 0] what is still to
    deduct. *)
Lemma deductBatches_no_faults item q batches :
  forall B w,
    no_faults w ->
    Forall (fun b => 0 < quantity b) batches ->
    (forall b, In b batches -> status b = "active") ->
    NoDup (map batch_id batches) ->
    (forall b, In b batches -> lookup_batch (batch_id b) (dir w) = Some b) ->
    exists w',
      deductBatches item batches (Z.max (q - B) 0) w = (None, w')
      /\ no_faults w'
      /\ popup_blocked w' = popup_blocked w
      /\ products (dir w') = products (dir w)
      /\ map batch_id (inventory_batches (dir w'))
         = map batch_id (inventory_batches (dir w))
      /\ log w' =
         (log w ++
          map (update_event q)
            (filter (fun x => (snd x <? q)%Z) (with_before B batches)))%list
      /\ (forall b before,
             In (b, before) (with_before B batches) ->
             lookup_batch (batch_id b) (dir w')
             = Some (settle b (quantity b - share q before b)))
      /\ (forall id,
             ~ In id (map batch_id batches) ->
             lookup_batch id (dir w') = lookup_batch id (dir w)).
Proof.
  induction batches as [|b rest IH]; intros B w Hw Hpos Hact Hnd Hrows.
  - exists w. simpl. rewrite app_nil_r. repeat split; tauto.
  - cbn [deductBatches].
    assert (Hb : 0 < quantity b) by now inversion Hpos.
    destruct (Z.eqb_spec (Z.max (q - B) 0) 0) as [Hdone|Hmore].
    + (* nothing left to deduct: [break] *)
      exists w.
      assert (Hall : forall c x,
                 In (c, x) (with_before B (b :: rest)) -> q <= x).
      { intros c x Hin. apply (with_before_ge _ Hpos) in Hin. lia. }
      assert (Hnone : filter (fun x => (snd x <? q)%Z)
                        (with_before B (b :: rest)) = []).
      { destruct (filter _ _) as [|[c x] l] eqn:E; [reflexivity|].
        assert (Hin : In (c, x) (filter (fun x => (snd x <? q)%Z)
                                   (with_before B (b :: rest))))
          by (rewrite E; now left).
        apply filter_In in Hin. destruct Hin as [Hin Hlt].
        apply Hall in Hin. simpl in Hlt. apply Z.ltb_lt in Hlt. lia. }
      rewrite Hnone. simpl map. rewrite app_nil_r.
      repeat split; try tauto.
      intros c x Hin.
      assert (q <= x) by (eapply Hall; eassumption).
      apply with_before_in in Hin.
      assert (0 < quantity c)
        by (apply (proj1 (Forall_forall _ _) Hpos); assumption).
      unfold share.
      replace (quantity c - Z.min (Z.max (q - x) 0) (quantity c))
        with (quantity c) by lia.
      rewrite settle_untouched by auto. now apply Hrows.
    + (* one update, then the rest of the loop *)
      set (deduction := Z.min (Z.max (q - B) 0) (quantity b)).
      rewrite update_batch_answered by now apply no_faults_next.
      cbn [error_of].
      replace (Z.max (q - B) 0 - deduction)
        with (Z.max (q - (B + quantity b)) 0) by (unfold deduction; lia).
      inversion Hnd as [|? ? Hfresh Hnd']; subst.
      inversion Hpos as [|? ? _ Hpos']; subst.
      match goal with
      | |- context [deductBatches item rest _ ?w1] =>
          destruct (IH (B + quantity b) w1) as
            [w' [E [Hf [Hp [Hpr [Hids [Hlog [Hfound Hothers]]]]]]]]
      end.
      * now apply no_faults_tl.
      * assumption.
      * intros c Hc. apply Hact. now right.
      * assumption.
      * intros c Hc. cbn [dir].
        rewrite lookup_update_other.
        -- apply Hrows. now right.
        -- intros Heq. apply Hfresh. rewrite <- Heq. now apply in_map.
      * cbn [dir popup_blocked log] in *.
        exists w'. rewrite E.
        split; [reflexivity|]. split; [assumption|].
        split; [assumption|]. split; [rewrite Hpr; reflexivity|].
        split; [rewrite Hids; apply apply_update_ids|].
        split; [|split].
        -- rewrite Hlog. cbn [with_before filter snd].
           destruct (Z.ltb_spec B q); [|lia].
           cbn [map]. rewrite <- app_assoc. reflexivity.
        -- intros c x [[= -> ->]|Hin].
           ++ rewrite Hothers by assumption.
              erewrite lookup_update_same by (apply Hrows; now left).
              now rewrite set_batch_settle.
           ++ now apply Hfound.
        -- intros id Hid. rewrite Hothers.
           ++ apply lookup_update_other. intros ->. apply Hid. now left.
           ++ intros Hin. apply Hid. now right.
Qed.

(** One turn of the loop over the cart, calls answered. *)
Lemma deductItem_no_faults props item w :
  no_faults w -> well_keyed (dir w) -> 0 <= qty item ->
  exists w',
    deductItem props item w = (None, w')
    /\ no_faults w'
    /\ popup_blocked w' = popup_blocked w
    /\ products (dir w') = products (dir w)
    /\ map batch_id (inventory_batches (dir w'))
       = map batch_id (inventory_batches (dir w))
    /\ log w' =
       (log w ++
        EvRemote (SelectBatches (fefo_query props item)) None
        :: map (update_event (qty item))
             (filter (fun x => (snd x <? qty item)%Z)
                (with_before 0
                   (run_batch_query (fefo_query props item) (dir w)))))%list
    /\ (forall b before,
           In (b, before)
             (with_before 0
                (run_batch_query (fefo_query props item) (dir w))) ->
           lookup_batch (batch_id b) (dir w')
           = Some (settle b (quantity b - share (qty item) before b)))
    /\ (forall id,
           ~ In id (map batch_id
                      (run_batch_query (fefo_query props item) (dir w))) ->
           lookup_batch id (dir w') = lookup_batch id (dir w)).
Proof.
  intros Hw Hkeys Hq. unfold deductItem.
  rewrite select_batches_answered by now apply no_faults_next.
  set (batches := run_batch_query (fefo_query props item) (dir w)).
  assert (Hperm : Permutation batches
                    (filter (in_stock (shopId props) (productId item))
                       (inventory_batches (dir w)))).
  { unfold batches. rewrite run_fefo_query. apply order_by_expiry_perm. }
  assert (Hin : forall b, In b batches ->
                          In b (inventory_batches (dir w))
                          /\ 0 < quantity b /\ status b = "active").
  { intros b Hb. apply (Permutation_in _ Hperm) in Hb.
    apply filter_In in Hb. destruct Hb as [Hb Hs].
    split; [assumption|]. eapply in_stock_facts; eassumption. }
  match goal with
  | |- context [deductBatches item batches _ ?w1] =>
      destruct (deductBatches_no_faults item (qty item) batches 0 w1)
        as [w' [E [Hf [Hp [Hpr [Hids [Hlog [Hfound Hothers]]]]]]]]
  end.
  - now apply no_faults_tl.
  - apply Forall_forall. intros b Hb. now apply Hin.
  - intros b Hb. now apply Hin.
  - apply (Permutation_NoDup (l := map batch_id
                                     (filter (in_stock (shopId props)
                                                (productId item))
                                        (inventory_batches (dir w))))).
    + apply Permutation_map. now symmetry.
    + now apply NoDup_map_filter.
  - intros b Hb. cbn [dir]. apply lookup_in_keyed; [assumption|].
    now apply Hin.
  - replace (Z.max (qty item - 0) 0) with (qty item) in E by lia.
    exists w'. rewrite E. cbn [dir popup_blocked log] in *.
    repeat split; try assumption.
    rewrite Hlog, <- app_assoc. reflexivity.
Qed.

(** One cart line at checkout, calls answered: the batches fetched are
    the product's active batches at the shop with a quantity above zero,
    in ascending order of expiry date; the batch that has [before] units
    ahead of it in that order gives up
    [min (max (qty - before) 0) quantity], its new quantity is written
    back with status [sold_out] exactly when that quantity is zero, and a
    write is issued exactly for the batches with [before < qty], in
    order; every other row is as it was; no error is raised; in all,
    [min qty (total on hand)] units are deducted. *)
Lemma line_deduction props item w :
  no_faults w -> well_keyed (dir w) -> 0 <= qty item ->
  let batches := run_batch_query (fefo_query props item) (dir w) in
  let w' := snd (deductItem props item w) in
  Permutation batches
    (filter (in_stock (shopId props) (productId item))
       (inventory_batches (dir w)))
  /\ Sorted expiry_le batches
  /\ fst (deductItem props item w) = None
  /\ trace_of w w'
     = EvRemote (SelectBatches (fefo_query props item)) None
       :: map (update_event (qty item))
            (filter (fun x => (snd x <? qty item)%Z) (with_before 0 batches))
  /\ (forall b before,
         In (b, before) (with_before 0 batches) ->
         lookup_batch (batch_id b) (dir w')
         = Some (settle b (quantity b - share (qty item) before b)))
  /\ (forall id,
         ~ In id (map batch_id batches) ->
         lookup_batch id (dir w') = lookup_batch id (dir w))
  /\ sum_shares (qty item) (with_before 0 batches)
     = Z.min (qty item) (sum_quantities batches).
Proof.
  intros Hw Hkeys Hq batches w'.
  destruct (deductItem_no_faults props item w Hw Hkeys Hq)
    as [w1 [E [_ [_ [_ [_ [Hlog [Hfound Hothers]]]]]]]].
  unfold w'. rewrite E. cbn [fst snd].
  assert (Hsorted : batches
                    = order_by_expiry
                        (filter (in_stock (shopId props) (productId item))
                           (inventory_batches (dir w))))
    by apply run_fefo_query.
  split; [rewrite Hsorted; apply order_by_expiry_perm|].
  split; [rewrite Hsorted; apply order_by_expiry_sorted|].
  split; [reflexivity|].
  split; [now apply trace_of_app|].
  split; [exact Hfound|]. split; [exact Hothers|].
  rewrite sum_shares_total.
  - lia.
  - eapply Forall_impl; [|apply run_batch_query_matches].
    intros b. apply matches_query_positive.
Qed.

(** The same sale through the whole handler: receipt, fetch, two writes,
    success. *)
Example checkout_of_fifteen :
  map (fun b => (batch_id b, quantity b, status b))
    (inventory_batches
       (dir (snd (finalizeCheckout demo_props (session_of [fifteen_of_A])
                    (world_of demo_dir [] false)))))
  = [ ("b-a2", 5, "active"); ("b-a1", 0, "sold_out"); ("b-b1", 4, "active");
      ("b-c1", 3, "active"); ("b-d1", 2, "active"); ("b-d2", 6, "active") ].
Proof. reflexivity. Qed.

Example subtotal_of_two_lines :
  subtotal [ line "p-a" "A" 2 50 5; line "p-b" "B" 1 30 5 ] = 130%float.
Proof. reflexivity. Qed.

(** Amounts are rounded for show only: three lines of one unit at 9.99
    less 33 percent show 6.69 each and a subtotal of 20.08. *)
Example receipt_of_three_discounted_lines :
  let price :=
    discountedPrice
      (stock "b-e1" "p-e" 3 0x1.3fae147ae147bp+3 (Some 33%float)
         "2024-01-01") in
  receiptOf other_shop "1/15/2024, 10:30:00 AM"
    [ line "p-e" "Curd" 1 price 3; line "p-f" "Ghee" 1 price 3;
      line "p-g" "Paneer" 1 price 3 ]
  = {| receipt_shop := "Your Shop";
       receipt_date := "1/15/2024, 10:30:00 AM";
       receipt_lines :=
         [ ("Curd", 1, Text "6.69", Text "6.69");
           ("Ghee", 1, Text "6.69", Text "6.69");
           ("Paneer", 1, Text "6.69", Text "6.69") ];
       receipt_subtotal := Text "20.08" |}.
Proof. vm_compute. reflexivity. Qed.

(** ** Checkout: the log and the tables of a whole run *)

Lemma deductBatches_follows item batches :
  forall q w, follows w (snd (deductBatches item batches q w)).
Proof.
  induction batches as [|b rest IH]; intros q w; simpl;
    [apply follows_refl|].
  destruct (q =? 0)%Z; [apply follows_refl|].
  match goal with
  | |- context [update_batch ?id ?n ?st w] =>
      pose proof (update_batch_follows id n st w) as Hu;
      destruct (update_batch id n st w) as [r w1]
  end.
  simpl in Hu. destruct (error_of r); simpl.
  - eapply follows_trans; [exact Hu|]. now apply emit_follows.
  - eapply follows_trans; [exact Hu|]. apply IH.
Qed.

Lemma deductItem_follows props item w :
  follows w (snd (deductItem props item w)).
Proof.
  unfold deductItem.
  pose proof (select_batches_follows (fefo_query props item) w) as Hs.
  destruct (select_batches (fefo_query props item) w) as [[batches|m] w1];
    simpl in *; [|exact Hs].
  eapply follows_trans; [exact Hs|]. apply deductBatches_follows.
Qed.

Lemma deductCart_follows props c :
  forall w, follows w (snd (deductCart props c w)).
Proof.
  induction c as [|item rest IH]; intros w; simpl; [apply follows_refl|].
  pose proof (deductItem_follows props item w) as Hi.
  destruct (deductItem props item w) as [[m|] w1]; simpl in *;
    [exact Hi|].
  eapply follows_trans; [exact Hi|]. apply IH.
Qed.

Lemma generateReceiptHtml_follows props s w :
  follows w (generateReceiptHtml props s w).
Proof.
  unfold generateReceiptHtml. destruct (popup_blocked w).
  - now apply emit_follows.
  - eapply follows_trans; now apply emit_follows.
Qed.

(** Whatever happens during checkout, the tables end up as the answered
    updates of the run leave them: nothing is undone. *)
Lemma finalizeCheckout_follows props s w :
  follows w (snd (finalizeCheckout props s w)).
Proof.
  unfold finalizeCheckout. destruct (cart s) as [|item rest].
  - now apply emit_follows.
  - pose proof (generateReceiptHtml_follows props s w) as Hr.
    pose proof (deductCart_follows props (item :: rest)
                  (generateReceiptHtml props s w)) as Hd.
    destruct (deductCart props (item :: rest) _) as [[m|] w2];
      cbn [snd] in *.
    + eapply follows_trans; [exact Hr|].
      eapply follows_trans; [exact Hd|].
      eapply follows_trans; now apply emit_follows.
    + eapply follows_trans; [exact Hr|].
      eapply follows_trans; [exact Hd|].
      eapply follows_trans; now apply emit_follows.
Qed.

Lemma deductBatches_message item batches :
  forall q w m w',
    deductBatches item batches q w = (Some m, w') ->
    m = "Failed to update inventory for " ++ name item
        ++ ". Please check manually.".
Proof.
  induction batches as [|b rest IH]; intros q w m w'; simpl;
    [discriminate|].
  destruct (q =? 0)%Z; [discriminate|].
  destruct (update_batch _ _ _ w) as [r w1].
  destruct (error_of r).
  - now intros [= <- _].
  - apply IH.
Qed.

(** The error thrown while a line is processed carries the line's name. *)
Lemma deductItem_message props item w m w' :
  deductItem props item w = (Some m, w') ->
  (exists e, m = "Failed to fetch batches for " ++ name item ++ ": " ++ e)
  \/ m = "Failed to update inventory for " ++ name item
         ++ ". Please check manually.".
Proof.
  unfold deductItem.
  destruct (select_batches (fefo_query props item) w) as [[batches|e] w1].
  - intros H. right. eapply deductBatches_message; eassumption.
  - intros [= <- _]. left. now exists e.
Qed.

(** Processing the batches of a line throws exactly when one of its
    updates came back with an error. *)
Lemma deductBatches_thrown item batches :
  forall q w,
    existsb failed_call (trace_of w (snd (deductBatches item batches q w)))
    = thrown (deductBatches item batches q w).
Proof.
  induction batches as [|b rest IH]; intros q w.
  - simpl. unfold trace_of. now rewrite skipn_all.
  - cbn [deductBatches].
    destruct (q =? 0)%Z.
    { simpl. unfold trace_of. now rewrite skipn_all. }
    match goal with
    | |- context [update_batch ?id ?n ?st w] =>
        pose proof (update_batch_follows id n st w) as Hu;
        pose proof (remote_failed_call (UpdateBatch id n st)
                      (fun _ => Ok tt) (apply_update id n st) w
                      (fun _ => eq_refl)) as Ht;
        fold (update_batch id n st w) in Ht;
        destruct (update_batch id n st w) as [r w1]
    end.
    cbn [fst snd] in *. destruct (error_of r) as [m|] eqn:Er.
    + cbn [snd]. rewrite (trace_of_trans w w1) by
        (try assumption; now apply emit_follows).
      rewrite existsb_app, Ht. reflexivity.
    + rewrite (trace_of_trans w w1) by
        (try assumption; apply deductBatches_follows).
      rewrite existsb_app, Ht, IH. reflexivity.
Qed.

(** A line throws exactly when its fetch or one of its updates came back
    with an error. *)
Lemma deductItem_thrown props item w :
  existsb failed_call (trace_of w (snd (deductItem props item w)))
  = thrown (deductItem props item w).
Proof.
  unfold deductItem.
  pose proof (select_batches_follows (fefo_query props item) w) as Hs.
  pose proof (remote_failed_call (SelectBatches (fefo_query props item))
                (fun d => Ok (run_batch_query (fefo_query props item) d))
                (fun d => d) w (fun _ => eq_refl)) as Ht.
  fold (select_batches (fefo_query props item) w) in Ht.
  destruct (select_batches (fefo_query props item) w) as [[batches|m] w1];
    cbn [fst snd error_of] in *.
  - rewrite (trace_of_trans w w1) by
      (try assumption; apply deductBatches_follows).
    rewrite existsb_app, Ht. apply deductBatches_thrown.
  - rewrite Ht. reflexivity.
Qed.

Lemma deductCart_stops props pre item post :
  forall w w1 w2 m,
    deductCart props pre w = (None, w1) ->
    deductItem props item w1 = (Some m, w2) ->
    deductCart props (pre ++ item :: post) w = (Some m, w2).
Proof.
  induction pre as [|x pre IH]; intros w w1 w2 m; simpl.
  - intros [= <-] ->. reflexivity.
  - destruct (deductItem props x w) as [[e|] wx]; [discriminate|].
    apply IH.
Qed.

(** C2.  The lines before [item] went through and [item] throws, which
    it does exactly when its fetch or one of its updates came back with an
    error: checkout ends there.  The world is the
    world at the failure plus the error report, so no call is issued for
    the lines after [item]; the tables are those at the failure, that is,
    the initial tables with every answered update of the run applied;
    the toast carries the thrown message, which names [item]; the session
    keeps its cart and stays open. *)
Theorem partial_failure_keeps_deductions
  props s w pre item post w1 w2 message :
  cart s = (pre ++ item :: post)%list ->
  deductCart props pre (generateReceiptHtml props s w) = (None, w1) ->
  deductItem props item w1 = (Some message, w2) ->
  let result := finalizeCheckout props s w in
  snd result
  = toast (Some "destructive") "Inventory Update Failed" message
      (emit (EvConsoleError "Checkout failed:") w2)
  /\ dir (snd result) = dir w2
  /\ dir (snd result) = replay (trace_of w (snd result)) (dir w)
  /\ ((exists e,
          message = "Failed to fetch batches for " ++ name item ++ ": " ++ e)
      \/ message = "Failed to update inventory for " ++ name item
                   ++ ". Please check manually.")
  /\ existsb failed_call (trace_of w1 w2) = true
  /\ cart (fst result) = cart s
  /\ isOpen (fst result) = isOpen s.
Proof.
  intros Hcart Hpre Hitem result.
  assert (Hcall : existsb failed_call (trace_of w1 w2) = true).
  { pose proof (deductItem_thrown props item w1) as H.
    rewrite Hitem in H. exact H. }
  assert (Hmsg := deductItem_message props item w1 message w2 Hitem).
  assert (Hne : or_else message
                  "The receipt was printed, but inventory could not be updated."
                = message).
  { destruct Hmsg as [[e ->]| ->]; reflexivity. }
  assert (Hrun : result =
                 (setIsCheckingOut false s,
                  toast (Some "destructive") "Inventory Update Failed" message
                    (emit (EvConsoleError "Checkout failed:") w2))).
  { unfold result, finalizeCheckout.
    destruct (cart s) as [|x c] eqn:Ec.
    - destruct pre; discriminate.
    - rewrite Hcart,
        (deductCart_stops props pre item post _ w1 w2 message Hpre Hitem).
      now rewrite Hne. }
  split; [now rewrite Hrun|].
  split; [now rewrite Hrun|].
  split; [apply finalizeCheckout_follows|].
  split; [exact Hmsg|]. split; [exact Hcall|].
  rewrite Hrun. split; reflexivity.
Qed.

(** Three lines, the first update of the second line fails: the first
    line's two units stay deducted from the batch of product A that
    expires first, nothing is taken from the bread or from product B, the
    message names the bread, the cart is still there. *)
Lemma partial_failure_keeps_deductions_witness :
  let result := finalizeCheckout demo_props (session_of three_lines)
                  (world_of demo_dir fourth_call_fails false) in
  option_map quantity (lookup_batch "b-a1" (dir (snd result))) = Some 8
  /\ option_map quantity (lookup_batch "b-d1" (dir (snd result))) = Some 2
  /\ option_map quantity (lookup_batch "b-b1" (dir (snd result))) = Some 4
  /\ In (EvToast
           {| variant := Some "destructive";
              title := "Inventory Update Failed";
              description :=
                "Failed to update inventory for Brown Bread. Please check manually." |})
        (log (snd result))
  /\ cart (fst result) = three_lines
  /\ isOpen (fst result) = true.
Proof.
  intros result.
  pose (w0 := generateReceiptHtml demo_props (session_of three_lines)
                (world_of demo_dir fourth_call_fails false)).
  pose (w1 := snd (deductCart demo_props
                     [line "p-a" "Amul Milk 500ml" 2 27 20] w0)).
  pose (w2 := snd (deductItem demo_props
                     (line "p-d" "Brown Bread" 3 36 8) w1)).
  destruct (partial_failure_keeps_deductions demo_props
              (session_of three_lines)
              (world_of demo_dir fourth_call_fails false)
              [line "p-a" "Amul Milk 500ml" 2 27 20]
              (line "p-d" "Brown Bread" 3 36 8)
              [line "p-b" "Nandini MILK 1l" 1 56 4]
              w1 w2
              "Failed to update inventory for Brown Bread. Please check manually.")
    as [Hworld [Hdir [_ [_ [_ [Hcart Hopen]]]]]].
  - reflexivity.
  - reflexivity.
  - reflexivity.
  - fold result in Hworld, Hdir, Hcart, Hopen.
    rewrite Hdir. split; [reflexivity|]. split; [reflexivity|].
    split; [reflexivity|]. split; [|split; assumption].
    rewrite Hworld. unfold toast, emit. cbn [log].
    apply in_or_app. right. now left.
Defined.

(** ** Checkout: failures *)

Lemma trace_of_refl w : trace_of w w = [].
Proof. unfold trace_of. apply skipn_all. Qed.

Lemma update_batch_trace id n st w :
  trace_of w (snd (update_batch id n st w))
  = [EvRemote (UpdateBatch id n st)
       (error_of (fst (update_batch id n st w)))].
Proof. unfold update_batch. apply remote_trace. Qed.

(** The trace of the loop over the batches: updates, and the console line
    after a failed one. *)
Lemma deductBatches_quiet item batches :
  forall q w,
    filter is_toast (trace_of w (snd (deductBatches item batches q w))) = [].
Proof.
  induction batches as [|b rest IH]; intros q w.
  - simpl. now rewrite trace_of_refl.
  - cbn [deductBatches]. destruct (q =? 0)%Z.
    { simpl. now rewrite trace_of_refl. }
    match goal with
    | |- context [update_batch ?id ?n ?st w] =>
        pose proof (update_batch_follows id n st w) as Hu;
        pose proof (update_batch_trace id n st w) as Ht;
        destruct (update_batch id n st w) as [r w1]
    end.
    cbn [fst snd] in *. destruct (error_of r) as [m|].
    + cbn [snd]. rewrite (trace_of_trans w w1) by
        (try assumption; now apply emit_follows).
      rewrite filter_app, Ht, emit_trace. reflexivity.
    + rewrite (trace_of_trans w w1) by
        (try assumption; apply deductBatches_follows).
      rewrite filter_app, Ht, IH. reflexivity.
Qed.

Lemma deductItem_quiet props item w :
  filter is_toast (trace_of w (snd (deductItem props item w))) = [].
Proof.
  unfold deductItem.
  pose proof (select_batches_follows (fefo_query props item) w) as Hs.
  pose proof (select_batches_trace (fefo_query props item) w) as Ht.
  destruct (select_batches (fefo_query props item) w) as [[batches|m] w1];
    cbn [fst snd] in *.
  - rewrite (trace_of_trans w w1) by
      (try assumption; apply deductBatches_follows).
    rewrite filter_app, Ht, deductBatches_quiet. reflexivity.
  - rewrite Ht. reflexivity.
Qed.

Lemma deductCart_quiet props c :
  forall w, filter is_toast (trace_of w (snd (deductCart props c w))) = [].
Proof.
  induction c as [|item rest IH]; intros w; simpl.
  - now rewrite trace_of_refl.
  - pose proof (deductItem_follows props item w) as F.
    pose proof (deductItem_quiet props item w) as Q.
    destruct (deductItem props item w) as [[m|] w1]; cbn [fst snd] in *;
      [exact Q|].
    rewrite (trace_of_trans w w1) by
      (try assumption; apply deductCart_follows).
    rewrite filter_app, Q, IH. reflexivity.
Qed.

(** The loop over the cart throws exactly when one of its calls came back
    with an error. *)
Lemma deductCart_thrown props c :
  forall w,
    existsb failed_call (trace_of w (snd (deductCart props c w)))
    = thrown (deductCart props c w).
Proof.
  induction c as [|item rest IH]; intros w; simpl.
  - now rewrite trace_of_refl.
  - pose proof (deductItem_follows props item w) as F.
    pose proof (deductItem_thrown props item w) as T.
    destruct (deductItem props item w) as [[m|] w1]; cbn [fst snd] in *;
      [exact T|].
    rewrite (trace_of_trans w w1) by
      (try assumption; apply deductCart_follows).
    rewrite existsb_app, T, IH. reflexivity.
Qed.

Lemma generateReceiptHtml_trace props s w :
  trace_of w (generateReceiptHtml props s w)
  = EvWindowOpen
    :: (if popup_blocked w then []
        else [EvReceiptWritten (receiptOf props (clock w) (cart s))]).
Proof.
  apply trace_of_app. unfold generateReceiptHtml.
  destruct (popup_blocked w); simpl; [reflexivity|].
  now rewrite <- app_assoc.
Qed.

(** The trace of a checkout: the receipt, the deduction, the report. *)
Lemma finalizeCheckout_trace props s w :
  cart s <> [] ->
  let w0 := generateReceiptHtml props s w in
  let run := deductCart props (cart s) w0 in
  trace_of w (snd (finalizeCheckout props s w))
  = (trace_of w w0 ++ trace_of w0 (snd run)
     ++ match fst run with
        | None => [EvToast success_toast; EvInventoryUpdated]
        | Some message =>
            [EvConsoleError "Checkout failed:";
             EvToast
               (failure_toast
                  (or_else message
                     "The receipt was printed, but inventory could not be updated."))]
        end)%list
  /\ fst (finalizeCheckout props s w)
     = match fst run with
       | None => setIsCheckingOut false (setIsOpen false s)
       | Some _ => setIsCheckingOut false s
       end.
Proof.
  intros Hne w0 run.
  pose proof (generateReceiptHtml_follows props s w) as [L0 _].
  pose proof (deductCart_follows props (cart s) w0) as [L1 _].
  fold w0 in L0. fold run in L1.
  unfold finalizeCheckout. fold w0.
  destruct (cart s) as [|item rest] eqn:Ec; [contradiction|].
  fold run. destruct run as [[message|] w2]; cbn [fst snd] in *.
  - split; [|reflexivity]. apply trace_of_app.
    unfold toast, emit. cbn [log]. rewrite L1, L0.
    now rewrite <- !app_assoc.
  - split; [|reflexivity]. apply trace_of_app.
    unfold toast, emit. cbn [log]. rewrite L1, L0.
    now rewrite <- !app_assoc.
Qed.


(** ** Checkout: every line of the cart, first expired first out *)

Lemma replay_app evs1 evs2 d :
  replay (evs1 ++ evs2) d = replay evs2 (replay evs1 d).
Proof. unfold replay. apply fold_left_app. Qed.

Lemma replay_ids evs :
  forall d,
    map batch_id (inventory_batches (replay evs d))
    = map batch_id (inventory_batches d).
Proof.
  induction evs as [|e evs IH]; intros d; [reflexivity|].
  change (replay (e :: evs) d) with (replay evs (replay_event d e)).
  rewrite IH.
  destruct e as [| | | |[| | |id n st] [m|]|]; try reflexivity.
  apply apply_update_ids.
Qed.

Lemma served_app props c1 :
  forall c2 d,
    served props (c1 ++ c2) d = served props c2 (served props c1 d).
Proof.
  induction c1 as [|item c1 IH]; intros c2 d; simpl; [reflexivity|].
  apply IH.
Qed.

Lemma served_replay props c :
  forall d, served props c d = replay (cart_calls props c d) d.
Proof.
  induction c as [|item c IH]; intros d; cbn [served cart_calls];
    [reflexivity|].
  now rewrite replay_app, IH.
Qed.

Lemma cart_calls_app props c1 :
  forall c2 d,
    cart_calls props (c1 ++ c2) d
    = (cart_calls props c1 d
       ++ cart_calls props c2 (served props c1 d))%list.
Proof.
  induction c1 as [|item c1 IH]; intros c2 d; cbn [app served cart_calls];
    [reflexivity|].
  now rewrite IH, app_assoc.
Qed.

Lemma served_keyed props c d :
  well_keyed d -> well_keyed (served props c d).
Proof.
  unfold well_keyed. now rewrite served_replay, replay_ids.
Qed.

Lemma updates_remote q l :
  filter is_remote (map (update_event q) l) = map (update_event q) l.
Proof.
  induction l as [|x l IH]; simpl; [reflexivity|]. now rewrite IH.
Qed.

Lemma line_calls_remote props item d :
  filter is_remote (line_calls props item d) = line_calls props item d.
Proof.
  unfold line_calls. cbn [filter is_remote]. f_equal. apply updates_remote.
Qed.

Lemma cart_calls_remote props c :
  forall d, filter is_remote (cart_calls props c d) = cart_calls props c d.
Proof.
  induction c as [|item c IH]; intros d; cbn [cart_calls];
    [reflexivity|].
  rewrite filter_app, IH.
  now rewrite (line_calls_remote props item d).
Qed.

(** One turn of the loop, calls answered: its calls and what they leave. *)
Lemma deductItem_line props item w :
  no_faults w -> well_keyed (dir w) -> 0 <= qty item ->
  fst (deductItem props item w) = None
  /\ no_faults (snd (deductItem props item w))
  /\ trace_of w (snd (deductItem props item w))
     = line_calls props item (dir w)
  /\ dir (snd (deductItem props item w))
     = replay (line_calls props item (dir w)) (dir w).
Proof.
  intros Hw Hkeys Hq.
  destruct (deductItem_follows props item w) as [_ [Hd _]].
  destruct (deductItem_no_faults props item w Hw Hkeys Hq)
    as [w' [E [Hf [_ [_ [_ [Hlog _]]]]]]].
  rewrite E in *. cbn [fst snd] in *.
  assert (Ht : trace_of w w' = line_calls props item (dir w))
    by now apply trace_of_app.
  rewrite Ht in Hd. now repeat split.
Qed.

(** The loop over the cart, calls answered. *)
Lemma deductCart_calls props c :
  Forall (fun item => 0 <= qty item) c ->
  forall w,
    no_faults w -> well_keyed (dir w) ->
    fst (deductCart props c w) = None
    /\ trace_of w (snd (deductCart props c w)) = cart_calls props c (dir w)
    /\ dir (snd (deductCart props c w)) = served props c (dir w).
Proof.
  induction 1 as [|item rest Hq Hrest IH]; intros w Hw Hkeys.
  - simpl. repeat split. apply trace_of_refl.
  - destruct (deductItem_line props item w Hw Hkeys Hq)
      as [Hnone [Hf [Ht Hd]]].
    pose proof (deductItem_follows props item w) as Hfol.
    pose proof (deductCart_follows props rest
                  (snd (deductItem props item w))) as Hfol'.
    cbn [deductCart served cart_calls].
    destruct (deductItem props item w) as [[m|] w1];
      cbn [fst snd] in *; [discriminate|].
    assert (Hk1 : well_keyed (dir w1)).
    { unfold well_keyed in *. now rewrite Hd, replay_ids. }
    destruct (IH w1 Hf Hk1) as [Hnone' [Ht' Hd']].
    split; [exact Hnone'|]. split.
    + rewrite (trace_of_trans w w1 _ Hfol Hfol'), Ht, Ht', Hd.
      reflexivity.
    + now rewrite Hd', Hd.
Qed.

(** C1.  Checkout with every call answered, on tables with unique batch
    ids and a cart that asks for no negative quantity.  The remote calls of
    the checkout are, line after line in cart order, the fetch of the
    line's batches and the writes for that line, and the tables end up as
    these lines leave them one after the other.  For every line of the
    cart, on the tables [d] the lines before it have left: the batches
    fetched are the product's active batches at the shop with a quantity
    above zero, in ascending order of expiry date; the batch that has
    [before] units ahead of it in that order gives up
    [min (max (qty - before) 0) quantity], and is left with the reduced
    quantity and status [sold_out] exactly when that quantity is zero
    (between the calls of the lines before it and those of the lines
    after it, the checkout issues the fetch and then writes for the
    batches with [before < qty], in order, and for no other); every other
    row is left as it was; in all [min qty (total on hand)] units are
    deducted for the line. *)
Theorem fefo_deduction props s w :
  no_faults w -> well_keyed (dir w) ->
  Forall (fun item => 0 <= qty item) (cart s) ->
  let w' := snd (finalizeCheckout props s w) in
  filter is_remote (trace_of w w') = cart_calls props (cart s) (dir w)
  /\ dir w' = served props (cart s) (dir w)
  /\ forall done item rest,
       cart s = (done ++ item :: rest)%list ->
       let d := served props done (dir w) in
       let d' := served props (done ++ [item]) (dir w) in
       let batches := run_batch_query (fefo_query props item) d in
       Permutation batches
         (filter (in_stock (shopId props) (productId item))
            (inventory_batches d))
       /\ Sorted expiry_le batches
       /\ filter is_remote (trace_of w w')
          = (cart_calls props done (dir w)
             ++ EvRemote (SelectBatches (fefo_query props item)) None
             :: map (update_event (qty item))
                  (filter (fun x => (snd x <? qty item)%Z)
                     (with_before 0 batches))
             ++ cart_calls props rest d')%list
       /\ (forall b before,
              In (b, before) (with_before 0 batches) ->
              lookup_batch (batch_id b) d'
              = Some (settle b (quantity b - share (qty item) before b)))
       /\ (forall id,
              ~ In id (map batch_id batches) ->
              lookup_batch id d' = lookup_batch id d)
       /\ sum_shares (qty item) (with_before 0 batches)
          = Z.min (qty item) (sum_quantities batches).
Proof.
  intros Hw Hkeys Hq w'.
  assert (Hcalls : filter is_remote (trace_of w w')
                   = cart_calls props (cart s) (dir w)).
  2: split; [exact Hcalls|split].
  - unfold w'. destruct (cart s) as [|item0 rest0] eqn:Ec.
    + unfold finalizeCheckout. rewrite Ec. unfold toast.
      cbn [snd]. now rewrite emit_trace.
    + assert (Hne : cart s <> []) by (rewrite Ec; discriminate).
      destruct (finalizeCheckout_trace props s w Hne) as [Ht _].
      cbv zeta in Ht. rewrite Ht, generateReceiptHtml_trace.
      destruct (deductCart_calls props (cart s)
                  (ltac:(rewrite Ec; exact Hq))
                  (generateReceiptHtml props s w)) as [Hnone [Hc _]].
      * unfold generateReceiptHtml. now destruct (popup_blocked w).
      * unfold generateReceiptHtml. now destruct (popup_blocked w).
      * rewrite Hnone, Hc, <- Ec, !filter_app, cart_calls_remote.
        replace (dir (generateReceiptHtml props s w)) with (dir w)
          by (unfold generateReceiptHtml; now destruct (popup_blocked w)).
        destruct (popup_blocked w); cbn [filter is_remote app];
          now rewrite app_nil_r.
  - unfold w', finalizeCheckout.
    destruct (cart s) as [|item0 rest0] eqn:Ec; [reflexivity|].
    destruct (deductCart_calls props (item0 :: rest0) Hq
                (generateReceiptHtml props s w)) as [Hnone [_ Hd]].
    + unfold generateReceiptHtml. now destruct (popup_blocked w).
    + unfold generateReceiptHtml. now destruct (popup_blocked w).
    + destruct (deductCart props (item0 :: rest0) _) as [[m|] w2];
        cbn [fst snd] in *; [discriminate|].
      unfold toast, emit. cbn [dir]. rewrite Hd.
      unfold generateReceiptHtml. now destruct (popup_blocked w).
  - intros done item rest Ec d d' batches.
    assert (Hqi : 0 <= qty item).
    { rewrite Ec in Hq. apply Forall_app in Hq. destruct Hq as [_ Hq].
      now inversion Hq. }
    assert (Hkd : well_keyed d) by now apply served_keyed.
    set (w0 := {| dir := d; faults := []; popup_blocked := false;
                  clock := ""; log := [] |}).
    assert (Hw0 : no_faults w0) by constructor.
    destruct (line_deduction props item w0 Hw0 Hkd Hqi)
      as [Hperm [Hsorted [_ [_ [Hfound [Hothers Htotal]]]]]].
    destruct (deductItem_line props item w0 Hw0 Hkd Hqi)
      as [_ [_ [_ Hd]]].
    cbn [dir] in *.
    assert (Hd' : d' = dir (snd (deductItem props item w0))).
    { unfold d'. rewrite served_app, Hd. reflexivity. }
    split; [exact Hperm|]. split; [exact Hsorted|]. split.
    + rewrite Hcalls, Ec, cart_calls_app. cbn [cart_calls].
      unfold d'. rewrite served_app. reflexivity.
    + rewrite Hd'. repeat split; assumption.
Qed.

(** A cart of one line asking for fifteen units against two batches of ten
    expiring 2024-01-01 and 2024-02-01: one fetch and two writes; the
    first batch ends at 0, sold out, the second at 5, active; 15 deducted
    in all. *)
Lemma fefo_deduction_witness :
  let w := world_of demo_dir [] false in
  let w' := snd (finalizeCheckout demo_props (session_of [fifteen_of_A]) w) in
  filter is_remote (trace_of w w')
  = [ EvRemote (SelectBatches (fefo_query demo_props fifteen_of_A)) None;
      EvRemote (UpdateBatch "b-a1" 0 "sold_out") None;
      EvRemote (UpdateBatch "b-a2" 5 "active") None ]
  /\ lookup_batch "b-a1" (dir w')
     = Some {| batch_id := "b-a1"; product_id := "p-a"; shop_id := "shop-1";
               quantity := 0; mrp := 30; discount_percent := Some 10%float;
               expiry_date := "2024-01-01"; status := "sold_out" |}
  /\ lookup_batch "b-a2" (dir w')
     = Some {| batch_id := "b-a2"; product_id := "p-a"; shop_id := "shop-1";
               quantity := 5; mrp := 30; discount_percent := None;
               expiry_date := "2024-02-01"; status := "active" |}
  /\ sum_shares 15
       (with_before 0
          (run_batch_query (fefo_query demo_props fifteen_of_A) demo_dir))
     = 15.
Proof.
  intros w w'.
  destruct (fefo_deduction demo_props (session_of [fifteen_of_A]) w)
    as [Hcalls [Hdir Hlines]].
  - constructor.
  - unfold well_keyed. simpl.
    repeat (constructor;
            [simpl; intros H;
             repeat (destruct H as [H|H]; [discriminate H|]); exact H|]).
    constructor.
  - repeat constructor. simpl; lia.
  - destruct (Hlines [] fifteen_of_A [] eq_refl)
      as [_ [_ [_ [Hfound [_ Htotal]]]]].
    fold w' in Hcalls, Hdir. split; [|split; [|split]].
    + rewrite Hcalls. reflexivity.
    + rewrite Hdir.
      exact (Hfound (stock "b-a1" "p-a" 10 30 (Some 10%float) "2024-01-01")
               0 (or_introl eq_refl)).
    + rewrite Hdir.
      exact (Hfound (stock "b-a2" "p-a" 10 30 None "2024-02-01")
               10 (or_intror (or_introl eq_refl))).
    + exact Htotal.
Defined.

(** ** Checkout: the receipt *)

Lemma finalizeCheckout_after_receipt props s w :
  cart s <> [] ->
  follows (generateReceiptHtml props s w) (snd (finalizeCheckout props s w)).
Proof.
  intros Hne. unfold finalizeCheckout.
  destruct (cart s) as [|item rest] eqn:Ec; [contradiction|].
  pose proof (deductCart_follows props (item :: rest)
                (generateReceiptHtml props s w)) as Hd.
  destruct (deductCart props (item :: rest) _) as [[m|] w2]; cbn [snd] in *.
  - eapply follows_trans; [exact Hd|].
    eapply follows_trans; now apply emit_follows.
  - eapply follows_trans; [exact Hd|].
    eapply follows_trans; now apply emit_follows.
Qed.

(** C3, as the code has it.  For a non-empty cart the first thing checkout
    does is ask the browser for the receipt window; when the browser gives
    one, the receipt of the cart is written to it next.  Every fetch and
    update comes after, and the receipt depends on the cart alone:
    neither the tables nor the fate of any call enter it. *)
Theorem receipt_precedes_deduction props s w :
  cart s <> [] ->
  exists rest,
    trace_of w (snd (finalizeCheckout props s w))
    = (EvWindowOpen
       :: (if popup_blocked w then []
           else [EvReceiptWritten (receiptOf props (clock w) (cart s))])
       ++ rest)%list.
Proof.
  intros Hne.
  destruct (finalizeCheckout_after_receipt props s w Hne) as [Hl _].
  exists (trace_of (generateReceiptHtml props s w)
            (snd (finalizeCheckout props s w))).
  apply trace_of_app. rewrite Hl. unfold generateReceiptHtml.
  destruct (popup_blocked w); simpl; rewrite <- !app_assoc; reflexivity.
Qed.

(** The directory is unreachable, so the very first fetch fails: the
    receipt is written all the same, before that fetch. *)
Lemma receipt_precedes_deduction_witness :
  exists rest,
    trace_of (world_of demo_dir [Some "offline"] false)
      (snd (finalizeCheckout demo_props (session_of two_lines)
              (world_of demo_dir [Some "offline"] false)))
    = EvWindowOpen
      :: EvReceiptWritten (receiptOf demo_props "1/15/2024, 10:30:00 AM" two_lines)
      :: rest
    /\ In (EvRemote
             (SelectBatches
                (fefo_query demo_props (line "p-a" "Amul Milk 500ml" 2 27 20)))
             (Some "offline")) rest.
Proof.
  destruct (receipt_precedes_deduction demo_props (session_of two_lines)
              (world_of demo_dir [Some "offline"] false))
    as [rest Hrest].
  - discriminate.
  - exists rest. split; [exact Hrest|].
    apply (f_equal (fun evs => tl (tl evs))) in Hrest.
    cbv [popup_blocked world_of tl app] in Hrest. rewrite <- Hrest.
    vm_compute. left. reflexivity.
Defined.

(** With the receipt window refused, checkout of a two-line cart writes no
    receipt at all, and goes on to deduct the stock. *)
Lemma receipt_not_written_when_popup_blocked :
  cart (session_of two_lines) <> []
  /\ ~ receipt_written_first demo_props (session_of two_lines)
         (world_of demo_dir [] true)
  /\ In (EvRemote (UpdateBatch "b-a1" 8 "active") None)
       (trace_of (world_of demo_dir [] true)
          (snd (finalizeCheckout demo_props (session_of two_lines)
                  (world_of demo_dir [] true)))).
Proof.
  split; [discriminate|]. split.
  - intros [r [before [after [H _]]]].
    assert (Hin : In (EvReceiptWritten r)
                    (trace_of (world_of demo_dir [] true)
                       (snd (finalizeCheckout demo_props
                               (session_of two_lines)
                               (world_of demo_dir [] true)))))
      by (rewrite H; apply in_elt).
    vm_compute in Hin.
    repeat (destruct Hin as [Hin|Hin]; [discriminate Hin|]).
    exact Hin.
  - vm_compute. right. right. left. reflexivity.
Qed.

(** ** Checkout: requests beyond the stock *)

Lemma with_before_bound l :
  Forall (fun b => 0 < quantity b) l ->
  forall B b x,
    In (b, x) (with_before B l) -> x + quantity b <= B + sum_quantities l.
Proof.
  induction 1 as [|c l Hc Hl IH]; simpl; [tauto|].
  intros B b x [[= <- <-]|H].
  - assert (0 <= sum_quantities l) by now apply sum_quantities_nonneg.
    lia.
  - apply IH in H. lia.
Qed.

Lemma with_before_covers l :
  forall B b, In b l -> exists x, In (b, x) (with_before B l).
Proof.
  induction l as [|c l IH]; intros B b; [contradiction|].
  intros [->|Hb].
  - exists B. now left.
  - destruct (IH (B + quantity c) b Hb) as [x Hx]. exists x. now right.
Qed.

(** A line asking for at least what is on hand, calls answered, takes all
    of it: every fetched batch ends at quantity zero, sold out, and no
    error is raised for what is missing. *)
Lemma shortfall_is_silent props item w :
  no_faults w -> well_keyed (dir w) ->
  sum_quantities (run_batch_query (fefo_query props item) (dir w))
  <= qty item ->
  fst (deductItem props item w) = None
  /\ forall b,
       In b (run_batch_query (fefo_query props item) (dir w)) ->
       lookup_batch (batch_id b) (dir (snd (deductItem props item w)))
       = Some (settle b 0).
Proof.
  intros Hw Hkeys Hshort.
  assert (Hpos : Forall (fun b => 0 < quantity b)
                   (run_batch_query (fefo_query props item) (dir w))).
  { eapply Forall_impl; [|apply run_batch_query_matches].
    intros b. apply matches_query_positive. }
  assert (Hq : 0 <= qty item).
  { assert (H := sum_quantities_nonneg _ Hpos). lia. }
  destruct (deductItem_no_faults props item w Hw Hkeys Hq)
    as [w' [E [_ [_ [_ [_ [_ [Hfound _]]]]]]]].
  rewrite E. cbn [fst snd]. split; [reflexivity|].
  intros b Hb.
  assert (Hx : exists x,
             In (b, x)
               (with_before 0
                  (run_batch_query (fefo_query props item) (dir w)))).
  { now apply with_before_covers. }
  destruct Hx as [x Hx].
  rewrite (Hfound b x Hx). f_equal. f_equal.
  assert (H1 := with_before_bound _ Hpos 0 b x Hx).
  assert (H2 := with_before_ge _ Hpos 0 b x Hx).
  unfold share. lia.
Qed.

Lemma deductCart_no_faults props c :
  Forall (fun item => 0 <= qty item) c ->
  forall w,
    no_faults w -> well_keyed (dir w) ->
    fst (deductCart props c w) = None.
Proof.
  induction 1 as [|item rest Hq Hrest IH]; intros w Hw Hkeys; simpl;
    [reflexivity|].
  destruct (deductItem_no_faults props item w Hw Hkeys Hq)
    as [w' [E [Hf [_ [_ [Hids _]]]]]].
  rewrite E. apply IH; [assumption|].
  unfold well_keyed in *. now rewrite Hids.
Qed.

(** With every call answered, checkout reports success, whatever the
    stock on hand, closes the dialog, and leaves the cart as it is. *)
Lemma finalizeCheckout_success props s w :
  cart s <> [] ->
  Forall (fun item => 0 <= qty item) (cart s) ->
  no_faults w -> well_keyed (dir w) ->
  fst (finalizeCheckout props s w) = setIsCheckingOut false (setIsOpen false s)
  /\ exists w2,
       snd (finalizeCheckout props s w)
       = emit EvInventoryUpdated
           (toast None "Checkout Successful" "Inventory has been updated." w2).
Proof.
  intros Hne Hq Hw Hkeys. unfold finalizeCheckout.
  destruct (cart s) as [|item rest] eqn:Ec; [contradiction|].
  assert (H := deductCart_no_faults props (item :: rest) Hq
                 (generateReceiptHtml props s w)).
  destruct (deductCart props (item :: rest) _) as [[m|] w2].
  - exfalso. assert (Some m = None); [|discriminate].
    apply H.
    + unfold generateReceiptHtml. destruct (popup_blocked w); exact Hw.
    + unfold generateReceiptHtml. destruct (popup_blocked w); exact Hkeys.
  - split; [reflexivity|]. now exists w2.
Qed.

(** C4, at a cart whose cap is stale: nine of product B are asked for,
    four are on hand.  The batch is emptied and marked sold out, the only
    toast is "Checkout Successful", the dialog is closed, and the cart
    still holds the line, also once the user has opened the dialog again;
    a dialog the user dismisses is left with an empty cart. *)
Theorem stale_cap_checkout_keeps_cart :
  let result := finalizeCheckout demo_props (session_of [nine_of_B])
                  (world_of demo_dir [] false) in
  option_map (fun b => (quantity b, status b))
    (lookup_batch "b-b1" (dir (snd result))) = Some (0, "sold_out")
  /\ filter is_toast (log (snd result))
     = [EvToast {| variant := None; title := "Checkout Successful";
                   description := "Inventory has been updated." |}]
  /\ isOpen (fst result) = false
  /\ cart (fst result) = [nine_of_B]
  /\ cart (fst (onOpenChange true (fst result) (snd result))) = [nine_of_B]
  /\ cart (fst (onOpenChange false (session_of [nine_of_B])
                  (world_of demo_dir [] false))) = [].
Proof. repeat split. Qed.

(** * Further properties *)

(** ** What a cart can look like *)

Lemma find_none_not_in (f : CartItem -> bool) c :
  find f c = None -> forall item, In item c -> f item = false.
Proof.
  induction c as [|x c IH]; simpl; [tauto|].
  destruct (f x) eqn:E; [discriminate|].
  intros H item [<-|Hin]; auto.
Qed.

Lemma addToCart_ids ocrData p a u c :
  map productId (fst (addToCart ocrData p a u c))
  = (map productId c
     ++ match find (fun item => String.eqb (productId item) (prod_id p)) c
        with
        | Some _ => []
        | None => [prod_id p]
        end)%list.
Proof.
  unfold addToCart. destruct (find _ c) as [existing|].
  - rewrite app_nil_r. destruct (qty existing <? a)%Z; simpl; [|reflexivity].
    rewrite map_map. apply map_ext. intros item.
    now destruct (String.eqb (productId item) (prod_id p)).
  - simpl. now rewrite map_app.
Qed.

Lemma addToCart_unique ocrData p a u c :
  NoDup (map productId c) ->
  NoDup (map productId (fst (addToCart ocrData p a u c))).
Proof.
  intros H. rewrite addToCart_ids.
  destruct (find _ c) as [existing|] eqn:E.
  - now rewrite app_nil_r.
  - apply NoDup_app; [assumption| |].
    + repeat constructor. simpl. tauto.
    + intros x Hx [<-|[]]. apply in_map_iff in Hx.
      destruct Hx as [item [Hid Hin]].
      apply (find_none_not_in _ _ E) in Hin.
      apply String.eqb_neq in Hin. contradiction.
Qed.

(** What a resolution does to the cart, in any world: nothing, or what
    [addToCart] makes of it for some product, positive availability and
    price. *)
Lemma resolve_cart_cases ilike props ocrData s w :
  cart (fst (resolveScannedProductToCart ilike props ocrData s w)) = cart s
  \/ exists p a u,
       0 < a
       /\ cart (fst (resolveScannedProductToCart ilike props ocrData s w))
          = fst (addToCart ocrData p a u (cart s)).
Proof.
  unfold resolveScannedProductToCart.
  destruct (matchProduct ilike props ocrData w) as [[p|] w1]; [|now left].
  destruct (findBatches props ocrData p w1) as [bs w2] eqn:E.
  destruct bs as [[|b more]|]; try now left.
  right. exists p, (sumQuantity (b :: more)), (discountedPrice b).
  split.
  - assert (Hpos := findBatches_positive props ocrData p w1 (b :: more)).
    rewrite E in Hpos. specialize (Hpos eq_refl).
    rewrite sumQuantity_sum. simpl. inversion Hpos; subst.
    assert (0 <= sum_quantities more) by now apply sum_quantities_nonneg.
    lia.
  - destruct (addToCart ocrData p _ _ (cart s)) as [c t]. reflexivity.
Qed.

Lemma changeQty_ids pid n s w :
  map productId (cart (fst (changeQty pid n s w))) = map productId (cart s).
Proof.
  rewrite changeQty_cart, map_map. apply map_ext. intros item.
  unfold changeQtyItem.
  destruct (String.eqb (productId item) pid); [|reflexivity].
  destruct ((0 <? n) && (n <=? availableQty item))%Z%bool; [reflexivity|].
  now destruct (availableQty item <? n)%Z.
Qed.

(** X1.  A cart the session can hold has at most one line per product. *)
Theorem reachable_unique_products c :
  Reachable c -> NoDup (map productId c).
Proof.
  induction 1 as [|ilike props ocrData s w _ IH|pid n s w _ IH
                  |pid s w _ IH|props s w _ IH|open s w _ IH].
  - constructor.
  - destruct (resolve_cart_cases ilike props ocrData s w)
      as [->|[p [a [u [_ ->]]]]]; [assumption|].
    now apply addToCart_unique.
  - now rewrite changeQty_ids.
  - simpl. now apply NoDup_map_filter.
  - now rewrite finalizeCheckout_cart.
  - destruct open; simpl; [assumption|constructor].
Qed.

(** Scanning the bread twice, then a milk: two lines, two products. *)
Lemma reachable_unique_products_witness :
  let w := world_of demo_dir [] false in
  let s1 := fst (resolveScannedProductToCart like demo_props scan_bread_stale
                   (session_of []) w) in
  let s2 := fst (resolveScannedProductToCart like demo_props scan_bread_stale
                   s1 w) in
  let s3 := fst (resolveScannedProductToCart like demo_props scan_nandini
                   s2 w) in
  map productId (cart s3) = ["p-d"; "p-b"]
  /\ NoDup (map productId (cart s3)).
Proof.
  intros w s1 s2 s3. split; [reflexivity|].
  apply reachable_unique_products.
  unfold s3. apply reach_scan. unfold s2. apply reach_scan.
  unfold s1. apply reach_scan. apply reach_empty.
Defined.

Lemma addToCart_quantities ocrData p a u c :
  0 < a ->
  Forall (fun item => 1 <= qty item /\ 1 <= availableQty item) c ->
  Forall (fun item => 1 <= qty item /\ 1 <= availableQty item)
    (fst (addToCart ocrData p a u c)).
Proof.
  intros Ha Hc. unfold addToCart.
  destruct (find _ c) as [existing|].
  - destruct (qty existing <? a)%Z; simpl; [|assumption].
    apply Forall_forall. intros x Hx. apply in_map_iff in Hx.
    destruct Hx as [y [<- Hy]].
    assert (1 <= qty y /\ 1 <= availableQty y)
      by (apply (proj1 (Forall_forall _ _) Hc); assumption).
    destruct (String.eqb (productId y) (prod_id p)); simpl; lia.
  - simpl. apply Forall_app. split; [assumption|].
    constructor; [simpl; lia|constructor].
Qed.

(** X2.  Every line of a cart the session can hold asks for at least one
    unit and carries a cap of at least one. *)
Theorem reachable_positive_quantities c :
  Reachable c ->
  Forall (fun item => 1 <= qty item /\ 1 <= availableQty item) c.
Proof.
  induction 1 as [|ilike props ocrData s w _ IH|pid n s w _ IH
                  |pid s w _ IH|props s w _ IH|open s w _ IH].
  - constructor.
  - destruct (resolve_cart_cases ilike props ocrData s w)
      as [->|[p [a [u [Ha ->]]]]]; [assumption|].
    now apply addToCart_quantities.
  - rewrite changeQty_cart. apply Forall_forall. intros x Hx.
    apply in_map_iff in Hx. destruct Hx as [y [<- Hy]].
    assert (Hy' : 1 <= qty y /\ 1 <= availableQty y)
      by (apply (proj1 (Forall_forall _ _) IH); assumption).
    rewrite changeQtyItem_cap. split; [|tauto].
    unfold changeQtyItem.
    destruct (String.eqb (productId y) pid); [|tauto].
    destruct (Z.ltb_spec 0 n), (Z.leb_spec n (availableQty y)); simpl;
      try lia;
      destruct (Z.ltb_spec (availableQty y) n); simpl; lia.
  - simpl. apply Forall_forall. intros x Hx. apply filter_In in Hx.
    apply (proj1 (Forall_forall _ _) IH). tauto.
  - now rewrite finalizeCheckout_cart.
  - destruct open; simpl; [assumption|constructor].
Qed.

(** A scanned line, asked for 0, then for -3, then for 99: it still asks
    for at least one unit (the cap, 4). *)
Lemma reachable_positive_quantities_witness :
  let w := world_of demo_dir [] false in
  let s1 := fst (changeQty "p-b" 0 scanned_session w) in
  let s2 := fst (changeQty "p-b" (-3) s1 w) in
  let s3 := fst (changeQty "p-b" 99 s2 w) in
  map qty (cart s3) = [4]
  /\ Forall (fun item => 1 <= qty item /\ 1 <= availableQty item) (cart s3).
Proof.
  intros w s1 s2 s3. split; [reflexivity|].
  apply reachable_positive_quantities.
  unfold s3. apply reach_change. unfold s2. apply reach_change.
  unfold s1. apply reach_change.
  exact (reach_scan like demo_props scan_nandini (session_of [])
           (world_of demo_dir [] false) reach_empty).
Defined.

(** ** [removeItem] *)

Lemma filter_all {A} (f : A -> bool) l :
  (forall x, In x l -> f x = true) -> filter f l = l.
Proof.
  induction l as [|x l IH]; simpl; [reflexivity|].
  intros H. rewrite (H x (or_introl eq_refl)), IH; auto.
Qed.

Lemma remove_unique_length pid c :
  NoDup (map productId c) ->
  In pid (map productId c) ->
  S (List.length
       (filter (fun item => negb (String.eqb (productId item) pid)) c))
  = List.length c.
Proof.
  induction c as [|x c IH]; simpl; [tauto|].
  intros Hnd Hin. inversion Hnd as [|? ? Hfresh Hnd']; subst.
  destruct (String.eqb_spec (productId x) pid) as [E|E]; simpl.
  - f_equal. f_equal. apply filter_all. intros y Hy.
    apply negb_true_iff, String.eqb_neq. intros Ey.
    apply Hfresh. rewrite E, <- Ey. now apply in_map.
  - f_equal. apply IH; [assumption|].
    destruct Hin as [Hin|Hin]; [contradiction|assumption].
Qed.

(** X3.  [removeItem] keeps, in their order, exactly the lines of the other
    products and leaves the world alone; in a cart with one line per
    product it takes out exactly one line when the product is there, and
    nothing when it is not. *)
Theorem removeItem_takes_one_line pid s w :
  NoDup (map productId (cart s)) ->
  snd (removeItem pid s w) = w
  /\ ~ In pid (map productId (cart (fst (removeItem pid s w))))
  /\ filter (fun item => negb (String.eqb (productId item) pid))
       (cart (fst (removeItem pid s w)))
     = filter (fun item => negb (String.eqb (productId item) pid)) (cart s)
  /\ (In pid (map productId (cart s)) ->
      S (List.length (cart (fst (removeItem pid s w))))
      = List.length (cart s))
  /\ (~ In pid (map productId (cart s)) ->
      fst (removeItem pid s w) = s).
Proof.
  intros Hnd. simpl. split; [reflexivity|]. split; [|split; [|split]].
  - intros Hin. apply in_map_iff in Hin. destruct Hin as [x [Hx Hin]].
    apply filter_In in Hin. destruct Hin as [_ Hne].
    apply negb_true_iff, String.eqb_neq in Hne. contradiction.
  - apply filter_all. intros x Hx. now apply filter_In in Hx.
  - now apply remove_unique_length.
  - intros Hout. rewrite filter_all; [apply setCart_same|].
    intros x Hx. apply negb_true_iff, String.eqb_neq. intros E.
    apply Hout. rewrite <- E. now apply in_map.
Qed.

Lemma removeItem_takes_one_line_witness :
  cart (fst (removeItem "p-d" (session_of three_lines)
               (world_of demo_dir [] false)))
  = two_lines
  /\ S (List.length
          (cart (fst (removeItem "p-d" (session_of three_lines)
                        (world_of demo_dir [] false)))))
     = List.length three_lines.
Proof.
  split; [reflexivity|].
  destruct (removeItem_takes_one_line "p-d" (session_of three_lines)
              (world_of demo_dir [] false)) as [_ [_ [_ [Hone _]]]].
  - simpl.
    repeat (constructor;
            [simpl; intros H;
             repeat (destruct H as [H|H]; [discriminate H|]); exact H|]).
    constructor.
  - apply Hone. simpl. right. now left.
Defined.

(** ** Scanning a product that is already in the cart *)

Lemma find_unique_line c :
  NoDup (map productId c) ->
  forall i x,
    nth_error c i = Some x ->
    find (fun item => String.eqb (productId item) (productId x)) c = Some x.
Proof.
  induction c as [|y c IH]; intros Hnd i x Hi.
  - destruct i; discriminate.
  - inversion Hnd as [|? ? Hfresh Hnd']; subst. simpl.
    destruct i as [|i]; simpl in Hi.
    + injection Hi as ->. now rewrite String.eqb_refl.
    + destruct (String.eqb_spec (productId y) (productId x)) as [E|E].
      * exfalso. apply Hfresh. rewrite E. apply in_map.
        eapply nth_error_In; eassumption.
      * eapply IH; eassumption.
Qed.

Lemma unique_line_index c i j x y :
  NoDup (map productId c) ->
  nth_error c i = Some x -> nth_error c j = Some y ->
  productId x = productId y -> i = j.
Proof.
  intros Hnd Hi Hj E.
  apply (proj1 (NoDup_nth_error (map productId c)) Hnd).
  - rewrite length_map. apply nth_error_Some. congruence.
  - rewrite !nth_error_map, Hi, Hj. simpl. now rewrite E.
Qed.

(** X4.  Scanning a product that already has a line, calls answered, in a
    cart with one line per product: the cart keeps its length and its
    other lines; the product's line gains one unit when it asks for less
    than the availability the scan just computed, with no toast; otherwise
    the session is as it was and the "Max quantity reached" toast is
    raised. *)
Theorem rescan_bumps_or_warns
  ilike props ocrData s w p firstBatch more i existing :
  no_faults w ->
  fst (matchProduct ilike props ocrData w) = Some p ->
  qualifying props ocrData p (dir w) = firstBatch :: more ->
  NoDup (map productId (cart s)) ->
  nth_error (cart s) i = Some existing ->
  productId existing = prod_id p ->
  let w1 := snd (matchProduct ilike props ocrData w) in
  let result := resolveScannedProductToCart ilike props ocrData s w in
  let fresh := sum_quantities (firstBatch :: more) in
  List.length (cart (fst result)) = List.length (cart s)
  /\ (forall j, j <> i ->
        nth_error (cart (fst result)) j = nth_error (cart s) j)
  /\ (qty existing < fresh ->
      nth_error (cart (fst result)) i = Some (bump existing)
      /\ filter is_toast (trace_of w1 (snd result)) = [])
  /\ (fresh <= qty existing ->
      fst result = s
      /\ filter is_toast (trace_of w1 (snd result))
         = [EvToast max_quantity_toast]).
Proof.
  intros Hw Hp Hq Hnd Hi Hid w1 result fresh.
  destruct (resolve_after_match ilike props ocrData s w p Hw Hp)
    as [w2 [_ [Hlog E]]].
  fold w1 in Hlog. fold result in E. rewrite Hq in E. fold fresh in E.
  assert (Hfind : find (fun item => String.eqb (productId item) (prod_id p))
                    (cart s) = Some existing).
  { rewrite <- Hid. eapply find_unique_line; eassumption. }
  assert (Hquiet : filter is_toast (stock_queries props ocrData p (dir w))
                   = []).
  { unfold stock_queries. destruct (truthy (expiryDate ocrData)); simpl;
      [|reflexivity].
    now destruct (on_hand_expiring props p _ (dir w)). }
  unfold addToCart in E. rewrite Hfind in E.
  destruct (Z.ltb_spec (qty existing) fresh) as [Hlt|Hge];
    cbn [fst snd raise] in E; rewrite E; cbn [fst snd setCart cart].
  - split; [apply length_map|]. split; [|split; [|intros; lia]].
    + intros j Hj. rewrite nth_error_map.
      destruct (nth_error (cart s) j) as [y|] eqn:Ey; [|reflexivity].
      simpl. destruct (String.eqb_spec (productId y) (prod_id p)) as [Ep|Ep];
        [|reflexivity].
      exfalso. apply Hj. symmetry.
      eapply unique_line_index; try eassumption. congruence.
    + intros _. split.
      * rewrite nth_error_map, Hi. simpl. now rewrite Hid, String.eqb_refl.
      * rewrite (trace_of_app w1 w2 _ Hlog). exact Hquiet.
  - split; [reflexivity|]. split; [reflexivity|]. split; [intros; lia|].
    intros _. split; [apply setCart_same|].
    rewrite (trace_of_app w1 _ (stock_queries props ocrData p (dir w)
                                ++ [EvToast max_quantity_toast])%list).
    + rewrite filter_app, Hquiet. reflexivity.
    + simpl. rewrite Hlog. now rewrite <- app_assoc.
Qed.

(** A line of product B at 3 of 4 on hand gains its fourth unit from a
    scan; the next scan leaves it at 4 and raises the toast. *)
Lemma rescan_bumps_or_warns_witness :
  let w := world_of demo_dir [] false in
  let three := session_of [line "p-b" "Nandini MILK 1l" 3 56 4] in
  let four := session_of [line "p-b" "Nandini MILK 1l" 4 56 4] in
  fst (resolveScannedProductToCart like demo_props scan_nandini three w)
  = four
  /\ fst (resolveScannedProductToCart like demo_props scan_nandini four w)
     = four
  /\ filter is_toast
       (trace_of (snd (matchProduct like demo_props scan_nandini w))
          (snd (resolveScannedProductToCart like demo_props scan_nandini
                  four w)))
     = [EvToast max_quantity_toast].
Proof.
  intros w three four. split; [reflexivity|].
  destruct (rescan_bumps_or_warns like demo_props scan_nandini four w milkB
              (stock "b-b1" "p-b" 4 56 None "2024-03-15") [] 0%nat
              (line "p-b" "Nandini MILK 1l" 4 56 4))
    as [_ [_ [_ Hfull]]].
  - constructor.
  - reflexivity.
  - reflexivity.
  - repeat constructor. simpl. tauto.
  - reflexivity.
  - reflexivity.
  - apply Hfull. simpl. lia.
Defined.

(** ** Scans that match nothing *)

(** X5.  A scan whose code matches no single product and whose name is
    missing or matches no product, calls answered: the session is as it
    was, the only calls are the code lookup (if the scan has a code) and
    the name search (if it has a name), no batch is asked for, and the
    "Product not found" toast is raised. *)
Theorem product_not_found ilike props ocrData s w :
  no_faults w ->
  (truthy (ocr_gtin ocrData) = false
   \/ forall p, filter (has_gtin (field (ocr_gtin ocrData)))
                  (products (dir w)) <> [p]) ->
  (truthy (productName ocrData) = false
   \/ name_matches ilike ocrData (dir w) = []) ->
  let result := resolveScannedProductToCart ilike props ocrData s w in
  fst result = s
  /\ trace_of w (snd result)
     = ((if truthy (ocr_gtin ocrData)
         then [EvRemote (ProductByGtin (field (ocr_gtin ocrData)))
                 (error_of (answer_maybe_single (field (ocr_gtin ocrData))
                              (dir w)))]
         else [])
        ++ (if truthy (productName ocrData)
            then [EvRemote
                    (ProductsByName
                       ("%" ++ trim (field (productName ocrData)) ++ "%") 5)
                    None]
            else [])
        ++ [EvToast not_found_toast])%list.
Proof.
  intros Hw Hcode Hname result. unfold result, resolveScannedProductToCart.
  assert (Hmatch :
    exists w1,
      matchProduct ilike props ocrData w = (None, w1)
      /\ log w1 =
         (log w
          ++ (if truthy (ocr_gtin ocrData)
              then [EvRemote (ProductByGtin (field (ocr_gtin ocrData)))
                      (error_of
                         (answer_maybe_single (field (ocr_gtin ocrData))
                            (dir w)))]
              else [])
          ++ (if truthy (productName ocrData)
              then [EvRemote
                      (ProductsByName
                         ("%" ++ trim (field (productName ocrData)) ++ "%")
                         5) None]
              else []))%list).
  { unfold matchProduct.
    assert (Hstep1 :
      exists w1,
        (if truthy (ocr_gtin ocrData)
         then let '(r, w1) :=
                product_by_gtin (field (ocr_gtin ocrData)) w in
              (match data_of r with Some (Some p) => Some p | _ => None end,
               w1)
         else (None, w)) = (None, w1)
        /\ dir w1 = dir w /\ no_faults w1
        /\ log w1 =
           (log w
            ++ (if truthy (ocr_gtin ocrData)
                then [EvRemote (ProductByGtin (field (ocr_gtin ocrData)))
                        (error_of
                           (answer_maybe_single (field (ocr_gtin ocrData))
                              (dir w)))]
                else []))%list).
    { destruct (truthy (ocr_gtin ocrData)) eqn:Hg.
      - destruct Hcode as [Hcode|Hcode]; [discriminate|].
        rewrite product_by_gtin_answered by now apply no_faults_next.
        assert (Hnone :
          match data_of (answer_maybe_single (field (ocr_gtin ocrData))
                           (dir w))
          with Some (Some p) => Some p | _ => None end = None).
        { unfold answer_maybe_single.
          destruct (filter (has_gtin (field (ocr_gtin ocrData)))
                      (products (dir w))) as [|p [|p' l]] eqn:E;
            try reflexivity.
          exfalso. exact (Hcode p eq_refl). }
        rewrite Hnone. eexists. split; [reflexivity|]. simpl.
        repeat split. now apply no_faults_tl.
      - exists w. rewrite app_nil_r. repeat split; assumption. }
    destruct Hstep1 as [w1 [-> [Hd1 [Hf1 Hl1]]]].
    destruct (truthy (productName ocrData)) eqn:Hn.
    - destruct Hname as [Hname|Hname]; [discriminate|].
      rewrite products_by_name_answered by now apply no_faults_next.
      cbn [data_of]. rewrite Hd1.
      fold (name_matches ilike ocrData (dir w)). rewrite Hname.
      eexists. split; [reflexivity|]. simpl. rewrite Hl1.
      now rewrite <- app_assoc.
    - exists w1. split; [reflexivity|]. now rewrite Hl1, !app_nil_r. }
  destruct Hmatch as [w1 [-> Hl]].
  cbn [fst snd]. split; [reflexivity|].
  apply trace_of_app. unfold toast, emit. cbn [log]. rewrite Hl.
  now rewrite <- !app_assoc.
Qed.

(** "ghee" is the name of no product; a blank scan has neither code nor
    name and costs no call at all. *)
Lemma product_not_found_witness :
  fst (resolveScannedProductToCart like demo_props
         {| ocr_gtin := None; productName := Some "ghee";
            expiryDate := None |}
         (session_of two_lines) (world_of demo_dir [] false))
  = session_of two_lines
  /\ trace_of (world_of demo_dir [] false)
       (snd (resolveScannedProductToCart like demo_props
               {| ocr_gtin := None; productName := None;
                  expiryDate := Some "2024-01-01" |}
               (session_of two_lines) (world_of demo_dir [] false)))
     = [EvToast not_found_toast].
Proof.
  split.
  - apply (product_not_found like demo_props
             {| ocr_gtin := None; productName := Some "ghee";
                expiryDate := None |}
             (session_of two_lines) (world_of demo_dir [] false)).
    + constructor.
    + left; reflexivity.
    + right; reflexivity.
  - apply (product_not_found like demo_props
             {| ocr_gtin := None; productName := None;
                expiryDate := Some "2024-01-01" |}
             (session_of two_lines) (world_of demo_dir [] false)).
    + constructor.
    + left; reflexivity.
    + left; reflexivity.
Defined.

(** ** What a resolution costs and what it leaves alone *)

Lemma remote_read_follows {A} q (answer : Directory -> Response A) w :
  (forall id n st, q <> UpdateBatch id n st) ->
  follows w (snd (remote q answer (fun d => d) w)).
Proof.
  intros Hq.
  destruct (remote_read_frame q answer w) as [Hd [Hp _]].
  pose proof (remote_trace q answer (fun d => d) w) as Ht.
  unfold follows. rewrite Ht. repeat split.
  - unfold remote. destruct (faults w) as [|[m|] fs]; reflexivity.
  - rewrite Hd. simpl. destruct q; try reflexivity.
    exfalso. eapply Hq. reflexivity.
  - exact Hp.
Qed.

Lemma calls_app a b : calls (a ++ b) = (calls a + calls b)%nat.
Proof. unfold calls. now rewrite filter_app, length_app. Qed.

Lemma probeCandidates_calls props e candidates :
  forall w,
    follows w (snd (probeCandidates props e candidates w))
    /\ (calls (trace_of w (snd (probeCandidates props e candidates w)))
        <= List.length candidates)%nat.
Proof.
  induction candidates as [|p rest IH]; intros w; simpl.
  - split; [apply follows_refl|].
    unfold trace_of. rewrite skipn_all. apply Nat.le_refl.
  - pose proof (select_batches_follows (probe_query props p e) w) as F.
    pose proof (select_batches_trace (probe_query props p e) w) as T.
    destruct (select_batches (probe_query props p e) w) as [r w1].
    cbn [fst snd] in *.
    destruct (nothing (data_of r)).
    + destruct (IH w1) as [F' C']. split.
      * eapply follows_trans; eassumption.
      * rewrite (trace_of_trans w w1 _ F F'), calls_app, T.
        unfold calls at 1. simpl. lia.
    + cbn [snd]. split; [assumption|]. rewrite T. unfold calls. simpl. lia.
Qed.

Lemma products_by_name_limit ilike pattern n w l :
  data_of (fst (products_by_name ilike pattern n w)) = Some l ->
  (List.length l <= n)%nat.
Proof.
  unfold products_by_name, remote.
  destruct (faults w) as [|[m|] fs]; simpl; try discriminate;
    intros [= <-]; apply firstn_le_length.
Qed.

(** Selecting the product takes at most seven calls: the code lookup, the
    name search, and a probe for each of the five candidates at most. *)
Lemma matchProduct_calls ilike props ocrData w :
  follows w (snd (matchProduct ilike props ocrData w))
  /\ (calls (trace_of w (snd (matchProduct ilike props ocrData w))) <= 7)%nat.
Proof.
  unfold matchProduct.
  assert (H1 :
    forall x : option Product * World,
      x = (if truthy (ocr_gtin ocrData)
           then let '(r, w1) :=
                  product_by_gtin (field (ocr_gtin ocrData)) w in
                (match data_of r with Some (Some p) => Some p | _ => None end,
                 w1)
           else (None, w)) ->
      follows w (snd x) /\ (calls (trace_of w (snd x)) <= 1)%nat).
  { intros x ->. destruct (truthy (ocr_gtin ocrData)).
    - unfold product_by_gtin.
      pose proof (remote_read_follows
                    (ProductByGtin (field (ocr_gtin ocrData)))
                    (answer_maybe_single (field (ocr_gtin ocrData))) w) as F.
      pose proof (remote_trace
                    (ProductByGtin (field (ocr_gtin ocrData)))
                    (answer_maybe_single (field (ocr_gtin ocrData)))
                    (fun d => d) w) as T.
      destruct (remote _ _ _ w) as [r w1]. cbn [fst snd] in *.
      split; [apply F; discriminate|]. rewrite T. apply Nat.le_refl.
    - cbn [snd]. split; [apply follows_refl|].
      unfold trace_of. rewrite skipn_all. unfold calls. simpl. lia. }
  specialize (H1 _ eq_refl).
  destruct (if truthy (ocr_gtin ocrData) then _ else _) as [[p|] w1];
    cbn [snd] in H1; destruct H1 as [F1 C1].
  { cbn [snd]. split; [assumption|lia]. }
  destruct (truthy (productName ocrData)); [|cbn [snd]; split; [assumption|lia]].
  unfold products_by_name.
  match goal with
  | |- context [remote ?q ?a (fun d => d) w1] =>
      pose proof (remote_read_follows q a w1) as F2;
      pose proof (remote_trace q a (fun d => d) w1) as T2;
      pose proof (products_by_name_limit ilike
                    ("%" ++ trim (field (productName ocrData)) ++ "%")
                    5 w1) as L2;
      unfold products_by_name in L2;
      destruct (remote q a (fun d => d) w1) as [r w2]
  end.
  cbn [fst snd] in *.
  assert (F2' : follows w1 w2) by (apply F2; discriminate).
  assert (C2 : (calls (trace_of w w2) <= 2)%nat).
  { rewrite (trace_of_trans w w1 _ F1 F2'), calls_app, T2.
    unfold calls at 2. simpl. lia. }
  destruct (data_of r) as [[|cand more]|]; cbn [snd];
    try (split; [eapply follows_trans; eassumption|lia]).
  specialize (L2 _ eq_refl).
  destruct (truthy (expiryDate ocrData)).
  - destruct (probeCandidates_calls props (field (expiryDate ocrData))
                (cand :: more) w2) as [F3 C3].
    destruct (probeCandidates props _ (cand :: more) w2) as [byExpiry w3].
    cbn [fst snd] in *.
    assert (F02 : follows w w2) by (eapply follows_trans; eassumption).
    split; [eapply follows_trans; eassumption|].
    rewrite (trace_of_trans w w2 _ F02 F3), calls_app. lia.
  - cbn [snd]. split; [eapply follows_trans; eassumption|lia].
Qed.

Lemma findBatches_frame props ocrData p w :
  dir (snd (findBatches props ocrData p w)) = dir w
  /\ popup_blocked (snd (findBatches props ocrData p w)) = popup_blocked w.
Proof.
  unfold findBatches.
  match goal with
  | |- context [select_batches ?q w] =>
      destruct (select_batches_frame q w) as [Hd [Hp _]];
      destruct (select_batches q w) as [r w1]
  end.
  cbn [snd] in *.
  destruct (nothing (data_of r) && truthy (expiryDate ocrData)).
  - destruct (select_batches_frame (inventory_query props p None) w1)
      as [Hd2 [Hp2 _]].
    destruct (select_batches (inventory_query props p None) w1) as [r2 w2].
    cbn [snd] in *.
    destruct (error_of r2); cbn [snd emit dir popup_blocked];
      split; congruence.
  - cbn [snd]. now split.
Qed.

(** X6.  Whatever the scan and whatever becomes of its calls, a resolution
    issues at most nine remote calls, leaves both tables as they are, and
    changes nothing of the session but the cart. *)
Theorem resolution_reads_within_budget ilike props ocrData s w :
  let result := resolveScannedProductToCart ilike props ocrData s w in
  (calls (trace_of w (snd result)) <= 9)%nat
  /\ dir (snd result) = dir w
  /\ fst result = setCart (cart (fst result)) s.
Proof.
  intros result.
  destruct (matchProduct_calls ilike props ocrData w) as [F1 C1].
  destruct (matchProduct_frame ilike props ocrData w) as [D1 _].
  unfold result, resolveScannedProductToCart, toast.
  destruct (matchProduct ilike props ocrData w) as [[p|] w1];
    cbn [fst snd] in *.
  - destruct (findBatches_any props ocrData p w1) as [_ [F2 [R2 _]]].
    destruct (findBatches_frame props ocrData p w1) as [D2 _].
    assert (C2 : (calls (trace_of w1 (snd (findBatches props ocrData p w1)))
                  <= 2)%nat).
    { unfold calls. rewrite R2.
      destruct (nothing _ && truthy (expiryDate ocrData)); simpl; lia. }
    destruct (findBatches props ocrData p w1) as [found w2].
    cbn [fst snd] in *.
    assert (F02 : follows w w2) by (eapply follows_trans; eassumption).
    assert (C02 : (calls (trace_of w w2) <= 9)%nat).
    { rewrite (trace_of_trans w w1 _ F1 F2), calls_app. lia. }
    destruct found as [[|b more]|].
    + cbn [fst snd]. split; [|split].
      * rewrite (trace_of_trans w w2) by
          (try assumption; now apply emit_follows).
        rewrite calls_app, emit_trace. unfold calls at 2. simpl. lia.
      * simpl. congruence.
      * symmetry. apply setCart_same.
    + destruct (addToCart ocrData p _ _ (cart s)) as [c t].
      cbn [fst snd]. split; [|split].
      * change (match t with
                | Some t0 => emit (EvToast t0) w2
                | None => w2
                end) with (raise w2 t).
        rewrite (trace_of_trans w w2) by
          (try assumption; apply raise_follows).
        rewrite calls_app, raise_trace.
        destruct t; unfold calls at 2; simpl; lia.
      * destruct t; simpl; congruence.
      * reflexivity.
    + cbn [fst snd]. split; [|split].
      * rewrite (trace_of_trans w w2) by
          (try assumption; now apply emit_follows).
        rewrite calls_app, emit_trace. unfold calls at 2. simpl. lia.
      * simpl. congruence.
      * symmetry. apply setCart_same.
  - split; [|split].
    + rewrite (trace_of_trans w w1) by
        (try assumption; now apply emit_follows).
      rewrite calls_app, emit_trace. unfold calls at 2. simpl. lia.
    + simpl. congruence.
    + symmetry. apply setCart_same.
Qed.

(** ** Checkout: how it ends *)

(** X7.  A checkout of a non-empty cart ends in failure exactly when one of
    its remote calls came back with an error.  Then the one toast is
    "Inventory Update Failed" and the dialog and the cart stay as they
    are; otherwise the one toast is "Checkout Successful", the parent is
    told to refresh, and the dialog is closed.  Either way the
    checking-out flag is down again. *)
Theorem checkout_fails_iff_a_call_failed props s w :
  cart s <> [] ->
  let result := finalizeCheckout props s w in
  let failed := existsb failed_call (trace_of w (snd result)) in
  fst result
  = (if failed then setIsCheckingOut false s
     else setIsCheckingOut false (setIsOpen false s))
  /\ (failed = true ->
      exists d,
        filter is_toast (trace_of w (snd result)) = [EvToast (failure_toast d)]
        /\ ~ In EvInventoryUpdated (trace_of w (snd result)))
  /\ (failed = false ->
      filter is_toast (trace_of w (snd result)) = [EvToast success_toast]
      /\ In EvInventoryUpdated (trace_of w (snd result))).
Proof.
  intros Hne result failed.
  destruct (finalizeCheckout_trace props s w Hne) as [Ht Hs].
  fold result in Ht, Hs.
  pose proof (deductCart_thrown props (cart s)
                (generateReceiptHtml props s w)) as Hth.
  pose proof (deductCart_quiet props (cart s)
                (generateReceiptHtml props s w)) as Hq.
  pose proof (generateReceiptHtml_trace props s w) as Hr.
  unfold thrown in Hth.
  set (run := deductCart props (cart s) (generateReceiptHtml props s w)) in *.
  assert (Hreceipt :
    existsb failed_call (trace_of w (generateReceiptHtml props s w)) = false
    /\ filter is_toast (trace_of w (generateReceiptHtml props s w)) = []
    /\ ~ In EvInventoryUpdated
         (trace_of w (generateReceiptHtml props s w))).
  { rewrite Hr. destruct (popup_blocked w); simpl; repeat split;
      intros H; repeat (destruct H as [H|H]; [discriminate H|]); exact H. }
  destruct Hreceipt as [Hr1 [Hr2 Hr3]].
  assert (Hnot : ~ In EvInventoryUpdated
                   (trace_of (generateReceiptHtml props s w) (snd run))).
  { intros Hin.
    revert Hin. unfold run. clear.
    generalize (generateReceiptHtml props s w) as w0.
    induction (cart s) as [|item rest IH]; intros w0; simpl.
    - now rewrite trace_of_refl.
    - pose proof (deductItem_follows props item w0) as F.
      assert (Hitem : ~ In EvInventoryUpdated
                        (trace_of w0 (snd (deductItem props item w0)))).
      { unfold deductItem.
        pose proof (select_batches_follows (fefo_query props item) w0) as Hs.
        pose proof (select_batches_trace (fefo_query props item) w0) as Ht.
        destruct (select_batches (fefo_query props item) w0)
          as [[batches|m] w1]; cbn [fst snd] in *.
        - rewrite (trace_of_trans w0 w1) by
            (try assumption; apply deductBatches_follows).
          rewrite Ht. intros [H|H]; [discriminate|]. revert H.
          generalize (qty item) as q. clear. revert w1.
          induction batches as [|b more IHb]; intros w1 q; simpl.
          + now rewrite trace_of_refl.
          + destruct (q =? 0)%Z; [simpl; now rewrite trace_of_refl|].
            match goal with
            | |- context [update_batch ?id ?n ?st w1] =>
                pose proof (update_batch_follows id n st w1) as Hu;
                pose proof (update_batch_trace id n st w1) as Ht;
                destruct (update_batch id n st w1) as [r w2]
            end.
            cbn [fst snd] in *. destruct (error_of r) as [m|].
            * cbn [snd]. rewrite (trace_of_trans w1 w2) by
                (try assumption; now apply emit_follows).
              rewrite Ht, emit_trace.
              intros H; repeat (destruct H as [H|H]; [discriminate H|]);
                exact H.
            * rewrite (trace_of_trans w1 w2) by
                (try assumption; apply deductBatches_follows).
              rewrite Ht. intros [H|H]; [discriminate|].
              eapply IHb; eassumption.
        - rewrite Ht. intros [H|[]]. discriminate. }
      destruct (deductItem props item w0) as [[m|] w1]; cbn [fst snd] in *;
        [exact Hitem|].
      rewrite (trace_of_trans w0 w1) by
        (try assumption; apply deductCart_follows).
      intros Hin. apply in_app_or in Hin. destruct Hin as [Hin|Hin];
        [now apply Hitem|]. eapply IH; eassumption. }
  assert (Hfailed : failed = match fst run with
                             | Some _ => true
                             | None => false
                             end).
  { unfold failed. rewrite Ht, !existsb_app, Hr1, Hth.
    destruct (fst run); reflexivity. }
  rewrite Hfailed, Hs, Ht.
  destruct (fst run) as [message|].
  - split; [reflexivity|]. split; [|discriminate].
    intros _. eexists. split.
    + rewrite !filter_app, Hr2, Hq. reflexivity.
    + intros Hin. apply in_app_or in Hin. destruct Hin as [Hin|Hin];
        [contradiction|].
      apply in_app_or in Hin. destruct Hin as [Hin|Hin]; [contradiction|].
      repeat (destruct Hin as [Hin|Hin]; [discriminate Hin|]). exact Hin.
  - split; [reflexivity|]. split; [discriminate|].
    intros _. split.
    + rewrite !filter_app, Hr2, Hq. reflexivity.
    + apply in_or_app. right. apply in_or_app. right. right. now left.
Qed.

(** The third call of a two-line checkout fails: failure, dialog open;
    with every call answered: success, dialog closed. *)
Lemma checkout_fails_iff_a_call_failed_witness :
  isOpen (fst (finalizeCheckout demo_props (session_of two_lines)
                 (world_of demo_dir [None; None; Some "timeout"] false)))
  = true
  /\ isOpen (fst (finalizeCheckout demo_props (session_of two_lines)
                    (world_of demo_dir [] false)))
     = false.
Proof.
  split.
  - destruct (checkout_fails_iff_a_call_failed demo_props
                (session_of two_lines)
                (world_of demo_dir [None; None; Some "timeout"] false))
      as [Hs _]; [discriminate|].
    rewrite Hs. reflexivity.
  - destruct (checkout_fails_iff_a_call_failed demo_props
                (session_of two_lines) (world_of demo_dir [] false))
      as [Hs _]; [discriminate|].
    rewrite Hs. reflexivity.
Defined.

Lemma after_failure_app a b :
  after_failure (a ++ b)
  = if existsb failed_call a then (after_failure a ++ b)%list
    else after_failure b.
Proof.
  induction a as [|e a IH]; simpl; [reflexivity|].
  destruct (failed_call e); simpl; [reflexivity|exact IH].
Qed.

Lemma deductBatches_stops item batches :
  forall q w,
    filter is_remote
      (after_failure (trace_of w (snd (deductBatches item batches q w))))
    = [].
Proof.
  induction batches as [|b rest IH]; intros q w.
  - simpl. now rewrite trace_of_refl.
  - cbn [deductBatches]. destruct (q =? 0)%Z.
    { simpl. now rewrite trace_of_refl. }
    match goal with
    | |- context [update_batch ?id ?n ?st w] =>
        pose proof (update_batch_follows id n st w) as Hu;
        pose proof (update_batch_trace id n st w) as Ht;
        destruct (update_batch id n st w) as [r w1]
    end.
    cbn [fst snd] in *. destruct (error_of r) as [m|].
    + cbn [snd]. rewrite (trace_of_trans w w1) by
        (try assumption; now apply emit_follows).
      rewrite Ht, emit_trace. reflexivity.
    + rewrite (trace_of_trans w w1) by
        (try assumption; apply deductBatches_follows).
      rewrite Ht. simpl. apply IH.
Qed.

Lemma deductItem_stops props item w :
  filter is_remote
    (after_failure (trace_of w (snd (deductItem props item w)))) = [].
Proof.
  unfold deductItem.
  pose proof (select_batches_follows (fefo_query props item) w) as Hs.
  pose proof (select_batches_trace (fefo_query props item) w) as Ht.
  destruct (select_batches (fefo_query props item) w) as [[batches|m] w1];
    cbn [fst snd] in *.
  - rewrite (trace_of_trans w w1) by
      (try assumption; apply deductBatches_follows).
    rewrite Ht. simpl. apply deductBatches_stops.
  - rewrite Ht. reflexivity.
Qed.

Lemma deductCart_stops_calling props c :
  forall w,
    filter is_remote
      (after_failure (trace_of w (snd (deductCart props c w)))) = [].
Proof.
  induction c as [|item rest IH]; intros w; simpl.
  - now rewrite trace_of_refl.
  - pose proof (deductItem_follows props item w) as F.
    pose proof (deductItem_stops props item w) as S.
    pose proof (deductItem_thrown props item w) as T.
    destruct (deductItem props item w) as [[m|] w1]; cbn [fst snd] in *;
      [exact S|].
    rewrite (trace_of_trans w w1) by
      (try assumption; apply deductCart_follows).
    rewrite after_failure_app, T. unfold thrown. cbn [fst]. apply IH.
Qed.

(** X8.  Once a remote call of a checkout has come back with an error, the
    checkout issues no further remote call: whatever comes after the first
    failed call in its trace is console output and the toast. *)
Theorem checkout_stops_at_first_failure props s w :
  filter is_remote
    (after_failure (trace_of w (snd (finalizeCheckout props s w)))) = [].
Proof.
  destruct (cart s) as [|item rest] eqn:Ec.
  - unfold finalizeCheckout. rewrite Ec. cbn [snd]. unfold toast.
    rewrite emit_trace. reflexivity.
  - assert (Hne : cart s <> []) by (rewrite Ec; discriminate).
    destruct (finalizeCheckout_trace props s w Hne) as [Ht _].
    rewrite Ht, generateReceiptHtml_trace.
    pose proof (deductCart_stops_calling props (cart s)
                  (generateReceiptHtml props s w)) as Hstop.
    set (run := deductCart props (cart s) (generateReceiptHtml props s w))
      in *.
    assert (Hhead : forall tail,
               after_failure
                 ((EvWindowOpen
                   :: (if popup_blocked w then []
                       else [EvReceiptWritten (receiptOf props (clock w) (cart s))]))
                  ++ tail) = after_failure tail).
    { intros tail. destruct (popup_blocked w); reflexivity. }
    rewrite Hhead, after_failure_app.
    destruct (existsb failed_call
                (trace_of (generateReceiptHtml props s w) (snd run))).
    + rewrite filter_app, Hstop. destruct (fst run); reflexivity.
    + destruct (fst run); reflexivity.
Qed.

(** ** Checkout: what can become of a row *)

Lemma Forall2_same {A} (R : A -> A -> Prop) l :
  (forall x, R x x) -> Forall2 R l l.
Proof. intros H. induction l; constructor; auto. Qed.

Lemma Forall2_chain {A} (R : A -> A -> Prop) :
  (forall x y z, R x y -> R y z -> R x z) ->
  forall l1 l2 l3, Forall2 R l1 l2 -> Forall2 R l2 l3 -> Forall2 R l1 l3.
Proof.
  intros Htrans l1 l2 l3 H12. revert l3.
  induction H12 as [|x y l1 l2 Hxy _ IH]; intros l3 H23;
    inversion H23; subst; constructor; eauto.
Qed.

Lemma shrinks_trans props c r1 r2 r3 :
  shrinks props c r1 r2 -> shrinks props c r2 r3 -> shrinks props c r1 r3.
Proof.
  intros [->|H12] H23; [assumption|].
  destruct H23 as [->|H23]; [now right|].
  destruct H12 as [Hc [H1 [H2 [H3 [H4 [H5 [H6 [H7 _]]]]]]]].
  destruct H23 as [_ [K1 [K2 [K3 [K4 [K5 [K6 [K7 K8]]]]]]]].
  right. repeat split; try congruence; lia.
Qed.

Lemma keyed_rows_agree d b r :
  well_keyed d ->
  In b (inventory_batches d) -> In r (inventory_batches d) ->
  batch_id r = batch_id b -> r = b.
Proof.
  intros Hk Hb Hr E.
  apply (lookup_in_keyed d b Hk) in Hb.
  apply (lookup_in_keyed d r Hk) in Hr.
  rewrite E in Hr. congruence.
Qed.

(** One answered update of the loop, seen on the whole table. *)
Lemma update_shrinks props c d b n :
  well_keyed d -> In b (inventory_batches d) ->
  existsb (fun item => in_stock (shopId props) (productId item) b) c = true ->
  0 <= n < quantity b ->
  Forall2 (shrinks props c) (inventory_batches d)
    (inventory_batches
       (apply_update (batch_id b) n
          (if (n =? 0)%Z then "sold_out" else "active") d)).
Proof.
  intros Hk Hb Hc Hn. simpl.
  assert (Hrows : forall r, In r (inventory_batches d) ->
                            batch_id r = batch_id b -> r = b).
  { intros r Hr E. eapply keyed_rows_agree; eassumption. }
  clear Hk Hb. induction (inventory_batches d) as [|r l IH]; simpl;
    constructor.
  - unfold set_batch.
    destruct (String.eqb_spec (batch_id r) (batch_id b)) as [E|E];
      [|now left].
    rewrite (Hrows r (or_introl eq_refl) E). right. simpl.
    repeat split; try assumption; lia.
  - apply IH. intros x Hx. apply Hrows. now right.
Qed.

Lemma update_batch_cases id n st w :
  (error_of (fst (update_batch id n st w)) = None
   /\ dir (snd (update_batch id n st w)) = apply_update id n st (dir w))
  \/ (error_of (fst (update_batch id n st w)) <> None
      /\ dir (snd (update_batch id n st w)) = dir w).
Proof.
  unfold update_batch, remote.
  destruct (faults w) as [|[m|] fs]; simpl;
    try (left; split; reflexivity).
  right. split; [discriminate|reflexivity].
Qed.

Lemma deductBatches_shrinks props c item batches :
  forall q w,
    well_keyed (dir w) -> 0 <= q ->
    (forall b, In b batches ->
               In b (inventory_batches (dir w))
               /\ 0 < quantity b
               /\ existsb (fun it => in_stock (shopId props) (productId it) b)
                    c = true) ->
    NoDup (map batch_id batches) ->
    Forall2 (shrinks props c) (inventory_batches (dir w))
      (inventory_batches (dir (snd (deductBatches item batches q w))))
    /\ products (dir (snd (deductBatches item batches q w)))
       = products (dir w)
    /\ map batch_id
         (inventory_batches (dir (snd (deductBatches item batches q w))))
       = map batch_id (inventory_batches (dir w)).
Proof.
  induction batches as [|b rest IH]; intros q w Hk Hq Hrows Hnd.
  - simpl. split; [apply Forall2_same; now left|]. now split.
  - cbn [deductBatches].
    destruct (Z.eqb_spec q 0) as [Hz|Hz].
    { simpl. split; [apply Forall2_same; now left|]. now split. }
    destruct (Hrows b (or_introl eq_refl)) as [Hb [Hpos Hc]].
    set (n := quantity b - Z.min q (quantity b)).
    destruct (update_batch_cases (batch_id b) n
                (if (n =? 0)%Z then "sold_out" else "active") w)
      as [[He Hd]|[He Hd]];
      destruct (update_batch (batch_id b) n _ w) as [r w1];
      cbn [fst snd] in *.
    + rewrite He.
      inversion Hnd as [|? ? Hfresh Hnd']; subst.
      assert (Hstep : Forall2 (shrinks props c) (inventory_batches (dir w))
                        (inventory_batches (dir w1))).
      { rewrite Hd. apply update_shrinks; try assumption. unfold n. lia. }
      destruct (IH (q - Z.min q (quantity b)) w1) as [H1 [H2 H3]].
      * unfold well_keyed. rewrite Hd, apply_update_ids. exact Hk.
      * lia.
      * intros x Hx. destruct (Hrows x (or_intror Hx)) as [Hin [Hp Hcx]].
        split; [|now split].
        rewrite Hd. simpl. apply in_map_iff. exists x. split; [|assumption].
        unfold set_batch.
        destruct (String.eqb_spec (batch_id x) (batch_id b)) as [E|E];
          [|reflexivity].
        exfalso. apply Hfresh. rewrite <- E. now apply in_map.
      * assumption.
      * split; [|split].
        -- eapply Forall2_chain; [apply shrinks_trans|exact Hstep|exact H1].
        -- rewrite H2, Hd. reflexivity.
        -- rewrite H3, Hd. apply apply_update_ids.
    + destruct (error_of r) as [m|]; [|contradiction].
      cbn [snd emit dir]. rewrite Hd.
      split; [apply Forall2_same; now left|]. now split.
Qed.

Lemma select_batches_cases q w :
  dir (snd (select_batches q w)) = dir w
  /\ ((exists m, fst (select_batches q w) = Failed m)
      \/ fst (select_batches q w) = Ok (run_batch_query q (dir w))).
Proof.
  unfold select_batches, remote.
  destruct (faults w) as [|[m|] fs]; simpl; split; try reflexivity;
    try (now right). left. now exists m.
Qed.

Lemma deductItem_shrinks props c item w :
  well_keyed (dir w) -> 0 <= qty item -> In item c ->
  Forall2 (shrinks props c) (inventory_batches (dir w))
    (inventory_batches (dir (snd (deductItem props item w))))
  /\ products (dir (snd (deductItem props item w))) = products (dir w)
  /\ map batch_id (inventory_batches (dir (snd (deductItem props item w))))
     = map batch_id (inventory_batches (dir w)).
Proof.
  intros Hk Hq Hin. unfold deductItem.
  destruct (select_batches_cases (fefo_query props item) w)
    as [Hd [[m Hf]|Hok]];
    destruct (select_batches (fefo_query props item) w) as [r w1];
    cbn [fst snd] in *; subst r.
  - cbn [snd]. rewrite Hd.
    split; [apply Forall2_same; now left|]. now split.
  - assert (Hperm : Permutation (run_batch_query (fefo_query props item) (dir w))
                      (filter (in_stock (shopId props) (productId item))
                         (inventory_batches (dir w)))).
    { rewrite run_fefo_query. apply order_by_expiry_perm. }
    destruct (deductBatches_shrinks props c item
                (run_batch_query (fefo_query props item) (dir w))
                (qty item) w1) as [H1 [H2 H3]];
      [| | | |rewrite Hd in H1, H2, H3; now repeat split].
    + now rewrite Hd.
    + assumption.
    + intros b Hb. apply (Permutation_in _ Hperm) in Hb.
      apply filter_In in Hb. destruct Hb as [Hb Hs]. rewrite Hd.
      split; [assumption|]. split; [now apply in_stock_facts in Hs|].
      apply existsb_exists. now exists item.
    + apply (Permutation_NoDup
               (l := map batch_id
                       (filter (in_stock (shopId props) (productId item))
                          (inventory_batches (dir w))))).
      * apply Permutation_map. now symmetry.
      * now apply NoDup_map_filter.
Qed.

Lemma deductCart_shrinks props c lines :
  forall w,
    well_keyed (dir w) ->
    (forall item, In item lines -> In item c /\ 0 <= qty item) ->
    Forall2 (shrinks props c) (inventory_batches (dir w))
      (inventory_batches (dir (snd (deductCart props lines w))))
    /\ products (dir (snd (deductCart props lines w))) = products (dir w).
Proof.
  induction lines as [|item rest IH]; intros w Hk Hlines; simpl.
  - split; [apply Forall2_same; now left|reflexivity].
  - destruct (Hlines item (or_introl eq_refl)) as [Hin Hq].
    destruct (deductItem_shrinks props c item w Hk Hq Hin) as [H1 [H2 H3]].
    destruct (deductItem props item w) as [[m|] w1]; cbn [fst snd] in *;
      [now split|].
    destruct (IH w1) as [K1 K2].
    + unfold well_keyed. now rewrite H3.
    + intros x Hx. apply Hlines. now right.
    + split; [|congruence].
      eapply Forall2_chain; [apply shrinks_trans|exact H1|exact K1].
Qed.

(** X9.  Whatever becomes of its calls, a checkout of a cart whose lines
    ask for no negative quantity, on tables with unique batch ids, leaves
    the products alone and every batch row in its place; a row either is
    untouched or was active stock of a cart product at the shop, has lost
    stock without going below zero, kept its price, discount and expiry
    date, and is marked sold out exactly when it is at zero. *)
Theorem checkout_only_shrinks_stock props s w :
  well_keyed (dir w) ->
  Forall (fun item => 0 <= qty item) (cart s) ->
  Forall2 (shrinks props (cart s)) (inventory_batches (dir w))
    (inventory_batches (dir (snd (finalizeCheckout props s w))))
  /\ products (dir (snd (finalizeCheckout props s w))) = products (dir w).
Proof.
  intros Hk Hq. unfold finalizeCheckout.
  destruct (cart s) as [|item rest] eqn:Ec.
  - simpl. split; [apply Forall2_same; now left|reflexivity].
  - assert (Hd0 : dir (generateReceiptHtml props s w) = dir w).
    { unfold generateReceiptHtml. now destruct (popup_blocked w). }
    destruct (deductCart_shrinks props (item :: rest) (item :: rest)
                (generateReceiptHtml props s w)) as [H1 H2].
    + now rewrite Hd0.
    + intros x Hx. split; [assumption|].
      apply (proj1 (Forall_forall _ _) Hq). assumption.
    + rewrite Hd0 in H1, H2.
      destruct (deductCart props (item :: rest) _) as [[m|] w2];
        cbn [fst snd] in *; now split.
Qed.

(** The three-line checkout whose fourth call fails: only the batch of
    product A that expires first has lost stock. *)
Lemma checkout_only_shrinks_stock_witness :
  map quantity
    (inventory_batches
       (dir (snd (finalizeCheckout demo_props (session_of three_lines)
                    (world_of demo_dir fourth_call_fails false)))))
  = [10; 8; 4; 3; 2; 6]
  /\ Forall2 (shrinks demo_props three_lines) (inventory_batches demo_dir)
       (inventory_batches
          (dir (snd (finalizeCheckout demo_props (session_of three_lines)
                       (world_of demo_dir fourth_call_fails false))))).
Proof.
  split; [reflexivity|].
  apply (checkout_only_shrinks_stock demo_props (session_of three_lines)
           (world_of demo_dir fourth_call_fails false)).
  - unfold well_keyed. simpl.
    repeat (constructor;
            [simpl; intros H;
             repeat (destruct H as [H|H]; [discriminate H|]); exact H|]).
    constructor.
  - repeat constructor; simpl; lia.
Defined.

(** ** Image intake *)

Lemma before_comma_all s : has_comma s = false -> before_comma s = s.
Proof.
  induction s as [|c s IH]; simpl; [reflexivity|].
  destruct (Ascii.eqb c ","); simpl; [discriminate|].
  intros H. now rewrite IH.
Qed.

Lemma after_comma_none s : has_comma s = false -> after_comma s = None.
Proof.
  induction s as [|c s IH]; simpl; [reflexivity|].
  destruct (Ascii.eqb c ","); simpl; [discriminate|exact IH].
Qed.

Lemma after_comma_first prefix rest :
  has_comma prefix = false ->
  after_comma (prefix ++ "," ++ rest) = Some rest.
Proof.
  induction prefix as [|c p IH]; simpl; [reflexivity|].
  destruct (Ascii.eqb c ","); simpl; [discriminate|exact IH].
Qed.

Lemma or_else_twice m a b : a <> "" -> or_else (or_else m a) b = or_else m a.
Proof.
  intros Ha. unfold or_else at 2 3.
  destruct (String.eqb_spec m "") as [Hm|Hm].
  - unfold or_else. now destruct (String.eqb_spec a "").
  - unfold or_else. now destruct (String.eqb_spec m "").
Qed.

Lemma processImage_scanned ilike props ocr imageBase64 s w :
  imageBase64 <> "" ->
  scanned_as ilike props (ocr (second_piece imageBase64)) s w
    (processImage ilike props ocr imageBase64 s w).
Proof.
  intros Hne. unfold processImage, scanned_as.
  destruct (String.eqb_spec imageBase64 "") as [E|_]; [contradiction|].
  destruct (ocr (second_piece imageBase64)) as [data|m].
  - cbv zeta.
    now destruct (resolveScannedProductToCart ilike props data
                    (setIsScanning true s) w).
  - cbn [fst snd]. split; [reflexivity|].
    rewrite or_else_twice by discriminate.
    apply trace_of_app. unfold toast, emit. cbn [log].
    now rewrite <- !app_assoc.
Qed.

(** X11.  For a data URL, a prefix and a payload with no comma in either
    joined by a comma, [processImage] comes to what the OCR function
    answers for exactly the payload: the resolution of the data it
    returns, or the "Scan Failed" toast with its error.  A text without a
    comma is scanned as what the function answers when it is given no
    image at all. *)
Theorem data_url_payload ilike props ocr prefix payload s w :
  has_comma prefix = false ->
  has_comma payload = false ->
  scanned_as ilike props (ocr (Some payload)) s w
    (processImage ilike props ocr (prefix ++ "," ++ payload) s w)
  /\ (prefix <> "" ->
      scanned_as ilike props (ocr None) s w
        (processImage ilike props ocr prefix s w)).
Proof.
  intros Hprefix Hpayload.
  assert (E : second_piece (prefix ++ "," ++ payload) = Some payload).
  { unfold second_piece. rewrite after_comma_first by assumption.
    simpl. now rewrite before_comma_all. }
  assert (E' : second_piece prefix = None).
  { unfold second_piece. now rewrite after_comma_none. }
  split.
  - rewrite <- E. apply processImage_scanned.
    destruct prefix; discriminate.
  - intros Hne. rewrite <- E'. now apply processImage_scanned.
Qed.

(** A picture whose payload the service reads the bread's code from puts
    the bread in the cart; the same text cut before its comma is answered
    "no image". *)
Lemma data_url_payload_witness :
  map (fun item => (productId item, qty item))
    (cart (fst (processImage like demo_props demo_ocr jpeg_url
                  (session_of []) (world_of demo_dir [] false))))
  = [("p-d", 1)]
  /\ filter is_toast
       (trace_of (world_of demo_dir [] false)
          (snd (processImage like demo_props demo_ocr
                  "data:image/jpeg;base64" (session_of [])
                  (world_of demo_dir [] false))))
     = [EvToast (scan_failed_toast "no image")].
Proof.
  destruct (data_url_payload like demo_props demo_ocr
              "data:image/jpeg;base64" "/9j/4AAQSkZJRg=="
              (session_of []) (world_of demo_dir [] false)
              eq_refl eq_refl) as [H1 H2].
  split.
  - change ("data:image/jpeg;base64" ++ "," ++ "/9j/4AAQSkZJRg==")
      with jpeg_url in H1.
    unfold scanned_as in H1.
    change (demo_ocr (Some "/9j/4AAQSkZJRg=="))
      with (@Ok OcrData (scan_bread None)) in H1.
    cbv beta iota zeta in H1. rewrite H1. vm_compute. reflexivity.
  - destruct H2 as [_ H2]; [discriminate|]. rewrite H2. reflexivity.
Defined.

Lemma resolve_frame ilike props ocrData s w :
  dir (snd (resolveScannedProductToCart ilike props ocrData s w)) = dir w
  /\ fst (resolveScannedProductToCart ilike props ocrData s w)
     = setCart
         (cart (fst (resolveScannedProductToCart ilike props ocrData s w))) s.
Proof.
  destruct (matchProduct_frame ilike props ocrData w) as [D1 _].
  unfold resolveScannedProductToCart, toast.
  destruct (matchProduct ilike props ocrData w) as [[p|] w1];
    cbn [fst snd] in *.
  - destruct (findBatches_frame props ocrData p w1) as [D2 _].
    destruct (findBatches props ocrData p w1) as [[[|b more]|] w2];
      cbn [fst snd] in *;
      try (split; [simpl; congruence|symmetry; apply setCart_same]).
    destruct (addToCart ocrData p _ _ (cart s)) as [c [t|]];
      cbn [fst snd]; split; simpl; congruence.
  - split; [simpl; congruence|symmetry; apply setCart_same].
Qed.

Lemma processImage_frame ilike props ocr imageBase64 s w :
  dir (snd (processImage ilike props ocr imageBase64 s w)) = dir w
  /\ fst (processImage ilike props ocr imageBase64 s w)
     = setIsScanning
         (if String.eqb imageBase64 "" then isScanning s else false)
         (setCart (cart (fst (processImage ilike props ocr imageBase64 s w)))
            s).
Proof.
  unfold processImage.
  destruct (String.eqb_spec imageBase64 "") as [E|E].
  - cbn [fst snd]. split; [reflexivity|]. destruct s; reflexivity.
  - destruct (ocr (second_piece imageBase64)) as [data|message].
    + destruct (resolve_frame ilike props data (setIsScanning true s) w)
        as [Hd Hs].
      destruct (resolveScannedProductToCart ilike props data
                  (setIsScanning true s) w) as [s1 w1].
      cbn [fst snd] in *. split; [exact Hd|].
      rewrite Hs. destruct s; reflexivity.
    + cbn [fst snd]. split; [reflexivity|]. destruct s; reflexivity.
Qed.

(** X12.  [processImage] never changes the tables, and of the session it
    changes only the cart and the scanning flag, which is down when it
    returns from a non-empty image.  When the OCR service fails, the cart
    is as it was, no directory call is made, and the one toast is "Scan
    Failed" with the service's message, or "Edge function returned a
    non-2xx code." when that message is empty. *)
Theorem scan_failure_is_contained ilike props ocr imageBase64 s w :
  let result := processImage ilike props ocr imageBase64 s w in
  dir (snd result) = dir w
  /\ fst result
     = setIsScanning
         (if String.eqb imageBase64 "" then isScanning s else false)
         (setCart (cart (fst result)) s)
  /\ (forall m,
        imageBase64 <> "" ->
        ocr (second_piece imageBase64) = Failed m ->
        cart (fst result) = cart s
        /\ trace_of w (snd result)
           = [ EvConsoleError "Supabase function invocation failed:";
               EvConsoleError "OCR Scan failed:";
               EvToast
                 {| variant := Some "destructive"; title := "Scan Failed";
                    description :=
                      or_else m "Edge function returned a non-2xx code." |} ]).
Proof.
  intros result.
  destruct (processImage_frame ilike props ocr imageBase64 s w) as [Hd Hs].
  fold result in Hd, Hs. split; [exact Hd|]. split; [exact Hs|].
  intros m Hne Hfail. unfold result, processImage.
  destruct (String.eqb_spec imageBase64 "") as [E|_]; [contradiction|].
  rewrite Hfail. cbn [fst snd]. split; [reflexivity|].
  assert (Hmsg : or_else
                   (or_else m "Edge function returned a non-2xx code.")
                   "Could not process image. Please try again."
                 = or_else m "Edge function returned a non-2xx code.").
  { unfold or_else at 2 3.
    destruct (String.eqb_spec m "") as [Hm|Hm]; [reflexivity|].
    unfold or_else. destruct (String.eqb_spec m ""); [contradiction|].
    reflexivity. }
  rewrite Hmsg. apply trace_of_app. unfold toast, emit. cbn [log].
  now rewrite <- !app_assoc.
Qed.

(** A picture the service cannot answer for: the cart is untouched. *)
Lemma scan_failure_is_contained_witness :
  cart (fst (processImage like demo_props demo_ocr "no comma here"
               (session_of two_lines) (world_of demo_dir [] false)))
  = two_lines
  /\ filter is_toast
       (trace_of (world_of demo_dir [] false)
          (snd (processImage like demo_props demo_ocr "no comma here"
                  (session_of two_lines) (world_of demo_dir [] false))))
     = [EvToast {| variant := Some "destructive"; title := "Scan Failed";
                   description := "no image" |}].
Proof.
  destruct (scan_failure_is_contained like demo_props demo_ocr
              "no comma here" (session_of two_lines)
              (world_of demo_dir [] false)) as [_ [_ Hfail]].
  destruct (Hfail "no image") as [Hc Ht]; [discriminate|reflexivity|].
  split; [exact Hc|]. rewrite Ht. reflexivity.
Defined.

Lemma processImage_reachable ilike props ocr imageBase64 s w :
  Reachable (cart s) ->
  Reachable (cart (fst (processImage ilike props ocr imageBase64 s w))).
Proof.
  intros Hr. unfold processImage.
  destruct (String.eqb imageBase64 ""); [assumption|].
  destruct (ocr (second_piece imageBase64)) as [data|message];
    [|assumption].
  pose proof (reach_scan ilike props data (setIsScanning true s) w Hr) as H.
  destruct (resolveScannedProductToCart ilike props data
              (setIsScanning true s) w) as [s1 w1].
  exact H.
Qed.

Lemma handleCapture_facts ilike props ocr imageBase64 v w :
  let result := handleCapture ilike props ocr imageBase64 v w in
  productImages (fst result) = (productImages v ++ [imageBase64])%list
  /\ dir (snd result) = dir w
  /\ isOpen (session (fst result)) = isOpen (session v)
  /\ isCameraOpen (session (fst result)) = isCameraOpen (session v)
  /\ isCheckingOut (session (fst result)) = isCheckingOut (session v)
  /\ (Reachable (cart (session v)) ->
      Reachable (cart (session (fst result)))).
Proof.
  intros result. unfold result, handleCapture.
  destruct (processImage_frame ilike props ocr imageBase64 (session v) w)
    as [Hd Hs].
  pose proof (processImage_reachable ilike props ocr imageBase64
                (session v) w) as Hr.
  destruct (processImage ilike props ocr imageBase64 (session v) w)
    as [s1 w1].
  cbn [fst snd session productImages] in *.
  rewrite Hs. repeat split; try assumption.
Qed.

(** X13.  An upload adds to the previews exactly the files that could be
    read, in the order picked, whether or not their scan succeeds; a file
    that cannot be read is skipped and the rest are still processed.  The
    upload leaves the tables, the dialog, the camera and the checking-out
    flag alone, and a cart the session can hold stays one. *)
Theorem upload_skips_unreadable_files ilike props ocr files v w :
  let result := handleImageUpload ilike props ocr files v w in
  productImages (fst result) = (productImages v ++ readable files)%list
  /\ dir (snd result) = dir w
  /\ isOpen (session (fst result)) = isOpen (session v)
  /\ isCameraOpen (session (fst result)) = isCameraOpen (session v)
  /\ isCheckingOut (session (fst result)) = isCheckingOut (session v)
  /\ (Reachable (cart (session v)) ->
      Reachable (cart (session (fst result)))).
Proof.
  revert v w.
  induction files as [|[url|m] rest IH]; intros v w; cbn [handleImageUpload].
  - cbn [fst snd readable]. rewrite app_nil_r. repeat split. auto.
  - pose proof (handleCapture_facts ilike props ocr url v w) as H.
    destruct (handleCapture ilike props ocr url v w) as [v1 w1].
    cbn [fst snd] in H. destruct H as [H1 [H2 [H3 [H4 [H5 H6]]]]].
    destruct (IH v1 w1) as [K1 [K2 [K3 [K4 [K5 K6]]]]].
    cbn [readable]. rewrite K1, H1, <- app_assoc.
    repeat split; try congruence. auto.
  - destruct (IH v (emit (EvConsoleError "Failed to process uploaded file")
                      w)) as [K1 [K2 [K3 [K4 [K5 K6]]]]].
    cbn [readable]. repeat split; assumption.
Qed.

(** Three files, the second unreadable: two previews, and the bread
    scanned twice. *)
Lemma upload_skips_unreadable_files_witness :
  let result :=
    handleImageUpload like demo_props demo_ocr
      [Ok jpeg_url; Failed "not an image"; Ok jpeg_url]
      (view_of []) (world_of demo_dir [] false) in
  productImages (fst result) = [jpeg_url; jpeg_url]
  /\ map (fun item => (productId item, qty item))
       (cart (session (fst result))) = [("p-d", 2)]
  /\ Reachable (cart (session (fst result))).
Proof.
  intros result.
  destruct (upload_skips_unreadable_files like demo_props demo_ocr
              [Ok jpeg_url; Failed "not an image"; Ok jpeg_url]
              (view_of []) (world_of demo_dir [] false))
    as [Hp [_ [_ [_ [_ Hr]]]]].
  fold result in Hp, Hr.
  split; [exact Hp|]. split; [reflexivity|].
  apply Hr. apply reach_empty.
Defined.

(** X14.  A press of the camera's capture button with no frame from the
    webcam changes nothing.  With a frame, the frame joins the previews
    and is scanned: the session and the world are what [processImage]
    makes of what the OCR function answers for the frame's payload, the
    resolution of its data or the "Scan Failed" toast.  The camera and the
    dialog stay open and the tables are not touched. *)
Theorem capture_keeps_camera_open ilike props ocr getScreenshot v w :
  let result := capture ilike props ocr getScreenshot v w in
  (truthy getScreenshot = false -> result = (v, w))
  /\ (truthy getScreenshot = true ->
      productImages (fst result)
      = (productImages v ++ [field getScreenshot])%list
      /\ isScanning (session (fst result)) = false
      /\ scanned_as ilike props (ocr (second_piece (field getScreenshot)))
           (session v) w (session (fst result), snd result))
  /\ isCameraOpen (session (fst result)) = isCameraOpen (session v)
  /\ isOpen (session (fst result)) = isOpen (session v)
  /\ dir (snd result) = dir w.
Proof.
  intros result. unfold result, capture.
  destruct (truthy getScreenshot) eqn:Ht.
  - pose proof (handleCapture_facts ilike props ocr (field getScreenshot)
                  v w) as H.
    cbv zeta in H. destruct H as [H1 [H2 [H3 [H4 _]]]].
    split; [discriminate|]. split; [|now repeat split].
    intros _. split; [exact H1|].
    assert (Hne : field getScreenshot <> "").
    { destruct getScreenshot as [shot|]; [|discriminate].
      simpl in *. apply negb_true_iff in Ht.
      now destruct (String.eqb_spec shot ""). }
    pose proof (processImage_scanned ilike props ocr (field getScreenshot)
                  (session v) w Hne) as Hscan.
    unfold handleCapture.
    destruct (processImage_frame ilike props ocr (field getScreenshot)
                (session v) w) as [_ Hs].
    destruct (processImage ilike props ocr (field getScreenshot)
                (session v) w) as [s1 w1].
    cbn [fst snd session] in *. split; [|exact Hscan].
    rewrite Hs.
    destruct (String.eqb_spec (field getScreenshot) "");
      [contradiction|reflexivity].
  - split; [reflexivity|]. split; [discriminate|]. now repeat split.
Qed.

(** No frame: nothing happens.  A frame the service reads the bread's code
    from: one preview, and the bread joins the two lines of the cart. *)
Lemma capture_keeps_camera_open_witness :
  capture like demo_props demo_ocr None (view_of two_lines)
    (world_of demo_dir [] false)
  = (view_of two_lines, world_of demo_dir [] false)
  /\ productImages
       (fst (capture like demo_props demo_ocr (Some jpeg_url)
               (view_of two_lines) (world_of demo_dir [] false)))
     = [jpeg_url]
  /\ map (fun item => (productId item, qty item))
       (cart (session
                (fst (capture like demo_props demo_ocr (Some jpeg_url)
                        (view_of two_lines) (world_of demo_dir [] false)))))
     = [("p-a", 2); ("p-b", 1); ("p-d", 1)].
Proof.
  split.
  - apply (capture_keeps_camera_open like demo_props demo_ocr None
             (view_of two_lines) (world_of demo_dir [] false)).
    reflexivity.
  - destruct (capture_keeps_camera_open like demo_props demo_ocr
                (Some jpeg_url) (view_of two_lines)
                (world_of demo_dir [] false)) as [_ [H _]].
    destruct (H eq_refl) as [Hp [_ Hscan]].
    split; [exact Hp|].
    unfold scanned_as in Hscan.
    change (demo_ocr (second_piece (field (Some jpeg_url))))
      with (@Ok OcrData (scan_bread None)) in Hscan.
    cbv beta iota zeta in Hscan.
    apply (f_equal fst) in Hscan. cbn [fst] in Hscan.
    rewrite Hscan. vm_compute. reflexivity.
Defined.

(** ** More on selecting the product *)





(** ** [changeQty] twice *)

Lemma changeQtyItem_last_wins pid n m item :
  0 < m ->
  fst (changeQtyItem pid m (fst (changeQtyItem pid n item)))
  = fst (changeQtyItem pid m item).
Proof.
  intros Hm. unfold changeQtyItem at 2.
  destruct (String.eqb (productId item) pid) eqn:Ep.
  - destruct (((0 <? n) && (n <=? availableQty item))%Z)%bool;
      [|destruct (availableQty item <? n)%Z];
      unfold changeQtyItem; simpl; rewrite ?Ep;
      destruct (Z.ltb_spec 0 m), (Z.leb_spec m (availableQty item));
      simpl; try lia; try reflexivity;
      destruct (Z.ltb_spec (availableQty item) m); simpl; try lia;
      reflexivity.
  - reflexivity.
Qed.

Lemma changeQtyItem_twice pid n item :
  fst (changeQtyItem pid n (fst (changeQtyItem pid n item)))
  = fst (changeQtyItem pid n item).
Proof.
  unfold changeQtyItem at 2.
  destruct (String.eqb (productId item) pid) eqn:Ep.
  - destruct (((0 <? n) && (n <=? availableQty item))%Z)%bool eqn:E1;
      [|destruct (availableQty item <? n)%Z eqn:E2];
      unfold changeQtyItem; simpl; rewrite ?Ep, ?E1, ?E2; reflexivity.
  - reflexivity.
Qed.

(** X17.  Asking twice for the same quantity of a product leaves the cart
    as asking once does, and of two requests for a product the second, when
    it is positive, alone decides the cart. *)
Theorem changeQty_last_request_wins pid n m s w w' :
  cart (fst (changeQty pid n (fst (changeQty pid n s w)) w'))
  = cart (fst (changeQty pid n s w))
  /\ (0 < m ->
      cart (fst (changeQty pid m (fst (changeQty pid n s w)) w'))
      = cart (fst (changeQty pid m s w'))).
Proof.
  split.
  - rewrite !changeQty_cart, map_map. apply map_ext. intros item.
    apply changeQtyItem_twice.
  - intros Hm. rewrite !changeQty_cart, map_map. apply map_ext.
    intros item. now apply changeQtyItem_last_wins.
Qed.

(** 99 of a line capped at 4, then 2: the line asks for 2. *)
Lemma changeQty_last_request_wins_witness :
  map qty
    (cart (fst (changeQty "p-b" 2
                  (fst (changeQty "p-b" 99 (session_of two_lines)
                          (world_of demo_dir [] false)))
                  (world_of demo_dir [] false))))
  = [2; 2].
Proof.
  destruct (changeQty_last_request_wins "p-b" 99 2 (session_of two_lines)
              (world_of demo_dir [] false) (world_of demo_dir [] false))
    as [_ Hlast].
  rewrite Hlast by lia. reflexivity.
Defined.

(** ** Checkout: the stock on hand *)











